(** * Smart File Organizer: the organization pipeline, its rules engine,
      its ledger and the undo operation, embedded from the Python sources.

    Python values are modelled as follows.
    - [str] is [string]; [str.lower] folds the ASCII letters.
    - [int] is [Z]; a [float] that the code obtains by dividing a byte count
      by [1024 * 1024] is the dyadic number [n / 2^20] whose numerator is the
      byte count rounded to 53 significant bits (round half to even), which
      is what CPython's true division returns.
    - A [pathlib.Path] is the list of the components of an absolute POSIX
      path; the working directory of the process is the root.
    - A [dict] with a fixed set of keys is a record, a free-form one a
      [gmap string _].
    - An exception is a value of [exn]; code that may raise runs in the
      monad [M], which threads the [world] and short-circuits on [Raise]. *)

From Stdlib Require Import ZArith Ascii String.
From stdpp Require Import gmap strings list fin_maps pretty sorting.

Local Open Scope Z_scope.

(** ** Strings *)

Module PyStr.

Definition lower_ascii (c : ascii) : ascii :=
  let n := nat_of_ascii c in
  if ((65 <=? n)%nat && (n <=? 90)%nat)%bool then ascii_of_nat (n + 32) else c.

(** [s.lower()] for a string of ASCII characters: the letters [A] to [Z]
    are folded, every other character is kept. *)
Fixpoint lower (s : string) : string :=
  match s with
  | EmptyString => EmptyString
  | String c t => String (lower_ascii c) (lower t)
  end.

(** [s.startswith(p)] *)
Fixpoint startswith (p s : string) : bool :=
  match p, s with
  | EmptyString, _ => true
  | String a p', String b s' => if Ascii.eqb a b then startswith p' s' else false
  | String _ _, EmptyString => false
  end.

(** [needle in hay] *)
Fixpoint contains (needle hay : string) : bool :=
  startswith needle hay ||
  match hay with
  | EmptyString => false
  | String _ t => contains needle t
  end.

(** [c in s] for a single character *)
Fixpoint has_char (c : ascii) (s : string) : bool :=
  match s with
  | EmptyString => false
  | String a t => Ascii.eqb a c || has_char c t
  end.

(** [x in xs] for a list of strings *)
Definition mem (x : string) (xs : list string) : bool :=
  existsb (String.eqb x) xs.

(** [s.split(sep)] on a one-character separator; the components come out
    in order and an empty string yields one empty component. *)
Fixpoint split (sep : ascii) (s : string) : list string :=
  match s with
  | EmptyString => [EmptyString]
  | String c t =>
      if Ascii.eqb c sep then EmptyString :: split sep t
      else match split sep t with
           | [] => [String c EmptyString]
           | w :: ws => String c w :: ws
           end
  end.

(** [sep.join(xs)] *)
Fixpoint join (sep : string) (xs : list string) : string :=
  match xs with
  | [] => EmptyString
  | [x] => x
  | x :: rest => x +:+ sep +:+ join sep rest
  end.

(** [s.rfind(c)]: the index of the last occurrence, if any. *)
Fixpoint rfind (c : ascii) (s : string) : option nat :=
  match s with
  | EmptyString => None
  | String a t =>
      match rfind c t with
      | Some i => Some (S i)
      | None => if Ascii.eqb a c then Some O else None
      end
  end.

(** [s[:n]] and [s[n:]] *)
Fixpoint take (n : nat) (s : string) : string :=
  match n, s with
  | S n', String c t => String c (take n' t)
  | _, _ => EmptyString
  end.

Fixpoint drop (n : nat) (s : string) : string :=
  match n, s with
  | S n', String _ t => drop n' t
  | _, _ => s
  end.

(** truthiness of a [str] *)
Definition truthy (s : string) : bool :=
  match s with EmptyString => false | _ => true end.

Definition is_space (c : ascii) : bool :=
  let n := nat_of_ascii c in
  ((n =? 32)%nat || ((9 <=? n)%nat && (n <=? 13)%nat))%bool.

Fixpoint lstrip (s : string) : string :=
  match s with
  | String c t => if is_space c then lstrip t else s
  | EmptyString => EmptyString
  end.

(** The string without its trailing white space. *)
Fixpoint rstrip (s : string) : string :=
  match s with
  | EmptyString => EmptyString
  | String c t =>
      match rstrip t with
      | EmptyString => if is_space c then EmptyString else String c EmptyString
      | t' => String c t'
      end
  end.

(** [s.strip()] *)
Definition strip (s : string) : string := rstrip (lstrip s).

End PyStr.

(** ** Numbers: true division by [1024 * 1024] and the [.1f] format *)

Module PyNum.

Definition MB : Z := 1024 * 1024.

(** Round [n >= 0] to 53 significant bits, ties to even. *)
Definition round53 (n : Z) : Z :=
  let bits := Z.log2 n + 1 in
  if bits <=? 53 then n
  else
    let sh := bits - 53 in
    let q := Z.shiftr n sh in
    let r := n - Z.shiftl q sh in
    let half := Z.shiftl 1 (sh - 1) in
    let q' := if (half <? r) || ((r =? half) && Z.odd q) then q + 1 else q in
    Z.shiftl q' sh.

(** The float [n / (1024 * 1024)], as the numerator of a fraction over
    [2^20]. *)
Definition div_mb (n : Z) : Z := round53 n.

(** [size_mb > limit] and [size_mb < limit] for an [int] limit: Python
    compares a float with an int exactly. *)
Definition gt_int (size_mb_num : Z) (limit : Z) : bool := limit * MB <? size_mb_num.
Definition lt_int (size_mb_num : Z) (limit : Z) : bool := size_mb_num <? limit * MB.

(** [f"{x:.1f}"] for the float [num / 2^20]: the exact value rounded to
    one decimal, ties to even. *)
Definition tenths (num : Z) : Z :=
  let scaled := num * 10 in
  let q := scaled / MB in
  let r := scaled mod MB in
  if (MB <? 2 * r) || ((2 * r =? MB) && Z.odd q) then q + 1 else q.

Definition format_1f (num : Z) : string :=
  let t := tenths num in
  pretty (t / 10) +:+ "." +:+ pretty (t mod 10).

End PyNum.

(** ** pathlib: pure paths *)

Module PurePath.

(** The components of an absolute path below the root. *)
Abbreviation Path := (list string).

Definition keep_part (s : string) : bool :=
  negb (String.eqb s "") && negb (String.eqb s ".").

(** The components of a path string: split at the separator, dropping
    empty and [.] components. *)
Definition parse_parts (s : string) : list string :=
  filter (fun c => Is_true (keep_part c)) (PyStr.split "/" s).

Definition is_absolute_str (s : string) : bool := PyStr.startswith "/" s.

(** [Path(s)] for the string of an absolute path.  A world is keyed by the
    paths from the root, and a string that is not absolute is read from the
    root as well. *)
Definition of_str (s : string) : Path := parse_parts s.

(** [str(p)] *)
Definition to_str (p : Path) : string := "/" +:+ PyStr.join "/" p.

(** [p.name] *)
Definition name (p : Path) : string := List.last p "".

(** [p.parent] *)
Definition parent (p : Path) : Path := removelast p.

(** The position at which the suffix of a file name starts: the last dot,
    unless it is the first or the last character. *)
Definition suffix_index (nm : string) : option nat :=
  match PyStr.rfind "." nm with
  | Some i =>
      if ((0 <? i)%nat && (i <? String.length nm - 1)%nat)%bool then Some i else None
  | None => None
  end.

(** [p.suffix] and [p.stem], on the file name *)
Definition suffix_of (nm : string) : string :=
  match suffix_index nm with
  | Some i => PyStr.drop i nm
  | None => ""
  end.

Definition stem_of (nm : string) : string :=
  match suffix_index nm with
  | Some i => PyStr.take i nm
  | None => nm
  end.

Definition suffix (p : Path) : string := suffix_of (name p).
Definition stem (p : Path) : string := stem_of (name p).

(** [p / s]: an absolute right operand replaces the left one. *)
Definition joinpath (p : Path) (s : string) : Path :=
  if is_absolute_str s then parse_parts s else p ++ parse_parts s.

(** [fnmatch.fnmatchcase(name, pat)] for a pattern without brackets:
    [*] matches any run of characters, [?] one character, anything else
    itself; the whole name has to match. *)
Fixpoint fnmatchcase (nm pat : string) : bool :=
  match pat with
  | EmptyString => match nm with EmptyString => true | _ => false end
  | String "*" pat' =>
      (fix star (s : string) : bool :=
         fnmatchcase s pat' ||
         match s with
         | EmptyString => false
         | String _ s' => star s'
         end) nm
  | String "?" pat' =>
      match nm with
      | EmptyString => false
      | String _ nm' => fnmatchcase nm' pat'
      end
  | String c pat' =>
      match nm with
      | EmptyString => false
      | String d nm' => Ascii.eqb c d && fnmatchcase nm' pat'
      end
  end.

(** Component-wise comparison of two reversed part lists, stopping with
    the shorter one ([zip]). *)
Fixpoint match_parts (rparts rpats : list string) : bool :=
  match rparts, rpats with
  | part :: rparts', pat :: rpats' =>
      fnmatchcase part pat && match_parts rparts' rpats'
  | _, _ => true
  end.

(** [p.match(pattern)]: [None] stands for the [ValueError] raised on an
    empty pattern.  A relative pattern is matched from the right against
    the trailing components of the path, an absolute one against the
    whole path. *)
Definition match_ (p : Path) (pattern : string) : option bool :=
  let pat_tail := parse_parts pattern in
  let anchored := is_absolute_str pattern in
  let pat_parts := if anchored then "/" :: pat_tail else pat_tail in
  let parts := "/" :: p in
  match pat_parts with
  | [] => None
  | _ =>
      if anchored && negb (length pat_parts =? length parts)%nat then Some false
      else if negb anchored && (length parts <? length pat_parts)%nat then Some false
      else Some (match_parts (rev parts)
                   (rev (if anchored then pat_tail else pat_parts)))
  end.

End PurePath.

(** ** The [re] module

    [re.match(pattern, string, re.IGNORECASE)] belongs to the Python
    library.  The rules engine is written against the interface [PyRe];
    [Re.engine] implements it for a fragment of the pattern syntax
    (literals, [.], character sets with ranges, groups, alternation, the
    quantifiers [*], [+] and [?], the anchors [^] and [$], and the escapes
    of punctuation, [\d], [\w] and [\s]) and answers [None], as for a
    pattern that does not compile, outside of it. *)

Class PyRe := re_match_ignorecase : string → string → option bool.

Module Re.

Inductive regex : Type :=
| Void                                   (* matches nothing *)
| Empty                                  (* matches the empty string *)
| Lit (c : ascii)
| AnyChar                                (* [.]: anything but a newline *)
| CharSet (negated : bool) (ranges : list (ascii * ascii))
| Cat (r1 r2 : regex)
| Or (r1 r2 : regex)
| Star (r : regex)
| Bol                                    (* [^] *)
| Eol.                                   (* [$] *)

Definition Plus (r : regex) : regex := Cat r (Star r).
Definition Opt (r : regex) : regex := Or r Empty.

Definition upper_ascii (c : ascii) : ascii :=
  let n := nat_of_ascii c in
  if ((97 <=? n)%nat && (n <=? 122)%nat)%bool then ascii_of_nat (n - 32) else c.

Definition in_range (c : ascii) (rg : ascii * ascii) : bool :=
  ((nat_of_ascii (fst rg) <=? nat_of_ascii c)%nat
   && (nat_of_ascii c <=? nat_of_ascii (snd rg))%nat)%bool.

(** Membership of a character in a set, ignoring case. *)
Definition in_set (c : ascii) (ranges : list (ascii * ascii)) : bool :=
  existsb (fun rg => in_range (PyStr.lower_ascii c) rg || in_range (upper_ascii c) rg) ranges.

Definition newline : ascii := "010"%char.

(** Where the matcher stands: at the start of the subject or not, and what
    is left of the subject. *)
Definition at_end (rest : string) : bool :=
  match rest with
  | EmptyString => true
  | String c EmptyString => Ascii.eqb c newline
  | _ => false
  end.

Fixpoint nullable (at_start : bool) (rest : string) (r : regex) : bool :=
  match r with
  | Void => false
  | Empty => true
  | Lit _ | AnyChar | CharSet _ _ => false
  | Cat r1 r2 => nullable at_start rest r1 && nullable at_start rest r2
  | Or r1 r2 => nullable at_start rest r1 || nullable at_start rest r2
  | Star _ => true
  | Bol => at_start
  | Eol => at_end rest
  end.

(** The derivative of [r] by the character [c], read at a position
    described by [at_start] and [rest] (the subject from [c] on). *)
Fixpoint deriv (at_start : bool) (rest : string) (c : ascii) (r : regex) : regex :=
  match r with
  | Void | Empty | Bol | Eol => Void
  | Lit d => if Ascii.eqb (PyStr.lower_ascii c) (PyStr.lower_ascii d) then Empty else Void
  | AnyChar => if Ascii.eqb c newline then Void else Empty
  | CharSet neg ranges => if xorb neg (in_set c ranges) then Empty else Void
  | Cat r1 r2 =>
      let left := Cat (deriv at_start rest c r1) r2 in
      if nullable at_start rest r1 then Or left (deriv at_start rest c r2) else left
  | Or r1 r2 => Or (deriv at_start rest c r1) (deriv at_start rest c r2)
  | Star r1 => Cat (deriv at_start rest c r1) (Star r1)
  end.

(** Does [r] match some prefix of [s]? *)
Fixpoint match_prefix (at_start : bool) (r : regex) (s : string) : bool :=
  nullable at_start s r ||
  match s with
  | EmptyString => false
  | String c s' => match_prefix false (deriv at_start s c r) s'
  end.

(** *** Parsing the pattern *)

Definition is_punct (c : ascii) : bool :=
  let n := nat_of_ascii c in
  negb (((48 <=? n)%nat && (n <=? 57)%nat)
        || ((65 <=? n)%nat && (n <=? 90)%nat)
        || ((97 <=? n)%nat && (n <=? 122)%nat)) && (n <? 128)%nat.

Definition digit_set : list (ascii * ascii) := [("0", "9")]%char.
Definition word_set : list (ascii * ascii) :=
  [("a", "z"); ("A", "Z"); ("0", "9"); ("_", "_")]%char.
Definition space_set : list (ascii * ascii) :=
  [(" ", " "); ("009", "013")]%char.

(** The set an escape stands for. *)
Definition escape_set (c : ascii) : option (list (ascii * ascii)) :=
  if Ascii.eqb c "d" then Some digit_set
  else if Ascii.eqb c "w" then Some word_set
  else if Ascii.eqb c "s" then Some space_set
  else if is_punct c then Some [(c, c)]
  else None.

(** The items of a character set, up to the closing bracket.  [first]
    tells that no item was read yet: a closing bracket is then an item. *)
Fixpoint parse_set (first : bool) (s : string) (acc : list (ascii * ascii))
  : option (list (ascii * ascii) * string) :=
  match s with
  | EmptyString => None
  | String c rest =>
      if Ascii.eqb c "]" && negb first then Some (rev acc, rest)
      else if Ascii.eqb c "\" then
        match rest with
        | String e rest' =>
            match escape_set e with
            | Some items => parse_set false rest' (rev items ++ acc)
            | None => None
            end
        | EmptyString => None
        end
      else
        match rest with
        | String "-" (String hi rest') =>
            if Ascii.eqb hi "]" then parse_set false rest ((c, c) :: acc)
            else if Ascii.eqb hi "\" then None
            else if (nat_of_ascii hi <? nat_of_ascii c)%nat then None
            else parse_set false rest' ((c, hi) :: acc)
        | _ => parse_set false rest ((c, c) :: acc)
        end
  end.

Definition is_quantifier (c : ascii) : bool :=
  Ascii.eqb c "*" || Ascii.eqb c "+" || Ascii.eqb c "?" || Ascii.eqb c "{".

(** An optional quantifier after an atom; a second quantifier in a row
    (lazy or possessive forms, a repeated repeat) is outside the fragment. *)
Definition parse_quant (a : regex) (s : string) : option (regex * string) :=
  match s with
  | String q rest =>
      if is_quantifier q then
        if Ascii.eqb q "{" then None
        else match rest with
             | String q' _ => if is_quantifier q' then None else
                 Some (if Ascii.eqb q "*" then Star a
                       else if Ascii.eqb q "+" then Plus a else Opt a, rest)
             | EmptyString =>
                 Some (if Ascii.eqb q "*" then Star a
                       else if Ascii.eqb q "+" then Plus a else Opt a, rest)
             end
      else Some (a, s)
  | EmptyString => Some (a, s)
  end.

Fixpoint parse_alt (fuel : nat) (s : string) : option (regex * string) :=
  match fuel with
  | O => None
  | S f =>
      match parse_seq f s with
      | Some (r1, String "|" rest) =>
          match parse_alt f rest with
          | Some (r2, rest') => Some (Or r1 r2, rest')
          | None => None
          end
      | other => other
      end
  end
with parse_seq (fuel : nat) (s : string) : option (regex * string) :=
  match fuel with
  | O => None
  | S f =>
      match s with
      | EmptyString => Some (Empty, s)
      | String "|" _ | String ")" _ => Some (Empty, s)
      | _ =>
          match parse_atom f s with
          | Some (a, rest) =>
              match parse_quant a rest with
              | Some (a', rest') =>
                  match parse_seq f rest' with
                  | Some (r, rest'') => Some (Cat a' r, rest'')
                  | None => None
                  end
              | None => None
              end
          | None => None
          end
      end
  end
with parse_atom (fuel : nat) (s : string) : option (regex * string) :=
  match fuel with
  | O => None
  | S f =>
      match s with
      | EmptyString => None
      | String "(" (String "?" _) => None
      | String "(" rest =>
          match parse_alt f rest with
          | Some (r, String ")" rest') => Some (r, rest')
          | _ => None
          end
      | String "[" (String "^" rest) =>
          match parse_set true rest [] with
          | Some (items, rest') => Some (CharSet true items, rest')
          | None => None
          end
      | String "[" rest =>
          match parse_set true rest [] with
          | Some (items, rest') => Some (CharSet false items, rest')
          | None => None
          end
      | String "." rest => Some (AnyChar, rest)
      | String "^" rest => Some (Bol, rest)
      | String "$" rest => Some (Eol, rest)
      | String "\" (String e rest) =>
          match escape_set e with
          | Some items => Some (CharSet false items, rest)
          | None => None
          end
      | String "\" EmptyString => None
      | String c rest => if is_quantifier c then None else Some (Lit c, rest)
      end
  end.

Definition compile (pattern : string) : option regex :=
  match parse_alt (3 * String.length pattern + 3) pattern with
  | Some (r, EmptyString) => Some r
  | _ => None
  end.

(** [bool(re.match(pattern, subject, re.IGNORECASE))] on the fragment. *)
Definition match_ (pattern subject : string) : option bool :=
  match compile pattern with
  | Some r => Some (match_prefix true r subject)
  | None => None
  end.

Definition engine : PyRe := match_.

End Re.

(** ** Python values and exceptions *)

Module Py.

(** A float or an int as the dyadic number [num / 2^shift]. *)
Record dyadic : Type := Dyadic { num : Z; shift : Z }.

Definition of_int (z : Z) : dyadic := Dyadic z 0.

(** the float [n / (1024 * 1024)] *)
Definition size_mb (n : Z) : dyadic := Dyadic (PyNum.div_mb n) 20.

Definition dy_lt (a b : dyadic) : bool :=
  num a * 2 ^ Z.max 0 (shift b) <? num b * 2 ^ Z.max 0 (shift a).
Definition dy_eq (a b : dyadic) : bool :=
  num a * 2 ^ Z.max 0 (shift b) =? num b * 2 ^ Z.max 0 (shift a).

(** The values that occur in the metadata dictionaries and in the
    conditions of a rule. *)
Inductive pyval : Type :=
| PyNone
| PyBool (b : bool)
| PyNum (d : dyadic)
| PyStr (s : string).

Definition as_number (v : pyval) : option dyadic :=
  match v with
  | PyBool b => Some (of_int (if b then 1 else 0))
  | PyNum d => Some d
  | _ => None
  end.

(** [a == b] *)
Definition py_eq (a b : pyval) : bool :=
  match a, b with
  | PyNone, PyNone => true
  | PyStr s, PyStr t => String.eqb s t
  | _, _ =>
      match as_number a, as_number b with
      | Some x, Some y => dy_eq x y
      | _, _ => false
      end
  end.

(** [bool(v)] *)
Definition truthy (v : pyval) : bool :=
  match v with
  | PyNone => false
  | PyBool b => b
  | PyNum d => negb (num d =? 0)
  | PyStr s => PyStr.truthy s
  end.

(** [d.get(k)] on a dictionary of values *)
Definition dict_get (d : gmap string pyval) (k : string) : pyval :=
  default PyNone (d !! k).

(** What an operating-system error carries. *)
Record os_error : Type := OsError { errno : Z; strerror : string }.

Inductive exn : Type :=
| OSError (e : os_error) (filename : string)
| ShutilError (msg : string)
| SqliteError (msg : string)
| ValueError (msg : string)
| ReError (pattern : string)
| LibraryError (library msg : string).

(** [str(e)] *)
Definition str (e : exn) : string :=
  match e with
  | OSError err filename =>
      "[Errno " +:+ pretty (errno err) +:+ "] " +:+ strerror err
        +:+ ": '" +:+ filename +:+ "'"
  | ShutilError msg => msg
  | SqliteError msg => msg
  | ValueError msg => msg
  | ReError pattern => "bad pattern " +:+ pattern
  | LibraryError library msg => library +:+ ": " +:+ msg
  end.

Definition ENOENT : os_error := OsError 2 "No such file or directory".
Definition EEXIST : os_error := OsError 17 "File exists".
Definition ENOTDIR : os_error := OsError 20 "Not a directory".
Definition EISDIR : os_error := OsError 21 "Is a directory".

Inductive res (A : Type) : Type :=
| Ok (a : A)
| Raise (e : exn).
Arguments Ok {A} a.
Arguments Raise {A} e.

End Py.
Export Py.

(** ** The world: file system, ledger, environment *)

Module World.
Import PurePath.

(** *** What the format libraries see in the bytes of a file *)

Inductive exif_result : Type :=
| ExifRaises                                  (* [_getexif] is missing or fails *)
| ExifNone                                    (* no EXIF block *)
| ExifTags (tags : gmap string pyval).        (* by tag name *)

Record pil_image : Type := PilImage
  { width : Z; height : Z; format : string; mode : string;
    getexif : exif_result }.

Record pdf_reader : Type := PdfReader
  { pdf_metadata : option (gmap string string);
    pdf_pages : list string }.

Record docx_document : Type := DocxDocument
  { docx_title : string; docx_author : string; docx_created : option string;
    docx_paragraphs : list string }.

Record mutagen_file : Type := MutagenFile
  { audio_length : pyval; audio_bitrate : pyval; audio_sample_rate : pyval;
    audio_tags : option (gmap string string) }.

(** [None] in these fields: the library is missing or raises on this file. *)
Record content : Type := Content
  { sha256 : string;                              (* [hashlib.sha256(...).hexdigest()] *)
    pil_open : option pil_image;                  (* [PIL.Image.open] *)
    tesseract : option string;                    (* [pytesseract.image_to_string] *)
    pypdf2 : option pdf_reader;                   (* [PyPDF2.PdfReader] with the page texts *)
    read_text : option string;                    (* [open(..., errors='ignore').read(2000)] *)
    docx : option docx_document;                  (* [docx.Document] *)
    mutagen : option (option mutagen_file) }.     (* [mutagen.File]; [Some None]: not audio *)

Record stat_result : Type := StatResult
  { st_size : Z;
    st_mtime : Z }.     (* local time, in microseconds *)

(** The entries of a world are regular files and directories; symbolic
    links are not part of it. *)
Inductive node : Type :=
| File (st : stat_result) (data : content)
| Dir (st : stat_result).

Definition node_stat (n : node) : stat_result :=
  match n with File st _ => st | Dir st => st end.

(** *** The ledger (the SQLite tables the pipeline uses) *)

Record operation : Type := Operation
  { op_id : Z;
    op_timestamp : Z;
    op_filename : string;
    op_original_path : string;
    op_destination_path : string;
    op_category : string;
    op_operation_type : string;
    op_file_size : Z;
    op_file_hash : option string;
    op_success : bool;
    op_error_message : option string;
    op_can_undo : bool }.

Record duplicate_hash : Type := DuplicateHash
  { dh_original_path : string;
    dh_file_size : Z;
    dh_first_seen : Z;
    dh_last_seen : Z;
    dh_duplicate_count : Z }.

Record statistic : Type := Statistic
  { files_processed : Z;
    total_size : Z;
    duplicates_found : Z;
    errors_count : Z }.

Record database : Type := Database
  { file_operations : list operation;        (* in insertion order *)
    file_operations_seq : Z;                 (* the AUTOINCREMENT counter *)
    duplicate_hashes : gmap string duplicate_hash;
    statistics : gmap (Z * string) statistic }.   (* by (day, category) *)

Definition empty_database : database := Database [] 0 ∅ ∅.

(** [FileOrganizer.stats] *)
Record counters : Type := Counters
  { processed : Z; duplicates : Z; errors : Z }.

Record world : Type := MkWorld
  { fs : gmap (list string) node;
    db : database;
    stats : counters }.

Definition set_fs (f : gmap (list string) node) (w : world) : world :=
  MkWorld f (db w) (stats w).
Definition set_db (d : database) (w : world) : world :=
  MkWorld (fs w) d (stats w).
Definition set_stats (c : counters) (w : world) : world :=
  MkWorld (fs w) (db w) c.

(** *** The environment of one call: the clock and what fails *)

Inductive os_call : Type :=
| Stat (p : Path)
| OpenRead (p : Path)
| Mkdir (p : Path)
| Move (src dst : Path).

Inductive db_call : Type :=
| LogOperation
| GetOperationHistory
| MarkOperationUndone
| AddDuplicateHash
| UpdateStatistics.

Record env : Type := Env
  { now : Z;                                   (* [datetime.now()], microseconds *)
    os_fault : os_call → option os_error;      (* the call fails with this error *)
    db_fault : db_call → option string;        (* the transaction fails *)
    confirm : bool }.                          (* the answer to a Yes/No dialog *)

Definition day : Z := 86400 * 1000000.

(** [(a - b).days] for two datetimes *)
Definition days_between (a b : Z) : Z := (a - b) / day.

(** [datetime.now().strftime("%Y-%m-%d")], as the number of the day *)
Definition today (E : env) : Z := now E / day.

(** *** The monad of the pipeline *)

Definition M (A : Type) : Type := world → res A * world.

Definition ret {A} (a : A) : M A := fun w => (Ok a, w).
Definition raise {A} (e : exn) : M A := fun w => (Raise e, w).
Definition bind {A B} (m : M A) (k : A → M B) : M B :=
  fun w =>
    match m w with
    | (Ok a, w') => k a w'
    | (Raise e, w') => (Raise e, w')
    end.
(** [try: m except Exception as e: h e] *)
Definition try_except {A} (m : M A) (h : exn → M A) : M A :=
  fun w =>
    match m w with
    | (Raise e, w') => h e w'
    | r => r
    end.
(** [try: x = m except Exception as e: h e], after which [k x] goes on
    (under handlers of its own) *)
Definition attempt {A B} (m : M A) (h : exn → M B) (k : A → M B) : M B :=
  fun w =>
    match m w with
    | (Ok a, w') => k a w'
    | (Raise e, w') => h e w'
    end.
Definition get_world : M world := fun w => (Ok w, w).
Definition modify (f : world → world) : M unit := fun w => (Ok tt, f w).
Definition when_ (b : bool) (m : M unit) : M unit := if b then m else ret tt.

End World.
Export World.

Declare Scope py_scope.
Delimit Scope py_scope with py.
Notation "'let*' x ':=' m 'in' k" := (bind m (fun x => k))
  (at level 10, x name, m at level 100, k at level 200) : py_scope.
Notation "m '>>' k" := (bind m (fun _ => k))
  (at level 100, k at level 200, right associativity) : py_scope.
Local Open Scope py_scope.

(** ** The operating system: [pathlib.Path] queries, [mkdir], [shutil.move] *)

Module Os.
Import PurePath.

(** [p.exists()] and [p.is_file()] *)
Definition exists_ (f : gmap (list string) node) (p : Path) : bool :=
  match f !! p with Some _ => true | None => false end.

Definition is_file (f : gmap (list string) node) (p : Path) : bool :=
  match f !! p with Some (File _ _) => true | _ => false end.

(** [p.stat()] *)
Definition stat (E : env) (p : Path) : M stat_result :=
  fun w =>
    match os_fault E (Stat p) with
    | Some err => (Raise (OSError err (to_str p)), w)
    | None =>
        match fs w !! p with
        | Some n => (Ok (node_stat n), w)
        | None => (Raise (OSError ENOENT (to_str p)), w)
        end
    end.

(** [open(p, "rb")] followed by reading the file to its end *)
Definition read_file (E : env) (p : Path) : M content :=
  fun w =>
    match os_fault E (OpenRead p) with
    | Some err => (Raise (OSError err (to_str p)), w)
    | None =>
        match fs w !! p with
        | Some (File _ data) => (Ok data, w)
        | Some (Dir _) => (Raise (OSError EISDIR (to_str p)), w)
        | None => (Raise (OSError ENOENT (to_str p)), w)
        end
    end.

(** The path itself and its ancestors, the root excluded, from the top. *)
Definition chain (p : Path) : list Path :=
  map (fun n => take n p) (seq 1 (length p)).

Definition new_dir (E : env) : node := Dir (StatResult 4096 (now E)).

(** Create the missing directories among [ps], which come from the top. *)
Fixpoint make_dirs (E : env) (ps : list Path) (f : gmap (list string) node)
  : res (gmap (list string) node) :=
  match ps with
  | [] => Ok f
  | q :: rest =>
      match f !! q with
      | None => make_dirs E rest (<[q := new_dir E]> f)
      | Some (Dir _) => make_dirs E rest f
      | Some (File _ _) =>
          Raise (OSError (match rest with [] => EEXIST | _ => ENOTDIR end) (to_str q))
      end
  end.

(** [p.mkdir(parents=True, exist_ok=True)] *)
Definition mkdir (E : env) (p : Path) : M unit :=
  fun w =>
    match os_fault E (Mkdir p) with
    | Some err => (Raise (OSError err (to_str p)), w)
    | None =>
        match make_dirs E (chain p) (fs w) with
        | Ok f' => (Ok tt, set_fs f' w)
        | Raise e => (Raise e, w)
        end
    end.

(** Moving a directory moves what is below it. *)
Definition under (root : Path) (p : Path) : bool :=
  bool_decide (root `prefix_of` p).

Definition rebase (src dst p : Path) : Path := dst ++ drop (length src) p.

Definition move_tree (src dst : Path) (f : gmap (list string) node)
  : gmap (list string) node :=
  list_to_map
    (map (fun kv => (rebase src dst (fst kv), snd kv))
       (List.filter (fun kv => under src (fst kv)) (map_to_list f)))
  ∪ filter (fun kv => ¬ Is_true (under src (fst kv))) f.

(** [shutil.move(str(src), str(dst))]: into [dst] when that is an existing
    directory, onto [dst] otherwise (an existing file there is replaced).
    The move is a rename: it takes place, or it fails and the file system is
    as it was. *)
Definition move (E : env) (src dst : Path) : M unit :=
  fun w =>
    match os_fault E (Move src dst) with
    | Some err => (Raise (OSError err (to_str src)), w)
    | None =>
        match fs w !! src with
        | None => (Raise (OSError ENOENT (to_str src)), w)
        | Some n =>
            let into_dir := match fs w !! dst with Some (Dir _) => true | _ => false end in
            let real_dst := if into_dir then dst ++ [name src] else dst in
            if into_dir && exists_ (fs w) real_dst then
              (Raise (ShutilError ("Destination path '" +:+ to_str real_dst
                                     +:+ "' already exists")), w)
            else
              match n with
              | File _ _ => (Ok tt, set_fs (<[real_dst := n]> (delete src (fs w))) w)
              | Dir _ =>
                  if under src real_dst && negb (bool_decide (src = real_dst)) then
                    (Raise (ShutilError ("Cannot move a directory '" +:+ to_str src
                                           +:+ "' into itself '" +:+ to_str real_dst
                                           +:+ "'.")), w)
                  else (Ok tt, set_fs (move_tree src real_dst (fs w)) w)
              end
        end
    end.

End Os.

(** ** app/core/database.py *)

Module Db.

(** [with self.get_connection() as conn: body]: the body runs on the
    tables and is committed; when the connection, a statement or the commit
    fails, the tables are rolled back and the error is raised again. *)
Definition get_connection {A} (E : env) (call : db_call)
    (body : database → A * database) : M A :=
  fun w =>
    match db_fault E call with
    | Some msg => (Raise (SqliteError msg), w)
    | None => let r := body (db w) in (Ok (fst r), set_db (snd r) w)
    end.

Definition insert_operation (d : database) (o : operation) : database :=
  Database (file_operations d ++ [o]) (op_id o)
           (duplicate_hashes d) (statistics d).

(** [Database.log_operation]; a new row gets the next id and the default
    [can_undo = 1]. *)
Definition log_operation (E : env) (filename original_path destination_path
    category operation_type : string) (file_size : Z) (file_hash : option string)
    (success : bool) (error_message : option string) : M Z :=
  try_except
    (get_connection E LogOperation (fun d =>
       let operation_id := file_operations_seq d + 1 in
       (operation_id,
        insert_operation d
          (Operation operation_id (now E) filename original_path destination_path
             category operation_type file_size file_hash success error_message
             true))))
    (fun _ => ret (-1)).

(** [ORDER BY timestamp DESC]: the later row first, and of two rows of one
    instant the one inserted last. *)
Definition newer (a b : operation) : Prop :=
  op_timestamp b < op_timestamp a
  ∨ (op_timestamp b = op_timestamp a ∧ op_id b ≤ op_id a).

Global Instance newer_dec : RelDecision newer.
Proof. intros a b. unfold newer. apply _. Defined.

(** [Database.get_operation_history(limit)] *)
Definition get_operation_history (E : env) (limit : nat) : M (list operation) :=
  try_except
    (get_connection E GetOperationHistory (fun d =>
       (take limit (merge_sort newer (file_operations d)), d)))
    (fun _ => ret []).

Definition set_can_undo (operation_id : Z) (o : operation) : operation :=
  if op_id o =? operation_id then
    Operation (op_id o) (op_timestamp o) (op_filename o) (op_original_path o)
      (op_destination_path o) (op_category o) (op_operation_type o)
      (op_file_size o) (op_file_hash o) (op_success o) (op_error_message o) false
  else o.

(** [Database.mark_operation_undone] *)
Definition mark_operation_undone (E : env) (operation_id : Z) : M unit :=
  try_except
    (get_connection E MarkOperationUndone (fun d =>
       (tt, Database (map (set_can_undo operation_id) (file_operations d))
              (file_operations_seq d) (duplicate_hashes d) (statistics d))))
    (fun _ => ret tt).

(** [Database.add_duplicate_hash]: [True] when the hash was there. *)
Definition add_duplicate_hash (E : env) (file_hash file_path : string)
    (file_size : Z) : M bool :=
  try_except
    (get_connection E AddDuplicateHash (fun d =>
       match duplicate_hashes d !! file_hash with
       | Some existing =>
           (true,
            Database (file_operations d) (file_operations_seq d)
              (<[file_hash :=
                   DuplicateHash (dh_original_path existing) (dh_file_size existing)
                     (dh_first_seen existing) (now E)
                     (dh_duplicate_count existing + 1)]> (duplicate_hashes d))
              (statistics d))
       | None =>
           (false,
            Database (file_operations d) (file_operations_seq d)
              (<[file_hash := DuplicateHash file_path file_size (now E) (now E) 0]>
                 (duplicate_hashes d))
              (statistics d))
       end))
    (fun _ => ret false).

(** [Database.update_statistics]: insert the row of the day and of the
    category, or add to it. *)
Definition update_statistics (E : env) (category : string)
    (files_count total_size_ duplicates_ errors_ : Z) : M unit :=
  try_except
    (get_connection E UpdateStatistics (fun d =>
       let key := (today E, category) in
       let row :=
         match statistics d !! key with
         | Some s =>
             Statistic (files_processed s + files_count) (total_size s + total_size_)
               (duplicates_found s + duplicates_) (errors_count s + errors_)
         | None => Statistic files_count total_size_ duplicates_ errors_
         end in
       (tt, Database (file_operations d) (file_operations_seq d)
              (duplicate_hashes d) (<[key := row]> (statistics d)))))
    (fun _ => ret tt).

End Db.

(** ** app/core/classifier.py *)

Module FileClassifier.
Import PurePath.

Definition EXTENSION_RULES : list (string * list string) :=
  [ ("Images", [".jpg"; ".jpeg"; ".png"; ".gif"; ".bmp"; ".svg"; ".webp"; ".ico"]);
    ("Documents", [".pdf"; ".docx"; ".doc"; ".txt"; ".odt"; ".rtf"]);
    ("Spreadsheets", [".xlsx"; ".xls"; ".csv"; ".ods"]);
    ("Presentations", [".pptx"; ".ppt"; ".odp"]);
    ("Videos", [".mp4"; ".avi"; ".mkv"; ".mov"; ".wmv"; ".flv"; ".webm"]);
    ("Audio", [".mp3"; ".wav"; ".flac"; ".aac"; ".ogg"; ".m4a"; ".wma"]);
    ("Archives", [".zip"; ".rar"; ".7z"; ".tar"; ".gz"; ".bz2"]);
    ("Code", [".py"; ".java"; ".cpp"; ".c"; ".js"; ".ts"; ".html"; ".css"; ".php"]);
    ("Executables", [".exe"; ".msi"; ".dmg"; ".app"; ".deb"; ".rpm"]) ].

Definition KEYWORD_RULES : list (string * list string) :=
  [ ("Finance", ["invoice"; "bill"; "receipt"; "payment"; "transaction"]);
    ("Education", ["assignment"; "homework"; "project"; "syllabus"; "lecture"]);
    ("Work", ["report"; "proposal"; "meeting"; "presentation"]);
    ("Personal", ["vacation"; "family"; "personal"; "photo"]) ].

(** The first entry of a table whose list satisfies [hit]. *)
Fixpoint first_category (hit : list string → bool)
    (table : list (string * list string)) : option string :=
  match table with
  | [] => None
  | (category, items) :: rest =>
      if hit items then Some category else first_category hit rest
  end.

Definition classify_by_extension (file : Path) : string :=
  let suffix := PyStr.lower (suffix file) in
  default "Other" (first_category (PyStr.mem suffix) EXTENSION_RULES).

Definition classify_by_name (file : Path) : option string :=
  let name_lower := PyStr.lower (name file) in
  first_category (existsb (fun keyword => PyStr.contains keyword name_lower))
    KEYWORD_RULES.

Definition classify (file : Path) (use_ai : bool) : string :=
  match (if use_ai then classify_by_name file else None) with
  | Some category => if PyStr.truthy category then category
                     else classify_by_extension file
  | None => classify_by_extension file
  end.

End FileClassifier.

(** ** app/core/content_analyzer.py *)

Module ContentAnalyzer.
Import PurePath.

Record t : Type := Make { ocr_enabled : bool; metadata_enabled : bool }.

(** The dictionary [analyze_file] returns. *)
Record analysis : Type := Analysis
  { content_text : string;
    metadata : gmap string pyval;
    keywords : list string;
    suggested_category : option string;
    confidence : dyadic }.

Definition empty_analysis : analysis := Analysis "" ∅ [] None (of_int 0).

Definition _get_file_type (file_path : Path) : string :=
  let ext := PyStr.lower (suffix file_path) in
  if PyStr.mem ext [".jpg"; ".jpeg"; ".png"; ".gif"; ".bmp"; ".tiff"] then "image"
  else if String.eqb ext ".pdf" then "pdf"
  else if PyStr.mem ext [".docx"; ".doc"; ".txt"; ".odt"] then "document"
  else if PyStr.mem ext [".mp3"; ".wav"; ".flac"; ".m4a"] then "audio"
  else if PyStr.mem ext [".mp4"; ".avi"; ".mkv"; ".mov"] then "video"
  else "unknown".

(** [_ocr_image]: the stripped text, or the empty string when OCR fails. *)
Definition _ocr_image (data : option content) : string :=
  match data with
  | Some c =>
      match pil_open c, tesseract c with
      | Some _, Some text => PyStr.strip text
      | _, _ => ""
      end
  | None => ""
  end.

(** Copy [exif[tag]] to [metadata[key]] when the tag is there. *)
Definition copy_tag (exif : gmap string pyval) (tag key : string)
    (md : gmap string pyval) : gmap string pyval :=
  match exif !! tag with
  | Some v => <[key := v]> md
  | None => md
  end.

(** [_analyze_image]: the [metadata] and [content_text] it yields.  An
    exception leaves what was filled in before it. *)
Definition _analyze_image (self : t) (data : option content)
  : gmap string pyval * string :=
  match data with
  | None => (∅, "")
  | Some c =>
      match pil_open c with
      | None => (∅, "")
      | Some img =>
          let basic : gmap string pyval :=
            <["mode" := PyStr (mode img)]>
              (<["format" := PyStr (format img)]>
                 (<["height" := PyNum (of_int (height img))]>
                    (<["width" := PyNum (of_int (width img))]> ∅))) in
          match getexif img with
          | ExifRaises => (basic, "")
          | ExifNone =>
              (basic, if ocr_enabled self then _ocr_image data else "")
          | ExifTags exif =>
              let md := copy_tag exif "DateTime" "date_taken" basic in
              let md := copy_tag exif "Make" "camera_make" md in
              let md := copy_tag exif "Model" "camera_model" md in
              let md := match exif !! "GPSInfo" with
                        | Some _ => <["has_gps" := PyBool true]> md
                        | None => md
                        end in
              (md, if ocr_enabled self then _ocr_image data else "")
          end
      end
  end.

Definition meta_get (m : gmap string string) (k : string) : pyval :=
  PyStr (default "" (m !! k)).

Definition _analyze_pdf (data : option content) : gmap string pyval * string :=
  match data with
  | None => (∅, "")
  | Some c =>
      match pypdf2 c with
      | None => (∅, "")
      | Some pdf =>
          let md : gmap string pyval :=
            match pdf_metadata pdf with
            | Some m =>
                if bool_decide (m = ∅) then ∅
                else
                  <["pages" := PyNum (of_int (Z.of_nat (length (pdf_pages pdf))))]>
                    (<["creator" := meta_get m "/Creator"]>
                       (<["subject" := meta_get m "/Subject"]>
                          (<["author" := meta_get m "/Author"]>
                             (<["title" := meta_get m "/Title"]> ∅))))
            | None => ∅
            end in
          (md, PyStr.take 2000 (PyStr.join " " (take 3 (pdf_pages pdf))))
      end
  end.

Definition _analyze_document (file_path : Path) (data : option content)
  : gmap string pyval * string :=
  let ext := PyStr.lower (suffix file_path) in
  match data with
  | None => (∅, "")
  | Some c =>
      if String.eqb ext ".txt" then
        match read_text c with
        | Some text => (∅, PyStr.take 2000 text)
        | None => (∅, "")
        end
      else if PyStr.mem ext [".docx"; ".doc"] then
        match docx c with
        | Some doc =>
            (<["created" := PyStr (default "" (docx_created doc))]>
               (<["author" := PyStr (docx_author doc)]>
                  (<["title" := PyStr (docx_title doc)]> ∅)),
             PyStr.take 2000 (PyStr.join " " (take 20 (docx_paragraphs doc))))
        | None => (∅, "")
        end
      else (∅, "")
  end.

Definition _analyze_audio (data : option content) : gmap string pyval :=
  match data with
  | Some c =>
      match mutagen c with
      | Some (Some audio) =>
          let md : gmap string pyval :=
            <["sample_rate" := audio_sample_rate audio]>
              (<["bitrate" := audio_bitrate audio]>
                 (<["duration" := audio_length audio]> ∅)) in
          match audio_tags audio with
          | Some tags =>
              if bool_decide (tags = ∅) then md
              else
                <["genre" := meta_get tags "TCON"]>
                  (<["album" := meta_get tags "TALB"]>
                     (<["artist" := meta_get tags "TPE1"]>
                        (<["title" := meta_get tags "TIT2"]> md)))
          | None => md
          end
      | _ => ∅
      end
  | None => ∅
  end.

Definition _analyze_video (st : option stat_result) : gmap string pyval :=
  match st with
  | Some s => <["size_mb" := PyNum (size_mb (st_size s))]> ∅
  | None => ∅
  end.

Definition financial_terms : list string :=
  ["invoice"; "receipt"; "payment"; "bill"; "tax"; "expense"; "salary";
   "payroll"; "budget"].
Definition work_terms : list string :=
  ["report"; "presentation"; "meeting"; "project"; "proposal"; "contract";
   "agreement"].
Definition personal_terms : list string :=
  ["vacation"; "family"; "personal"; "birthday"; "wedding"; "trip"].

(** [_extract_keywords]: the terms found in the text.  The source returns
    them through a [set], in no particular order; the terms of the three
    lists are distinct. *)
Definition _extract_keywords (text : string) : list string :=
  if negb (PyStr.truthy text) then []
  else
    let text_lower := PyStr.lower text in
    List.filter (fun term => PyStr.contains term text_lower)
      (financial_terms ++ work_terms ++ personal_terms).

Definition any_in (wanted have : list string) : bool :=
  existsb (fun kw => PyStr.mem kw have) wanted.

Definition _suggest_category (a : analysis) : option string :=
  if any_in ["invoice"; "receipt"; "payment"; "bill"; "tax"] (keywords a) then
    Some "Finance"
  else if any_in ["report"; "presentation"; "meeting"; "project"] (keywords a) then
    Some "Work"
  else if any_in ["vacation"; "family"; "personal"] (keywords a) then
    Some "Personal"
  else if truthy (dict_get (metadata a) "camera_make") then Some "Photos"
  else if PyStr.truthy (content_text a)
          && (100 <? String.length (content_text a))%nat then
    Some "Scanned Documents"
  else None.

Definition file_data (n : option node) : option content :=
  match n with Some (File _ data) => Some data | _ => None end.

(** The body of [analyze_file], on the file system it reads.  Every step
    that can fail is guarded in the source, so a result always comes back. *)
Definition analyze (self : t) (file_path : Path) (f : gmap (list string) node)
  : analysis :=
  let data := file_data (f !! file_path) in
  let file_type := _get_file_type file_path in
  let partial : gmap string pyval * string :=
    if String.eqb file_type "image" then _analyze_image self data
    else if String.eqb file_type "pdf" then _analyze_pdf data
    else if String.eqb file_type "document" then _analyze_document file_path data
    else if String.eqb file_type "audio" then (_analyze_audio data, "")
    else if String.eqb file_type "video" then
      (_analyze_video (node_stat <$> (f !! file_path)), "")
    else (∅, "") in
  let result := Analysis (snd partial) (fst partial) [] None (of_int 0) in
  if PyStr.truthy (content_text result) then
    let kws := _extract_keywords (content_text result) in
    let with_kws := Analysis (content_text result) (metadata result) kws None (of_int 0) in
    Analysis (content_text result) (metadata result) kws
      (_suggest_category with_kws) (of_int 0)
  else result.

(** [analyze_file] *)
Definition analyze_file (self : t) (file_path : Path) : M analysis :=
  let* w := get_world in
  ret (analyze self file_path (fs w)).

End ContentAnalyzer.

(** ** app/core/rules_engine.py *)

Module RulesEngine.
Import PurePath.

(** The keys a rule's [conditions] dictionary may hold; [None]: the key
    is absent.  Thresholds are JSON numbers, the GPS requirement any JSON
    scalar. *)
Record conditions : Type := Conditions
  { min_size_mb : option dyadic;
    max_size_mb : option dyadic;
    older_than_days : option dyadic;
    newer_than_days : option dyadic;
    extensions : option (list string);
    contains_text : option string;
    has_gps : option pyval }.

Definition no_conditions : conditions :=
  Conditions None None None None None None None.

Record Rule : Type := MkRule
  { id : Z;
    name : string;
    pattern : string;
    target_folder : string;
    rule_conditions : conditions;
    priority : Z;
    enabled : bool }.

Record t : Type := Make { rules : list Rule }.

(** [any(c in self.pattern for c in ['[', ']', '(', ')', '^', '$', '+'])] *)
Definition is_regex_pattern (pattern : string) : bool :=
  existsb (fun c => PyStr.has_char c pattern)
    ["["; "]"; "("; ")"; "^"; "$"; "+"]%char.

Section WithRe.
Context {re : PyRe}.

(** [Rule._match_pattern] *)
Definition _match_pattern (self : Rule) (file_path : Path) : M bool :=
  let filename := PurePath.name file_path in
  if is_regex_pattern (pattern self) then
    match re_match_ignorecase (pattern self) filename with
    | Some b => ret b
    | None => raise (ReError (pattern self))
    end
  else
    match PurePath.match_ file_path (pattern self) with
    | Some b => ret b
    | None => raise (ValueError "empty pattern")
    end.

(** One [if key in self.conditions: ... return False] block: [check]
    tells whether the file passes. *)
Definition condition {A} (value : option A) (check : A → M bool)
    (rest : M bool) : M bool :=
  match value with
  | None => rest
  | Some v => let* ok := check v in if ok then rest else ret false
  end.

(** [metadata = metadata or {}] followed by the two lookups *)
Definition text_of (md : option ContentAnalyzer.analysis) : string :=
  match md with
  | Some a => ContentAnalyzer.content_text a
  | None => ""
  end.

Definition gps_of (md : option ContentAnalyzer.analysis) : pyval :=
  match md with
  | Some a => dict_get (ContentAnalyzer.metadata a) "has_gps"
  | None => PyNone
  end.

(** [Rule._check_conditions] *)
Definition _check_conditions (self : Rule) (E : env) (file_path : Path)
    (md : option ContentAnalyzer.analysis) : M bool :=
  let c := rule_conditions self in
  condition (min_size_mb c) (fun limit =>
      let* st := Os.stat E file_path in
      ret (negb (dy_lt (size_mb (st_size st)) limit))) (
  condition (max_size_mb c) (fun limit =>
      let* st := Os.stat E file_path in
      ret (negb (dy_lt limit (size_mb (st_size st))))) (
  condition (older_than_days c) (fun limit =>
      let* st := Os.stat E file_path in
      ret (negb (dy_lt (of_int (days_between (now E) (st_mtime st))) limit))) (
  condition (newer_than_days c) (fun limit =>
      let* st := Os.stat E file_path in
      ret (negb (dy_lt limit (of_int (days_between (now E) (st_mtime st)))))) (
  condition (extensions c) (fun exts =>
      ret (PyStr.mem (PyStr.lower (suffix file_path)) exts)) (
  condition (contains_text c) (fun needle =>
      ret (PyStr.contains (PyStr.lower needle) (PyStr.lower (text_of md)))) (
  condition (has_gps c) (fun wanted =>
      ret (py_eq (gps_of md) wanted)) (
  ret true))))))).

(** [Rule.matches] *)
Definition matches (self : Rule) (E : env) (file_path : Path)
    (md : option ContentAnalyzer.analysis) : M bool :=
  if negb (enabled self) then ret false
  else
    try_except
      (let* hit := _match_pattern self file_path in
       if negb hit then ret false
       else
         let* ok := _check_conditions self E file_path md in
         if negb ok then ret false else ret true)
      (fun _ => ret false).

(** The loop of [RulesEngine.apply_rules] *)
Fixpoint first_match (rs : list Rule) (E : env) (file_path : Path)
    (md : option ContentAnalyzer.analysis) : M (option string) :=
  match rs with
  | [] => ret None
  | rule :: rest =>
      let* hit := matches rule E file_path md in
      if hit then ret (Some (target_folder rule))
      else first_match rest E file_path md
  end.

Definition apply_rules (self : t) (E : env) (file_path : Path)
    (md : option ContentAnalyzer.analysis) : M (option string) :=
  first_match (rules self) E file_path md.

End WithRe.

End RulesEngine.

(** ** app/core/duplicate_detector.py *)

Module DuplicateDetector.

(** [compute_hash]: a failure to open or to read the file is raised again. *)
Definition compute_hash (E : env) (file_path : list string) : M string :=
  let* data := Os.read_file E file_path in
  ret (sha256 data).

End DuplicateDetector.

(** ** app/core/config.py and app/core/organizer.py *)

Module FileOrganizer.
Import PurePath.

Record AppConfig : Type := MkConfig
  { watch_folder : Path;
    organized_folder : Path;
    duplicate_folder : Path;
    auto_rename : bool;
    enable_duplicates : bool;
    cloud_backup : bool;
    ai_classification : bool;
    max_file_size_mb : Z;
    scan_interval_sec : Z }.

Record t : Type := Make
  { config : AppConfig;
    content_analyzer : option ContentAnalyzer.t;
    rules_engine : option RulesEngine.t }.

(** [(success, message, category, file_size_bytes)] *)
Definition result : Type := bool * string * string * Z.

(** [folder / name] for a file name, which holds no separator *)
Definition child (folder : Path) (nm : string) : Path := folder ++ [nm].

(** [parent / f"{stem}_{counter}{suffix}"] *)
Definition numbered (path : Path) (counter : nat) : Path :=
  child (parent path) (stem path +:+ "_" +:+ pretty counter +:+ suffix path).

(** The [while True] loop of [_get_unique_path], started at [counter].
    [fuel] bounds the number of occupied names it steps over; the number of
    entries of the file system is enough (see [_get_unique_path_free]). *)
Fixpoint probe (f : gmap (list string) node) (path : Path) (fuel counter : nat)
  : Path :=
  let new_path := numbered path counter in
  match fuel with
  | O => new_path
  | S fuel' =>
      if negb (Os.exists_ f new_path) then new_path
      else probe f path fuel' (S counter)
  end.

Definition _get_unique_path (f : gmap (list string) node) (path : Path) : Path :=
  if negb (Os.exists_ f path) then path
  else probe f path (size f) 1.

Definition bump_processed (c : counters) : counters :=
  Counters (processed c + 1) (duplicates c) (errors c).
Definition bump_duplicates (c : counters) : counters :=
  Counters (processed c) (duplicates c + 1) (errors c).
Definition bump_errors (c : counters) : counters :=
  Counters (processed c) (duplicates c) (errors c + 1).

(** [if x:] on an optional string *)
Definition given (x : option string) : bool :=
  match x with Some s => PyStr.truthy s | None => false end.

Section WithRe.
Context {re : PyRe}.

(** Tier 1: the custom rules, with the metadata of the content analyzer
    when there is one.  Returns the category and the metadata. *)
Definition tier1 (self : t) (E : env) (file_path : Path)
  : M (option string * option ContentAnalyzer.analysis) :=
  match rules_engine self with
  | Some engine =>
      let* metadata :=
        match content_analyzer self with
        | Some analyzer =>
            try_except
              (let* a := ContentAnalyzer.analyze_file analyzer file_path in
               ret (Some a))
              (fun _ => ret None)
        | None => ret None
        end in
      let* custom_target := RulesEngine.apply_rules engine E file_path metadata in
      if given custom_target then ret (custom_target, metadata)
      else ret (None, metadata)
  | None => ret (None, None)
  end.

(** Tier 2: the suggestion of the content analyzer, else the keywords
    of the file name. *)
Definition tier2 (self : t) (file_path : Path) (category : option string)
    (metadata : option ContentAnalyzer.analysis) : M (option string) :=
  match content_analyzer self with
  | Some analyzer =>
      if negb (given category) && ai_classification (config self) then
        try_except
          (let* metadata :=
             match metadata with
             | None =>
                 let* a := ContentAnalyzer.analyze_file analyzer file_path in
                 ret (Some a)
             | Some _ => ret metadata
             end in
           match metadata with
           | Some a =>
               if given (ContentAnalyzer.suggested_category a) then
                 ret (ContentAnalyzer.suggested_category a)
               else ret (Some (FileClassifier.classify file_path true))
           | None => ret (Some (FileClassifier.classify file_path true))
           end)
          (fun _ => ret category)
      else ret category
  | None => ret category
  end.

(** Tier 3: the extension table (and, with AI classification, the
    keywords of the file name). *)
Definition tier3 (self : t) (file_path : Path) (category : option string)
  : string :=
  match category with
  | Some c =>
      if PyStr.truthy c then c
      else FileClassifier.classify file_path (ai_classification (config self))
  | None => FileClassifier.classify file_path (ai_classification (config self))
  end.

(** The three tiers of [organize_file], in their order. *)
Definition classification (self : t) (E : env) (file_path : Path) : M string :=
  let* t1 := tier1 self E file_path in
  let* t2 := tier2 self file_path (fst t1) (snd t1) in
  ret (tier3 self file_path t2).

(** The [except Exception as e:] block of [organize_file], with the
    values [file_size] and [file_hash] have when the exception arrives. *)
Definition on_exception (E : env) (file_path : Path) (file_size : Z)
    (file_hash : option string) (e : exn) : M result :=
  modify (fun w => set_stats (bump_errors (stats w)) w) >>
  let* _ := Db.log_operation E (name file_path) (to_str file_path) "" ""
              "organize" file_size file_hash false (Some (str e)) in
  Db.update_statistics E "Errors" 0 0 0 1 >>
  ret (false, "Error: " +:+ str e, "", file_size).

(** The duplicate branch: the file goes to the duplicate folder. *)
Definition file_duplicate (self : t) (E : env) (file_path : Path)
    (file_size : Z) (file_hash : string) : M result :=
  let dest_folder := duplicate_folder (config self) in
  Os.mkdir E dest_folder >>
  let* w := get_world in
  let dest_path := _get_unique_path (fs w) (child dest_folder (name file_path)) in
  Os.move E file_path dest_path >>
  modify (fun w => set_stats (bump_processed (bump_duplicates (stats w))) w) >>
  let* _ := Db.log_operation E (name file_path) (to_str file_path)
              (to_str dest_path) "Duplicates" "duplicate" file_size
              (Some file_hash) true None in
  Db.update_statistics E "Duplicates" 1 file_size 1 0 >>
  ret (true, "Duplicate detected", "Duplicates", file_size).

(** Classification, move, log and statistics of a file that is no
    duplicate. *)
Definition file_normally (self : t) (E : env) (file_path : Path)
    (file_size : Z) (file_hash : option string) : M result :=
  let* category := classification self E file_path in
  let dest_folder := joinpath (organized_folder (config self)) category in
  Os.mkdir E dest_folder >>
  let* w := get_world in
  let dest_path := _get_unique_path (fs w) (child dest_folder (name file_path)) in
  Os.move E file_path dest_path >>
  modify (fun w => set_stats (bump_processed (stats w)) w) >>
  let* _ := Db.log_operation E (name file_path) (to_str file_path)
              (to_str dest_path) category "organize" file_size file_hash
              true None in
  Db.update_statistics E category 1 file_size 0 0 >>
  ret (true, "Moved to " +:+ category, category, file_size).

(** [size_mb > self.config.max_file_size_mb] *)
Definition too_large (self : t) (file_size : Z) : bool :=
  dy_lt (of_int (max_file_size_mb (config self))) (size_mb file_size).

(** The size check failed: log and return. *)
Definition reject_too_large (E : env) (file_path : Path) (file_size : Z)
  : M result :=
  try_except
    (let msg := "File too large ("
                  +:+ PyNum.format_1f (PyNum.div_mb file_size) +:+ "MB)" in
     let* _ := Db.log_operation E (name file_path) (to_str file_path) "" ""
                 "organize" file_size None false (Some msg) in
     ret (false, msg, "", file_size))
    (on_exception E file_path file_size None).

(** [if self.config.enable_duplicates:] and what follows it. *)
Definition check_duplicates (self : t) (E : env) (file_path : Path)
    (file_size : Z) : M result :=
  attempt (DuplicateDetector.compute_hash E file_path)
    (on_exception E file_path file_size None) (fun file_hash =>
  try_except
    (let* is_dup := Db.add_duplicate_hash E file_hash (to_str file_path)
                      file_size in
     if is_dup then file_duplicate self E file_path file_size file_hash
     else file_normally self E file_path file_size (Some file_hash))
    (on_exception E file_path file_size (Some file_hash))).

(** The pipeline from the size check on. *)
Definition organize_sized (self : t) (E : env) (file_path : Path)
    (file_size : Z) : M result :=
  if too_large self file_size then reject_too_large E file_path file_size
  else if enable_duplicates (config self) then
    check_duplicates self E file_path file_size
  else
    try_except
      (file_normally self E file_path file_size None)
      (on_exception E file_path file_size None).

(** [FileOrganizer.organize_file].  The body of the [try] is cut where
    [file_size] and [file_hash] are assigned, and each piece runs under
    the handler with the values the two variables have there. *)
Definition organize_file (self : t) (E : env) (file_path : Path) : M result :=
  let original_path := to_str file_path in
  let* w := get_world in
  if negb (Os.exists_ (fs w) file_path) || negb (Os.is_file (fs w) file_path) then
    try_except
      (let* _ := Db.log_operation E (name file_path) original_path "" ""
                   "organize" 0 None false (Some "File not found") in
       ret (false, "File not found", "", 0))
      (on_exception E file_path 0 None)
  else
    attempt (Os.stat E file_path) (on_exception E file_path 0 None) (fun st =>
    organize_sized self E file_path (st_size st)).

End WithRe.

End FileOrganizer.

(** ** app/ui/history_viewer.py: undoing an operation *)

Module HistoryViewer.
Import PurePath.

(** The message box the call ends with. *)
Inductive outcome : Type :=
| OperationNotFound        (* "Operation not found" *)
| Declined                 (* the user answered No *)
| FileNotFound             (* "Cannot undo: File not found at: ..." *)
| Restored                 (* "File restored: ..." *)
| Failed (msg : string).   (* "Failed to undo: ..." *)

(** [next((op for op in operations if op['id'] == operation_id), None)] *)
Definition find_operation (operations : list operation) (operation_id : Z)
  : option operation :=
  List.find (fun op => op_id op =? operation_id) operations.

(** [HistoryViewer.undo_operation] *)
Definition undo_operation (E : env) (operation_id : Z) : M outcome :=
  try_except
    (let* operations := Db.get_operation_history E 1000 in
     match find_operation operations operation_id with
     | None => ret OperationNotFound
     | Some operation =>
         if negb (confirm E) then ret Declined
         else
           let source := of_str (op_destination_path operation) in
           let dest := of_str (op_original_path operation) in
           let* w := get_world in
           if negb (Os.exists_ (fs w) source) then ret FileNotFound
           else
             Os.mkdir E (parent dest) >>
             Os.move E source dest >>
             Db.mark_operation_undone E operation_id >>
             let* _ := Db.log_operation E (op_filename operation) (to_str source)
                         (to_str dest) "Undo" "undo" (op_file_size operation)
                         None true None in
             ret Restored
     end)
    (fun e => ret (Failed (str e))).

End HistoryViewer.

(** ** app/core/database.py: the other queries of the ledger *)

Module DbQueries.

(** [with self.get_connection() as conn: body] in the methods below.
    [fault] is the error, if any, with which the connection, a statement or
    the commit fails: the tables are then rolled back and the error is raised
    again. *)
Definition transaction {A} (fault : option string)
    (body : database → A * database) : M A :=
  fun w =>
    match fault with
    | Some msg => (Raise (SqliteError msg), w)
    | None => let r := body (db w) in (Ok (fst r), set_db (snd r) w)
    end.

(** [WHERE can_undo = 1 AND success = 1] *)
Definition undoable (o : operation) : bool := op_can_undo o && op_success o.

(** [Database.get_undoable_operations(limit)], for a [limit] that is not
    negative. *)
Definition get_undoable_operations (fault : option string) (limit : nat)
  : M (list operation) :=
  try_except
    (transaction fault (fun d =>
       (take limit
          (merge_sort Db.newer
             (List.filter undoable (file_operations d))), d)))
    (fun _ => ret []).

(** [Database.is_duplicate_hash]: [(True, original_path)] for a hash of the
    index, [(False, None)] otherwise and when the query fails. *)
Definition is_duplicate_hash (fault : option string) (file_hash : string)
  : M (bool * option string) :=
  try_except
    (transaction fault (fun d =>
       (match duplicate_hashes d !! file_hash with
        | Some row => (true, Some (dh_original_path row))
        | None => (false, None)
        end, d)))
    (fun _ => ret (false, None)).

(** [SUM(expr)] over the rows of the index: [NULL] when there is no row. *)
Definition sum_over (expr : duplicate_hash → Z) (index : gmap string duplicate_hash)
  : option Z :=
  if bool_decide (index = ∅) then None
  else Some (map_fold (fun _ row acc => expr row + acc) 0 index).

(** The row [get_duplicate_statistics] returns. *)
Record duplicate_statistics : Type := DuplicateStatistics
  { total_unique : Z;
    total_duplicates : option Z;
    wasted_space : option Z }.

(** [Database.get_duplicate_statistics]; [None] stands for the empty
    dictionary returned when the query fails. *)
Definition get_duplicate_statistics (fault : option string)
  : M (option duplicate_statistics) :=
  try_except
    (transaction fault (fun d =>
       (Some (DuplicateStatistics
                (Z.of_nat (size (duplicate_hashes d)))
                (sum_over dh_duplicate_count (duplicate_hashes d))
                (sum_over (fun row => dh_file_size row * dh_duplicate_count row)
                   (duplicate_hashes d))), d)))
    (fun _ => ret None).

(** [Database.clear_duplicate_cache] *)
Definition clear_duplicate_cache (fault : option string) : M unit :=
  try_except
    (transaction fault (fun d =>
       (tt, Database (file_operations d) (file_operations_seq d) ∅ (statistics d))))
    (fun _ => ret tt).

End DbQueries.

(** ** app/core/rules_engine.py: loading, saving and editing the rules *)

Module RuleSet.
Import RulesEngine.

(** One object of the rules file, as [json.load] returns it: a dictionary
    in which a key may be missing ([None]).  The values have the types that
    [to_dict] writes. *)
Record rule_dict : Type := RuleDict
  { d_id : option Z;
    d_name : option string;
    d_pattern : option string;
    d_target_folder : option string;
    d_conditions : option conditions;
    d_priority : option Z;
    d_enabled : option bool }.

(** The rules file: missing, not readable as a JSON array of such objects,
    or an array of them. *)
Inductive rules_file : Type :=
| NoFile
| Unreadable
| Json (data : list rule_dict).

(** The engine: its list of rules and the file it loads and saves. *)
Record t : Type := Make { rules : list Rule; file : rules_file }.

(** [Rule.to_dict] *)
Definition to_dict (r : Rule) : rule_dict :=
  RuleDict (Some (id r)) (Some (name r)) (Some (pattern r))
    (Some (target_folder r)) (Some (rule_conditions r)) (Some (priority r))
    (Some (enabled r)).

(** [Rule.from_dict]: [None] stands for the [KeyError] of a missing key. *)
Definition from_dict (data : rule_dict) : option Rule :=
  match d_id data, d_name data, d_pattern data, d_target_folder data with
  | Some i, Some n, Some pat, Some target =>
      Some (MkRule i n pat target
              (default no_conditions (d_conditions data))
              (default 0 (d_priority data))
              (default true (d_enabled data)))
  | _, _, _, _ => None
  end.

(** [[Rule.from_dict(r) for r in data]] *)
Fixpoint from_dicts (data : list rule_dict) : option (list Rule) :=
  match data with
  | [] => Some []
  | d :: rest =>
      match from_dict d, from_dicts rest with
      | Some r, Some rs => Some (r :: rs)
      | _, _ => None
      end
  end.

(** [rules.sort(key=lambda r: r.priority, reverse=True)]: the sort of
    Python is stable, also in reverse, so a rule goes before the rules of
    the same priority that came after it. *)
Fixpoint insert_by_priority (r : Rule) (sorted : list Rule) : list Rule :=
  match sorted with
  | [] => [r]
  | x :: rest =>
      if priority r <? priority x then x :: insert_by_priority r rest
      else r :: x :: rest
  end.

Definition sort_by_priority (rs : list Rule) : list Rule :=
  foldr insert_by_priority [] rs.

(** [save_rules].  [fault] is what a failing write leaves of the file; the
    failure is logged and not raised. *)
Definition save_rules (fault : option rules_file) (self : t) : t :=
  match fault with
  | Some left_ => Make (rules self) left_
  | None => Make (rules self) (Json (to_dict <$> rules self))
  end.

Definition default_rules : list Rule :=
  [ MkRule 1 "Screenshots" "*screenshot*" "Screenshots" no_conditions 10 true;
    MkRule 2 "Downloads" "*download*" "Downloads" no_conditions 9 true;
    MkRule 3 "Invoices" "*invoice*" "Finance/Invoices"
      (Conditions None None None None (Some [".pdf"]) None None) 8 true;
    MkRule 4 "Large Videos" "*.mp4" "Videos/Large"
      (Conditions (Some (of_int 100)) None None None None None None) 7 true;
    MkRule 5 "Old Documents" "*.pdf" "Archive/Old"
      (Conditions None None (Some (of_int 365)) None None None None) 6 true;
    MkRule 6 "Photos with GPS" "*.jpg" "Photos/Locations"
      (Conditions None None None None None None (Some (PyBool true))) 5 true ].

(** [_create_default_rules] *)
Definition _create_default_rules (fault : option rules_file) (self : t) : t :=
  save_rules fault (Make default_rules (file self)).

(** [load_rules]: any failure while reading leaves the engine without
    rules. *)
Definition load_rules (fault : option rules_file) (self : t) : t :=
  match file self with
  | NoFile => _create_default_rules fault self
  | Unreadable => Make [] (file self)
  | Json data =>
      match from_dicts data with
      | Some rs => Make (sort_by_priority rs) (file self)
      | None => Make [] (file self)
      end
  end.

(** [add_rule] *)
Definition add_rule (fault : option rules_file) (rule : Rule) (self : t) : t :=
  save_rules fault (Make (sort_by_priority (rules self ++ [rule])) (file self)).

(** [remove_rule] *)
Definition remove_rule (fault : option rules_file) (rule_id : Z) (self : t) : t :=
  save_rules fault
    (Make (List.filter (fun r => negb (id r =? rule_id)) (rules self)) (file self)).

(** The loop of [update_rule]: the first rule with the id is replaced. *)
Fixpoint replace_first (rule : Rule) (rs : list Rule) : list Rule :=
  match rs with
  | [] => []
  | r :: rest =>
      if id r =? id rule then rule :: rest else r :: replace_first rule rest
  end.

(** [update_rule] *)
Definition update_rule (fault : option rules_file) (rule : Rule) (self : t) : t :=
  save_rules fault
    (Make (sort_by_priority (replace_first rule (rules self))) (file self)).

Definition flip (r : Rule) : Rule :=
  MkRule (id r) (name r) (pattern r) (target_folder r) (rule_conditions r)
    (priority r) (negb (enabled r)).

(** The loop of [toggle_rule]: the first rule with the id is switched. *)
Fixpoint toggle_first (rule_id : Z) (rs : list Rule) : list Rule :=
  match rs with
  | [] => []
  | r :: rest =>
      if id r =? rule_id then flip r :: rest else r :: toggle_first rule_id rest
  end.

(** [toggle_rule] *)
Definition toggle_rule (fault : option rules_file) (rule_id : Z) (self : t) : t :=
  save_rules fault (Make (toggle_first rule_id (rules self)) (file self)).

(** [get_next_id] *)
Definition get_next_id (self : t) : Z :=
  match rules self with
  | [] => 1
  | r :: rest => foldr Z.max (id r) (id <$> rest) + 1
  end.

(** The engine that [apply_rules] runs on. *)
Definition engine (self : t) : RulesEngine.t := RulesEngine.Make (rules self).

End RuleSet.

(** ** app/core/duplicate_detector.py: the detector's own cache *)

Module HashCache.
Import PurePath.

(** The two fields of a [DuplicateDetector]. *)
Record t : Type := Make
  { _hashes : gset string;
    _file_map : gmap string Path }.

(** [DuplicateDetector.__init__] *)
Definition init : t := Make ∅ ∅.

(** [DuplicateDetector.is_duplicate]: the answer and the detector after the
    call.  Whatever is raised while hashing is logged and answered with
    [(False, None)]. *)
Definition is_duplicate (self : t) (E : env) (file_path : Path)
  : M ((bool * option Path) * t) :=
  try_except
    (let* file_hash := DuplicateDetector.compute_hash E file_path in
     if bool_decide (file_hash ∈ _hashes self) then
       ret ((true, _file_map self !! file_hash), self)
     else
       ret ((false, None),
            Make ({[file_hash]} ∪ _hashes self)
              (<[file_hash := file_path]> (_file_map self))))
    (fun _ => ret ((false, None), self)).

(** [DuplicateDetector.clear] *)
Definition clear (self : t) : t := Make ∅ ∅.

End HashCache.

(** * Properties *)

Import PurePath.

(** ** What the ledger calls compute *)

Section Runs.
Variable E : env.

Lemma get_connection_run {A} (call : db_call) (body : database → A * database) w :
  Db.get_connection E call body w =
  match db_fault E call with
  | Some msg => (Raise (SqliteError msg), w)
  | None => (Ok (fst (body (db w))), set_db (snd (body (db w))) w)
  end.
Proof. reflexivity. Qed.

Lemma log_operation_run fn orig dest cat kind size h ok err w :
  Db.log_operation E fn orig dest cat kind size h ok err w =
  match db_fault E LogOperation with
  | Some _ => (Ok (-1), w)
  | None =>
      (Ok (file_operations_seq (db w) + 1),
       set_db (Db.insert_operation (db w)
                 (Operation (file_operations_seq (db w) + 1) (now E) fn orig dest
                    cat kind size h ok err true)) w)
  end.
Proof.
  unfold Db.log_operation, try_except. rewrite get_connection_run.
  destruct (db_fault E LogOperation); reflexivity.
Qed.

Lemma update_statistics_run cat a b c d w :
  ∃ st, Db.update_statistics E cat a b c d w =
        (Ok tt, set_db (Database (file_operations (db w)) (file_operations_seq (db w))
                          (duplicate_hashes (db w)) st) w).
Proof.
  unfold Db.update_statistics, try_except. rewrite get_connection_run.
  destruct (db_fault E UpdateStatistics); simpl.
  - exists (statistics (db w)). destruct w as [f [ops sq dh st] c0]; reflexivity.
  - eexists. reflexivity.
Qed.

Lemma mark_operation_undone_run i w :
  Db.mark_operation_undone E i w =
  match db_fault E MarkOperationUndone with
  | Some _ => (Ok tt, w)
  | None =>
      (Ok tt, set_db (Database (map (Db.set_can_undo i) (file_operations (db w)))
                        (file_operations_seq (db w)) (duplicate_hashes (db w))
                        (statistics (db w))) w)
  end.
Proof.
  unfold Db.mark_operation_undone, try_except. rewrite get_connection_run.
  destruct (db_fault E MarkOperationUndone); reflexivity.
Qed.

Lemma get_operation_history_run limit w :
  Db.get_operation_history E limit w =
  match db_fault E GetOperationHistory with
  | Some _ => (Ok [], w)
  | None => (Ok (take limit (merge_sort Db.newer (file_operations (db w)))),
             set_db (db w) w)
  end.
Proof.
  unfold Db.get_operation_history, try_except. rewrite get_connection_run.
  destruct (db_fault E GetOperationHistory); reflexivity.
Qed.

Lemma add_duplicate_hash_run h path size w :
  Db.add_duplicate_hash E h path size w =
  match db_fault E AddDuplicateHash with
  | Some _ => (Ok false, w)
  | None =>
      match duplicate_hashes (db w) !! h with
      | Some existing =>
          (Ok true,
           set_db (Database (file_operations (db w)) (file_operations_seq (db w))
                     (<[h := DuplicateHash (dh_original_path existing)
                               (dh_file_size existing) (dh_first_seen existing)
                               (now E) (dh_duplicate_count existing + 1)]>
                        (duplicate_hashes (db w)))
                     (statistics (db w))) w)
      | None =>
          (Ok false,
           set_db (Database (file_operations (db w)) (file_operations_seq (db w))
                     (<[h := DuplicateHash path size (now E) (now E) 0]>
                        (duplicate_hashes (db w)))
                     (statistics (db w))) w)
      end
  end.
Proof.
  unfold Db.add_duplicate_hash, try_except. rewrite get_connection_run.
  destruct (db_fault E AddDuplicateHash); [reflexivity|].
  destruct (duplicate_hashes (db w) !! h); reflexivity.
Qed.

End Runs.

(** Evaluate the plumbing of the monad. *)
Ltac run_monad :=
  cbv beta iota delta [bind try_except attempt ret raise get_world modify].

Lemma set_db_same w : set_db (db w) w = w.
Proof. destruct w; reflexivity. Qed.

(** ** Computations that cannot raise *)

Definition total {A} (m : M A) : Prop :=
  ∀ w, ∃ a w', m w = (Ok a, w').

Lemma total_ret {A} (a : A) : total (ret a).
Proof. intros w. by eexists _, _. Qed.

Lemma total_bind {A B} (m : M A) (k : A → M B) :
  total m → (∀ a, total (k a)) → total (bind m k).
Proof.
  intros Hm Hk w. unfold bind. destruct (Hm w) as (a & w' & ->). apply Hk.
Qed.

Lemma total_try_except {A} (m : M A) (h : exn → M A) :
  (∀ e, total (h e)) → total (try_except m h).
Proof.
  intros Hh w. unfold try_except.
  destruct (m w) as [[a|e] w'] eqn:Hm; [by eexists _, _ | apply Hh].
Qed.

Lemma total_attempt {A B} (m : M A) (h : exn → M B) (k : A → M B) :
  (∀ e, total (h e)) → (∀ a, total (k a)) → total (attempt m h k).
Proof.
  intros Hh Hk w. unfold attempt.
  destruct (m w) as [[a|e] w'] eqn:Hm; [apply Hk | apply Hh].
Qed.

Lemma total_modify f : total (modify f).
Proof. intros w. by eexists _, _. Qed.

Lemma total_get_world : total get_world.
Proof. intros w. by eexists _, _. Qed.

Lemma total_log_operation E fn orig dest cat kind size h ok err :
  total (Db.log_operation E fn orig dest cat kind size h ok err).
Proof.
  intros w. rewrite log_operation_run.
  destruct (db_fault E LogOperation); by eexists _, _.
Qed.

Lemma total_update_statistics E cat a b c d :
  total (Db.update_statistics E cat a b c d).
Proof.
  intros w. destruct (update_statistics_run E cat a b c d w) as [st ->].
  by eexists _, _.
Qed.

Lemma total_on_exception `{PyRe} E p size h e :
  total (FileOrganizer.on_exception E p size h e).
Proof.
  unfold FileOrganizer.on_exception.
  repeat (apply total_bind; [|intros ?]);
    auto using total_modify, total_log_operation, total_update_statistics, total_ret.
Qed.

Lemma total_organize_file `{PyRe} self E p :
  total (FileOrganizer.organize_file self E p).
Proof.
  unfold FileOrganizer.organize_file.
  apply total_bind; [apply total_get_world | intros w0].
  destruct (_ || _).
  - apply total_try_except. intros e. apply total_on_exception.
  - apply total_attempt; [intros e; apply total_on_exception | intros st].
    unfold FileOrganizer.organize_sized, FileOrganizer.reject_too_large,
      FileOrganizer.check_duplicates.
    destruct (FileOrganizer.too_large _ _).
    + apply total_try_except. intros e. apply total_on_exception.
    + destruct (FileOrganizer.enable_duplicates _).
      * apply total_attempt; [intros e; apply total_on_exception | intros h].
        apply total_try_except. intros e. apply total_on_exception.
      * apply total_try_except. intros e. apply total_on_exception.
Qed.

(** C8. [log_operation] never lets an exception out: when the transaction
    goes through it returns the id of the row it appended, and when the
    transaction fails it returns the negative sentinel [-1] and leaves the
    world as it was.  [organize_file] in turn always returns a result, so no
    failure of the audit log makes the pipeline throw. *)
Theorem log_operation_never_raises :
  (∀ E fn orig dest cat kind size h ok err w,
     ∃ id w',
       Db.log_operation E fn orig dest cat kind size h ok err w = (Ok id, w')
       ∧ match db_fault E LogOperation with
         | None =>
             id = file_operations_seq (db w) + 1
             ∧ file_operations (db w') =
               file_operations (db w)
                 ++ [Operation id (now E) fn orig dest cat kind size h ok err true]
             ∧ fs w' = fs w
         | Some _ => id = -1 ∧ id < 0 ∧ w' = w
         end)
  ∧ (∀ (re : PyRe) self E p w,
       ∃ r w', FileOrganizer.organize_file self E p w = (Ok r, w')).
Proof.
  split.
  - intros. rewrite log_operation_run.
    destruct (db_fault E LogOperation); eexists _, _; (split; [reflexivity|]);
      repeat split; lia.
  - intros. apply total_organize_file.
Qed.

(** ** Patterns: regular expression or glob *)

Lemma split_without_separator sep s :
  PyStr.has_char sep s = false → PyStr.split sep s = [s].
Proof.
  induction s as [|c s IH]; simpl; [done|].
  intros Hc. apply orb_false_iff in Hc as [Hc Hs].
  rewrite Hc, (IH Hs). reflexivity.
Qed.

Lemma parse_parts_single s :
  PyStr.has_char "/" s = false → s ≠ "" → s ≠ "." → parse_parts s = [s].
Proof.
  intros Hsep Hne Hdot. unfold parse_parts.
  rewrite (split_without_separator _ _ Hsep).
  rewrite filter_cons, filter_nil.
  destruct (decide _) as [|Hno]; [done|].
  exfalso. apply Hno. unfold keep_part.
  destruct (String.eqb_spec s ""); [done|].
  destruct (String.eqb_spec s "."); done.
Qed.

Lemma relative_without_separator s :
  PyStr.has_char "/" s = false → is_absolute_str s = false.
Proof.
  unfold is_absolute_str. destruct s as [|c s]; [done|].
  cbn [PyStr.has_char PyStr.startswith].
  intros Hc. apply orb_false_iff in Hc as [Hc _].
  destruct (Ascii.eqb_spec "/" c) as [<-|]; [|done].
  by rewrite Ascii.eqb_refl in Hc.
Qed.

Lemma rev_last_first (p : list string) :
  p ≠ [] → ∃ l, rev p = name p :: l.
Proof.
  intros Hp. destruct (exists_last Hp) as (l & x & ->).
  exists (rev l). unfold name. by rewrite rev_unit, last_last.
Qed.

(** A pattern of one component is matched against the file name. *)
Lemma match_single_component (p : Path) pat :
  p ≠ [] → PyStr.has_char "/" pat = false → pat ≠ "" → pat ≠ "." →
  PurePath.match_ p pat = Some (fnmatchcase (name p) pat).
Proof.
  intros Hp Hsep Hne Hdot. unfold PurePath.match_.
  rewrite (parse_parts_single _ Hsep Hne Hdot).
  rewrite (relative_without_separator _ Hsep). simpl negb.
  rewrite andb_false_l, andb_true_l.
  destruct (length ("/" :: p) <? length [pat])%nat eqn:Hlen.
  { apply Nat.ltb_lt in Hlen. simpl in Hlen. lia. }
  change (rev ("/" :: p)) with (rev p ++ ["/"]).
  destruct (rev_last_first p Hp) as [l ->].
  cbn [app rev match_parts]. f_equal.
  replace (match_parts (l ++ ["/"]) []) with true by (by destruct (l ++ ["/"])).
  apply andb_true_r.
Qed.

(** A pattern without a component raises [ValueError("empty pattern")]. *)
Lemma match_empty_pattern (p : Path) pat :
  pat = "" ∨ pat = "." → PurePath.match_ p pat = None.
Proof. by intros [-> | ->]. Qed.

Definition example_rule (pattern : string) : RulesEngine.Rule :=
  RulesEngine.MkRule 1 "example" pattern "Target" RulesEngine.no_conditions 0 true.

(** The dispatch of [_match_pattern], branch by branch. *)
Lemma match_pattern_dispatch (re : PyRe) (r : RulesEngine.Rule) (p : Path) (w : world) :
  p ≠ [] →
  RulesEngine._match_pattern r p w =
    (if RulesEngine.is_regex_pattern (RulesEngine.pattern r) then
       match re_match_ignorecase (RulesEngine.pattern r) (name p) with
       | Some b => (Ok b, w)
       | None => (Raise (ReError (RulesEngine.pattern r)), w)
       end
     else if PyStr.has_char "/" (RulesEngine.pattern r) then
       match PurePath.match_ p (RulesEngine.pattern r) with
       | Some b => (Ok b, w)
       | None => (Raise (ValueError "empty pattern"), w)
       end
     else if bool_decide (RulesEngine.pattern r = "" ∨ RulesEngine.pattern r = ".") then
       (Raise (ValueError "empty pattern"), w)
     else (Ok (fnmatchcase (name p) (RulesEngine.pattern r)), w)).
Proof.
  intros Hp. unfold RulesEngine._match_pattern.
  destruct (RulesEngine.is_regex_pattern _); [by destruct (re_match_ignorecase _ _)|].
  destruct (PyStr.has_char "/" _) eqn:Hsep; [by destruct (PurePath.match_ _ _)|].
  case_bool_decide as Hempty.
  - by rewrite (match_empty_pattern _ _ Hempty).
  - rewrite match_single_component; [done..| |]; intros Heq; apply Hempty; auto.
Qed.

Lemma name_snoc (dir : Path) (n : string) : name (dir ++ [n]) = n.
Proof. unfold name. apply last_last. Qed.

(** C3.  The dispatch is the one the claim describes: a pattern holding one
    of [[ ] ( ) ^ $ +] goes to [re.match] with [IGNORECASE] on the file name
    [n], any other pattern is a glob, and a glob of one component is matched
    against the file name.  [*invoice*] is a glob and matches
    [March_invoice.pdf]; [invoice_[0-9]+\.pdf] is a regular expression that
    matches [invoice_42.pdf], in any case of the letters and only from the
    start of the name, and not [invoice_abc.pdf].

    The glob is run by [file_path.match(pattern)], on the whole path and not
    on [filename] as the regular expression is and as the docstring of
    [_match_pattern] says ("Check if filename matches pattern"): a pattern
    with a separator is compared with the trailing components of the path.
    The glob [Downloads/*.pdf] does not match the file name [a.pdf], yet the
    rule takes [/home/u/Downloads/a.pdf] and turns down
    [/home/u/Other/a.pdf], a file of the same name. *)
Theorem pattern_disambiguation :
  (∀ (re : PyRe) (r : RulesEngine.Rule) (dir : Path) (n : string) (w : world),
     RulesEngine._match_pattern r (dir ++ [n]) w =
       (if RulesEngine.is_regex_pattern (RulesEngine.pattern r) then
          match re_match_ignorecase (RulesEngine.pattern r) n with
          | Some b => (Ok b, w)
          | None => (Raise (ReError (RulesEngine.pattern r)), w)
          end
        else if PyStr.has_char "/" (RulesEngine.pattern r) then
          match PurePath.match_ (dir ++ [n]) (RulesEngine.pattern r) with
          | Some b => (Ok b, w)
          | None => (Raise (ValueError "empty pattern"), w)
          end
        else if bool_decide (RulesEngine.pattern r = "" ∨ RulesEngine.pattern r = ".") then
          (Raise (ValueError "empty pattern"), w)
        else (Ok (fnmatchcase n (RulesEngine.pattern r)), w)))
  ∧ (∀ w : world,
       RulesEngine.is_regex_pattern "*invoice*" = false
       ∧ @RulesEngine._match_pattern Re.engine (example_rule "*invoice*")
           ["home"; "u"; "March_invoice.pdf"] w = (Ok true, w)
       ∧ RulesEngine.is_regex_pattern "invoice_[0-9]+\.pdf" = true
       ∧ @RulesEngine._match_pattern Re.engine (example_rule "invoice_[0-9]+\.pdf")
           ["home"; "u"; "invoice_42.pdf"] w = (Ok true, w)
       ∧ @RulesEngine._match_pattern Re.engine (example_rule "invoice_[0-9]+\.pdf")
           ["home"; "u"; "INVOICE_42.PDF"] w = (Ok true, w)
       ∧ @RulesEngine._match_pattern Re.engine (example_rule "invoice_[0-9]+\.pdf")
           ["home"; "u"; "my_invoice_42.pdf"] w = (Ok false, w)
       ∧ @RulesEngine._match_pattern Re.engine (example_rule "invoice_[0-9]+\.pdf")
           ["home"; "u"; "invoice_abc.pdf"] w = (Ok false, w))
  ∧ (∀ (E : env) (w : world),
       RulesEngine.is_regex_pattern "Downloads/*.pdf" = false
       ∧ fnmatchcase "a.pdf" "Downloads/*.pdf" = false
       ∧ @RulesEngine._match_pattern Re.engine (example_rule "Downloads/*.pdf")
           ["home"; "u"; "Downloads"; "a.pdf"] w = (Ok true, w)
       ∧ @RulesEngine.matches Re.engine (example_rule "Downloads/*.pdf") E
           ["home"; "u"; "Downloads"; "a.pdf"] None w = (Ok true, w)
       ∧ name ["home"; "u"; "Other"; "a.pdf"] = name ["home"; "u"; "Downloads"; "a.pdf"]
       ∧ @RulesEngine.matches Re.engine (example_rule "Downloads/*.pdf") E
           ["home"; "u"; "Other"; "a.pdf"] None w = (Ok false, w)).
Proof.
  split; [|split; intros; by repeat split].
  intros re r dir n w.
  rewrite match_pattern_dispatch by (by destruct dir).
  by rewrite name_snoc.
Qed.

(** With a separator in the pattern the glob looks at the directories: no
    function of the pattern and the file name gives the answer. *)
Lemma glob_is_not_on_the_file_name :
  ¬ (∃ g : string → string → bool,
       ∀ (r : RulesEngine.Rule) (p : Path) (w : world),
         p ≠ [] → RulesEngine.is_regex_pattern (RulesEngine.pattern r) = false →
         @RulesEngine._match_pattern Re.engine r p w
         = (Ok (g (RulesEngine.pattern r) (name p)), w)).
Proof.
  intros [g Hg].
  pose (w := MkWorld ∅ empty_database (Counters 0 0 0)).
  pose proof (Hg (example_rule "Downloads/*.pdf") ["home"; "u"; "Downloads"; "a.pdf"] w
                ltac:(discriminate) eq_refl) as H1.
  pose proof (Hg (example_rule "Downloads/*.pdf") ["home"; "u"; "Other"; "a.pdf"] w
                ltac:(discriminate) eq_refl) as H2.
  vm_compute in H1, H2. congruence.
Qed.

(** ** Rules: matching reads the world and never raises *)

(** The computation leaves the world as it is. *)
Definition readonly {A} (m : M A) : Prop :=
  ∀ w, ∃ r, m w = (r, w).

(** The computation answers [False] or raises, and leaves the world as it is. *)
Definition rejects (m : M bool) : Prop :=
  ∀ w, m w = (Ok false, w) ∨ ∃ e, m w = (Raise e, w).

Lemma readonly_ret {A} (a : A) : readonly (ret a).
Proof. intros w. by eexists. Qed.

Lemma readonly_raise {A} e : readonly (@raise A e).
Proof. intros w. by eexists. Qed.

Lemma readonly_bind {A B} (m : M A) (k : A → M B) :
  readonly m → (∀ a, readonly (k a)) → readonly (bind m k).
Proof.
  intros Hm Hk w. unfold bind. destruct (Hm w) as [[a|e] ->]; [apply Hk | by eexists].
Qed.

Lemma readonly_try_except {A} (m : M A) (h : exn → M A) :
  readonly m → (∀ e, readonly (h e)) → readonly (try_except m h).
Proof.
  intros Hm Hh w. unfold try_except.
  destruct (Hm w) as [[a|e] ->]; [by eexists | apply Hh].
Qed.

Lemma readonly_stat E p : readonly (Os.stat E p).
Proof.
  intros w. unfold Os.stat.
  destruct (os_fault E (Stat p)); [by eexists|].
  destruct (fs w !! p); by eexists.
Qed.

Lemma readonly_get_world : readonly get_world.
Proof. intros w. by eexists. Qed.

Lemma readonly_condition {A} (value : option A) check rest :
  (∀ v, readonly (check v)) → readonly rest →
  readonly (RulesEngine.condition value check rest).
Proof.
  intros Hc Hr. destruct value as [v|]; [|done]. simpl.
  apply readonly_bind; [apply Hc|]. intros []; [done | apply readonly_ret].
Qed.

Lemma rejects_condition {A} (value : option A) check rest :
  (∀ v, readonly (check v)) → rejects rest →
  rejects (RulesEngine.condition value check rest).
Proof.
  intros Hc Hr. destruct value as [v|]; [|done]. simpl.
  intros w. unfold bind. destruct (Hc v w) as [[[]|e] ->]; eauto.
Qed.

Lemma rejects_failed_condition {A} (v : A) check rest :
  (∀ w, check v w = (Ok false, w)) →
  rejects (RulesEngine.condition (Some v) check rest).
Proof. intros Hc w. left. simpl. unfold bind. by rewrite Hc. Qed.

Section Matching.
Context {re : PyRe}.

Lemma readonly_match_pattern r p : readonly (RulesEngine._match_pattern r p).
Proof.
  unfold RulesEngine._match_pattern.
  destruct (RulesEngine.is_regex_pattern _).
  - destruct (re_match_ignorecase _ _); [apply readonly_ret | apply readonly_raise].
  - destruct (PurePath.match_ _ _); [apply readonly_ret | apply readonly_raise].
Qed.

Ltac stat_check :=
  intros ?; apply readonly_bind; [apply readonly_stat | intros ?; apply readonly_ret].

Lemma readonly_check_conditions r E p md :
  readonly (RulesEngine._check_conditions r E p md).
Proof.
  unfold RulesEngine._check_conditions.
  repeat (apply readonly_condition; [first [stat_check | intros ?; apply readonly_ret]|]).
  apply readonly_ret.
Qed.

(** A rule whose text or GPS requirement fails is turned down, whatever
    its other conditions say or raise. *)
Lemma check_conditions_rejects r E p md :
  (∃ s, RulesEngine.contains_text (RulesEngine.rule_conditions r) = Some s
        ∧ PyStr.contains (PyStr.lower s) (PyStr.lower (RulesEngine.text_of md)) = false)
  ∨ (∃ v, RulesEngine.has_gps (RulesEngine.rule_conditions r) = Some v
          ∧ py_eq (RulesEngine.gps_of md) v = false) →
  rejects (RulesEngine._check_conditions r E p md).
Proof.
  intros Hfail. unfold RulesEngine._check_conditions.
  do 4 (apply rejects_condition; [stat_check|]).
  apply rejects_condition; [intros ?; apply readonly_ret|].
  destruct Hfail as [(s & -> & Hs) | (v & -> & Hv)].
  - apply rejects_failed_condition. intros w. unfold ret. by rewrite Hs.
  - apply rejects_condition; [intros ?; apply readonly_ret|].
    apply rejects_failed_condition. intros w. unfold ret. by rewrite Hv.
Qed.

(** [matches] always answers, and leaves the world as it is. *)
Lemma matches_answers r E p md w :
  ∃ b, RulesEngine.matches r E p md w = (Ok b, w).
Proof.
  unfold RulesEngine.matches. destruct (negb _); [by eexists|].
  unfold try_except, bind.
  destruct (readonly_match_pattern r p w) as [[[]|e] ->]; simpl; try by eexists.
  destruct (readonly_check_conditions r E p md w) as [[[]|e] ->]; by eexists.
Qed.

Lemma matches_rejected r E p md w :
  rejects (RulesEngine._check_conditions r E p md) →
  RulesEngine.matches r E p md w = (Ok false, w).
Proof.
  intros Hrej. unfold RulesEngine.matches. destruct (negb _); [done|].
  unfold try_except, bind.
  destruct (readonly_match_pattern r p w) as [[[]|e] ->]; simpl; try done.
  destruct (Hrej w) as [-> | [e ->]]; done.
Qed.

(** [apply_rules] always answers, and leaves the world as it is. *)
Lemma first_match_answers rs E p md w :
  ∃ o, RulesEngine.first_match rs E p md w = (Ok o, w).
Proof.
  induction rs as [|r rs IH]; simpl; [by eexists|].
  unfold bind. destruct (matches_answers r E p md w) as [[] ->]; [by eexists | done].
Qed.

(** The answer of [apply_rules] is the target of the first rule that
    matches. *)
Lemma first_match_found pre r post E p md w :
  Forall (fun q => RulesEngine.matches q E p md w = (Ok false, w)) pre →
  RulesEngine.matches r E p md w = (Ok true, w) →
  RulesEngine.first_match (pre ++ r :: post) E p md w
  = (Ok (Some (RulesEngine.target_folder r)), w).
Proof.
  intros Hpre Hr. induction Hpre as [|q pre Hq _ IH]; simpl; unfold bind.
  - by rewrite Hr.
  - by rewrite Hq.
Qed.

Lemma first_match_none rs E p md w :
  Forall (fun q => RulesEngine.matches q E p md w = (Ok false, w)) rs →
  RulesEngine.first_match rs E p md w = (Ok None, w).
Proof.
  induction 1 as [|q rs Hq _ IH]; simpl; unfold bind; [done|]. by rewrite Hq.
Qed.

End Matching.

(** ** The GPS flag the content analyzer records *)

(** The flag is [True] or missing. *)
Definition gps_flag_shape (md : gmap string pyval) : Prop :=
  md !! "has_gps" = None ∨ md !! "has_gps" = Some (PyBool true).

Ltac other_keys :=
  repeat first
    [ rewrite lookup_empty
    | rewrite lookup_insert_ne by discriminate
    | rewrite lookup_insert_eq ].

Lemma copy_tag_other exif tag key md k :
  key ≠ k → ContentAnalyzer.copy_tag exif tag key md !! k = md !! k.
Proof.
  intros Hk. unfold ContentAnalyzer.copy_tag.
  destruct (exif !! tag); [by rewrite lookup_insert_ne | done].
Qed.

Lemma analyze_image_gps self data :
  gps_flag_shape (fst (ContentAnalyzer._analyze_image self data)).
Proof.
  unfold gps_flag_shape, ContentAnalyzer._analyze_image.
  destruct data as [c|]; [|by left].
  destruct (pil_open c) as [img|]; [|by left].
  destruct (getexif img) as [| |exif]; cbn [fst]; try (left; by other_keys).
  destruct (exif !! "GPSInfo").
  - right. by other_keys.
  - left. rewrite !copy_tag_other by discriminate. by other_keys.
Qed.

Lemma analyze_gps self p f :
  gps_flag_shape (ContentAnalyzer.metadata (ContentAnalyzer.analyze self p f)).
Proof.
  assert (gps_flag_shape
            (fst (if String.eqb (ContentAnalyzer._get_file_type p) "image"
                  then ContentAnalyzer._analyze_image self
                         (ContentAnalyzer.file_data (f !! p))
                  else if String.eqb (ContentAnalyzer._get_file_type p) "pdf"
                  then ContentAnalyzer._analyze_pdf (ContentAnalyzer.file_data (f !! p))
                  else if String.eqb (ContentAnalyzer._get_file_type p) "document"
                  then ContentAnalyzer._analyze_document p
                         (ContentAnalyzer.file_data (f !! p))
                  else if String.eqb (ContentAnalyzer._get_file_type p) "audio"
                  then (ContentAnalyzer._analyze_audio
                          (ContentAnalyzer.file_data (f !! p)), "")
                  else if String.eqb (ContentAnalyzer._get_file_type p) "video"
                  then (ContentAnalyzer._analyze_video (node_stat <$> f !! p), "")
                  else (∅, "")))) as Hshape.
  { repeat (destruct (String.eqb _ _); [|]); try apply analyze_image_gps;
      unfold gps_flag_shape, ContentAnalyzer._analyze_pdf,
        ContentAnalyzer._analyze_document, ContentAnalyzer._analyze_audio,
        ContentAnalyzer._analyze_video; left;
      repeat case_match; cbn [fst]; by other_keys. }
  unfold ContentAnalyzer.analyze.
  destruct (PyStr.truthy _); exact Hshape.
Qed.

(** The flag as a rule reads it. *)
Lemma gps_of_analysis self p f :
  RulesEngine.gps_of (Some (ContentAnalyzer.analyze self p f)) = PyNone
  ∨ RulesEngine.gps_of (Some (ContentAnalyzer.analyze self p f)) = PyBool true.
Proof.
  unfold RulesEngine.gps_of, dict_get.
  destruct (analyze_gps self p f) as [-> | ->]; auto.
Qed.

(** A JPEG with an EXIF block that has no GPS tag. *)
Definition plain_photo : node :=
  File (StatResult 2048 0)
    (Content "aa11"
       (Some (PilImage 640 480 "JPEG" "RGB"
                (ExifTags (<["Make" := PyStr "Canon"]> ∅))))
       None None None None None).

Definition no_gps_rule : RulesEngine.Rule :=
  RulesEngine.MkRule 7 "Photos without GPS" "*.jpg" "Photos/NoLocation"
    (RulesEngine.Conditions None None None None None None (Some (PyBool false)))
    5 true.

Definition quiet : env := Env 0 (fun _ => None) (fun _ => None) true.

(** C5.  The content analyzer records [has_gps = True] or nothing, and the
    rule compares what it finds ([None] when nothing is recorded) with the
    required value.  A rule that requires [has_gps = False] therefore matches
    no analyzed file at all: neither one that carries GPS data nor one that
    carries none, such as [plain_photo], whose metadata records no GPS data. *)
Theorem has_gps_false_matches_nothing :
  (∀ (re : PyRe) self E p f w id nm pat target mn mx ol nw ex ct prio en,
     RulesEngine.matches
       (RulesEngine.MkRule id nm pat target
          (RulesEngine.Conditions mn mx ol nw ex ct (Some (PyBool false))) prio en)
       E p (Some (ContentAnalyzer.analyze self p f)) w
     = (Ok false, w))
  ∧ (let w := MkWorld (<[["in"; "IMG_1.jpg"] := plain_photo]> ∅) empty_database
                (Counters 0 0 0) in
     let md := ContentAnalyzer.analyze (ContentAnalyzer.Make false true)
                 ["in"; "IMG_1.jpg"] (fs w) in
     dict_get (ContentAnalyzer.metadata md) "has_gps" = PyNone
     ∧ @RulesEngine._match_pattern Re.engine no_gps_rule ["in"; "IMG_1.jpg"] w
       = (Ok true, w)
     ∧ @RulesEngine._check_conditions no_gps_rule quiet ["in"; "IMG_1.jpg"] (Some md) w
       = (Ok false, w)
     ∧ @RulesEngine.apply_rules Re.engine (RulesEngine.Make [no_gps_rule]) quiet
         ["in"; "IMG_1.jpg"] (Some md) w
       = (Ok None, w)).
Proof.
  split.
  - intros. apply matches_rejected, check_conditions_rejects.
    right. eexists. split; [reflexivity|].
    destruct (gps_of_analysis self p f) as [-> | ->]; reflexivity.
  - vm_compute. repeat split.
Qed.

(** ** Rules with content conditions when no metadata was computed *)

Lemma nothing_contains_a_text s :
  s ≠ "" → PyStr.contains (PyStr.lower s) (PyStr.lower "") = false.
Proof. destruct s; [done | reflexivity]. Qed.

Lemma none_differs v : v ≠ PyNone → py_eq PyNone v = false.
Proof. destruct v; done. Qed.

(** C6, as amended.  With absent metadata the text read by a rule is empty
    and the GPS flag is [None].  A rule that requires a non-empty text, or a
    GPS flag other than [null], is then turned down: [matches] answers
    [False] without raising, [apply_rules] goes on with the rules after it
    and returns a result. *)
Theorem absent_metadata_rule_is_skipped (re : PyRe) (r : RulesEngine.Rule)
    (E : env) (p : Path) (w : world) (rest : list RulesEngine.Rule) :
  (∃ s, RulesEngine.contains_text (RulesEngine.rule_conditions r) = Some s ∧ s ≠ "")
  ∨ (∃ v, RulesEngine.has_gps (RulesEngine.rule_conditions r) = Some v ∧ v ≠ PyNone) →
  RulesEngine.matches r E p None w = (Ok false, w)
  ∧ RulesEngine.apply_rules (RulesEngine.Make (r :: rest)) E p None w
    = RulesEngine.apply_rules (RulesEngine.Make rest) E p None w
  ∧ ∃ o, RulesEngine.apply_rules (RulesEngine.Make (r :: rest)) E p None w = (Ok o, w).
Proof.
  intros Hcond.
  assert (RulesEngine.matches r E p None w = (Ok false, w)) as Hskip.
  { apply matches_rejected, check_conditions_rejects.
    destruct Hcond as [(s & Hs & Hne) | (v & Hv & Hne)]; [left | right];
      eexists; (split; [eassumption|]).
    - by apply nothing_contains_a_text.
    - by apply none_differs. }
  split; [exact Hskip|]. split.
  - unfold RulesEngine.apply_rules. simpl. unfold bind. by rewrite Hskip.
  - apply first_match_answers.
Qed.

Definition gps_rule : RulesEngine.Rule :=
  RulesEngine.MkRule 6 "Photos with GPS" "*.jpg" "Photos/Locations"
    (RulesEngine.Conditions None None None None None None (Some (PyBool true)))
    5 true.

Definition photo_world : world :=
  MkWorld (<[["in"; "IMG_1.jpg"] := plain_photo]> ∅) empty_database (Counters 0 0 0).

Lemma absent_metadata_rule_is_skipped_witness :
  RulesEngine.has_gps (RulesEngine.rule_conditions gps_rule) = Some (PyBool true)
  ∧ @RulesEngine.matches Re.engine gps_rule quiet ["in"; "IMG_1.jpg"] None photo_world
    = (Ok false, photo_world).
Proof.
  split; [reflexivity|].
  refine (proj1 (absent_metadata_rule_is_skipped Re.engine gps_rule quiet
                   ["in"; "IMG_1.jpg"] photo_world [] _)).
  right. exists (PyBool true). split; [reflexivity | discriminate].
Defined.

Definition any_text_rule : RulesEngine.Rule :=
  RulesEngine.MkRule 8 "Any text" "*.txt" "Notes"
    (RulesEngine.Conditions None None None None None (Some "") None)
    5 true.

(** C6, as stated, fails: a rule whose [contains_text] is the empty string
    carries a content condition and still matches when no metadata was
    computed, since the empty string is found in the empty text. *)
Lemma empty_text_requirement_matches_without_metadata :
  ¬ (∀ (r : RulesEngine.Rule) (E : env) (p : Path) (w : world),
       RulesEngine.contains_text (RulesEngine.rule_conditions r) ≠ None
       ∨ RulesEngine.has_gps (RulesEngine.rule_conditions r) ≠ None →
       @RulesEngine.matches Re.engine r E p None w = (Ok false, w)).
Proof.
  intros Hclaim.
  assert (@RulesEngine.matches Re.engine any_text_rule quiet ["in"; "todo.txt"] None
            (MkWorld ∅ empty_database (Counters 0 0 0))
          = (Ok false, MkWorld ∅ empty_database (Counters 0 0 0))) as Hno.
  { apply Hclaim. left. discriminate. }
  vm_compute in Hno. discriminate.
Qed.

(** ** The five outcomes of [organize_file] *)

Inductive Outcome : Type := Organized | Duplicate | TooLarge | NotFound | Error.

Definition message (r : FileOrganizer.result) : string := snd (fst (fst r)).
Definition succeeded (r : FileOrganizer.result) : bool := fst (fst (fst r)).
Definition category_of (r : FileOrganizer.result) : string := snd (fst r).
Definition size_of (r : FileOrganizer.result) : Z := snd r.

(** The outcome is told by the message. *)
Definition outcome (r : FileOrganizer.result) : option Outcome :=
  if String.eqb (message r) "File not found" then Some NotFound
  else if PyStr.startswith "File too large (" (message r) then Some TooLarge
  else if String.eqb (message r) "Duplicate detected" then Some Duplicate
  else if PyStr.startswith "Moved to " (message r) then Some Organized
  else if PyStr.startswith "Error: " (message r) then Some Error
  else None.

(** What a computation returns, when it returns, satisfies [P]. *)
Definition yields {A} (P : A → Prop) (m : M A) : Prop :=
  ∀ w a w', m w = (Ok a, w') → P a.

Lemma yields_ret {A} (P : A → Prop) a : P a → yields P (ret a).
Proof. intros HP w a' w' [= <- _]. exact HP. Qed.

Lemma yields_bind {A B} (P : B → Prop) (m : M A) (k : A → M B) :
  (∀ a, yields P (k a)) → yields P (bind m k).
Proof.
  intros Hk w b w'. unfold bind.
  destruct (m w) as [[a|e] w1]; [apply Hk | discriminate].
Qed.

Lemma yields_try_except {A} (P : A → Prop) (m : M A) h :
  yields P m → (∀ e, yields P (h e)) → yields P (try_except m h).
Proof.
  intros Hm Hh w a w'. unfold try_except.
  destruct (m w) as [[a1|e] w1] eqn:Hrun.
  - intros [= <- <-]. eapply Hm, Hrun.
  - apply Hh.
Qed.

Lemma yields_attempt {A B} (P : B → Prop) (m : M A) h k :
  (∀ e, yields P (h e)) → (∀ a, yields P (k a)) → yields P (attempt m h k).
Proof.
  intros Hh Hk w b w'. unfold attempt.
  destruct (m w) as [[a|e] w1]; [apply Hk | apply Hh].
Qed.

Section Outcomes.
Context {re : PyRe}.

Lemma on_exception_outcome E p size h e :
  yields (fun r => outcome r = Some Error ∧ succeeded r = false)
    (FileOrganizer.on_exception E p size h e).
Proof.
  unfold FileOrganizer.on_exception.
  do 3 (apply yields_bind; intros ?). by apply yields_ret.
Qed.

Lemma file_duplicate_outcome self E p size h :
  yields (fun r => outcome r = Some Duplicate ∧ succeeded r = true)
    (FileOrganizer.file_duplicate self E p size h).
Proof.
  unfold FileOrganizer.file_duplicate.
  do 6 (apply yields_bind; intros ?). by apply yields_ret.
Qed.

Lemma file_normally_outcome self E p size h :
  yields (fun r => outcome r = Some Organized ∧ succeeded r = true)
    (FileOrganizer.file_normally self E p size h).
Proof.
  unfold FileOrganizer.file_normally.
  do 7 (apply yields_bind; intros ?). by apply yields_ret.
Qed.

(** Past the size check the outcome is [Organized], [Duplicate] or
    [Error]. *)
Lemma past_size_check_outcome self E p size :
  yields (fun r => outcome r = Some Organized ∨ outcome r = Some Duplicate
                   ∨ outcome r = Some Error)
    (if FileOrganizer.enable_duplicates (FileOrganizer.config self)
     then FileOrganizer.check_duplicates self E p size
     else try_except (FileOrganizer.file_normally self E p size None)
            (FileOrganizer.on_exception E p size None)).
Proof.
  assert (∀ h e, yields (fun r => outcome r = Some Organized
                                  ∨ outcome r = Some Duplicate
                                  ∨ outcome r = Some Error)
                   (FileOrganizer.on_exception E p size h e)) as Hexc.
  { intros h e w r w' Hrun.
    destruct (on_exception_outcome E p size h e w r w' Hrun); auto. }
  assert (∀ h, yields (fun r => outcome r = Some Organized
                                ∨ outcome r = Some Duplicate
                                ∨ outcome r = Some Error)
                 (FileOrganizer.file_normally self E p size h)) as Hnorm.
  { intros h w r w' Hrun.
    destruct (file_normally_outcome self E p size h w r w' Hrun); auto. }
  destruct (FileOrganizer.enable_duplicates _).
  - unfold FileOrganizer.check_duplicates.
    apply yields_attempt; [apply Hexc | intros h].
    apply yields_try_except; [|apply Hexc].
    apply yields_bind. intros [].
    + intros w r w' Hrun.
      destruct (file_duplicate_outcome self E p size h w r w' Hrun); auto.
    + apply Hnorm.
  - apply yields_try_except; [apply Hnorm | apply Hexc].
Qed.

End Outcomes.

(** ** The size limit *)

Lemma round53_small n : n < 2 ^ 53 → PyNum.round53 n = n.
Proof.
  intros Hn. unfold PyNum.round53.
  destruct (Z.leb_spec (Z.log2 n + 1) 53) as [|Hbits]; [done|].
  exfalso. destruct (Z.le_gt_cases n 0) as [Hneg|Hpos].
  - rewrite Z.log2_nonpos in Hbits by done. lia.
  - assert (Z.log2 n < 53) by (apply Z.log2_lt_pow2; lia). lia.
Qed.

(** A whole number of megabytes below [2^63] bytes is kept by the division. *)
Lemma round53_megabytes m :
  0 ≤ m → m * PyNum.MB < 2 ^ 63 → PyNum.round53 (m * PyNum.MB) = m * PyNum.MB.
Proof.
  intros Hm Hlt. unfold PyNum.round53.
  destruct (Z.leb_spec (Z.log2 (m * PyNum.MB) + 1) 53) as [|Hbits]; [done|].
  assert (0 < m) as Hpos.
  { destruct (Z.eq_dec m 0) as [->|]; [|lia]. simpl in Hbits. lia. }
  change PyNum.MB with (2 ^ 20) in *.
  assert (Z.log2 (m * 2 ^ 20) < 63) as Hlog by (apply Z.log2_lt_pow2; lia).
  set (sh := Z.log2 (m * 2 ^ 20) + 1 - 53) in *.
  assert (0 < sh ≤ 20) as Hsh.
  { subst sh. rewrite Z.log2_mul_pow2 in * by lia.
    assert (Z.log2 m < 43); [|lia].
    apply Z.log2_lt_pow2; [lia|]. 
    apply Z.mul_lt_mono_pos_r with (p := 2 ^ 20); [lia|].
    rewrite <- Z.pow_add_r by lia. exact Hlt. }
  assert (m * 2 ^ 20 = (m * 2 ^ (20 - sh)) * 2 ^ sh) as Hsplit.
  { rewrite <- Z.mul_assoc, <- Z.pow_add_r by lia. do 2 f_equal. lia. }
  rewrite Z.shiftr_div_pow2, !Z.shiftl_mul_pow2 by lia.
  assert ((m * 2 ^ 20) `div` 2 ^ sh * 2 ^ sh = m * 2 ^ 20) as Hexact.
  { rewrite Hsplit at 1. rewrite Z.div_mul by (apply Z.pow_nonzero; lia).
    by rewrite <- Hsplit. }
  rewrite Hexact, Z.sub_diag.
  assert (0 < 2 ^ (sh - 1)) as Hhalf by (apply Z.pow_pos_nonneg; lia).
  destruct (Z.ltb_spec (1 * 2 ^ (sh - 1)) 0); [lia|].
  destruct (Z.eqb_spec 0 (1 * 2 ^ (sh - 1))); [lia|].
  exact Hexact.
Qed.

(** The division does not round below [2^53]: a size over a bound that is
    below [2^53] is over it after the division as well. *)
Lemma round53_over m n : m < 2 ^ 53 → m < n → m < PyNum.round53 n.
Proof.
  intros Hm Hn. unfold PyNum.round53.
  destruct (Z.leb_spec (Z.log2 n + 1) 53) as [|Hbits]; [done|].
  assert (0 < n) as Hpos.
  { destruct (Z.le_gt_cases n 0) as [Hneg|]; [|done].
    rewrite Z.log2_nonpos in Hbits by done. lia. }
  set (sh := Z.log2 n + 1 - 53) in *.
  assert (0 < sh) as Hsh by (subst sh; lia).
  pose proof (Z.log2_spec n Hpos) as [Hlow _].
  replace (Z.log2 n) with (52 + sh) in Hlow by (subst sh; lia).
  rewrite Z.pow_add_r in Hlow by lia.
  assert (0 < 2 ^ sh) as Hpow by (apply Z.pow_pos_nonneg; lia).
  assert (2 ^ 52 ≤ Z.shiftr n sh) as Hq.
  { rewrite Z.shiftr_div_pow2 by lia. apply Z.div_le_lower_bound; lia. }
  set (q := Z.shiftr n sh) in *.
  assert (2 ^ 53 ≤ 2 ^ 52 * 2 ^ sh) as Hbig.
  { change (2 ^ 53) with (2 ^ 52 * 2 ^ 1). apply Z.mul_le_mono_nonneg_l; [lia|].
    apply Z.pow_le_mono_r; lia. }
  destruct (_ || _); rewrite Z.shiftl_mul_pow2 by lia; nia.
Qed.

Lemma too_large_spec self size :
  FileOrganizer.too_large self size
  = (FileOrganizer.max_file_size_mb (FileOrganizer.config self) * PyNum.MB
       <? PyNum.round53 size).
Proof.
  unfold FileOrganizer.too_large, dy_lt, of_int, size_mb, PyNum.div_mb. simpl.
  by rewrite Z.mul_1_r.
Qed.

Section SizeLimit.
Context {re : PyRe}.

(** For a regular file whose [stat] goes through, [organize_file] is the
    pipeline from the size check on. *)
Lemma organize_file_at_file self E p w st data :
  fs w !! p = Some (File st data) →
  os_fault E (Stat p) = None →
  FileOrganizer.organize_file self E p w
  = FileOrganizer.organize_sized self E p (st_size st) w.
Proof.
  intros Hfile Hstat.
  unfold FileOrganizer.organize_file, bind, get_world, attempt.
  unfold Os.exists_, Os.is_file, Os.stat. rewrite Hfile, Hstat.
  cbn [negb orb]. by rewrite Hfile.
Qed.

Lemma reject_too_large_run E p size w :
  FileOrganizer.reject_too_large E p size w =
  (Ok (false, "File too large (" +:+ PyNum.format_1f (PyNum.div_mb size) +:+ "MB)",
       "", size),
   match db_fault E LogOperation with
   | Some _ => w
   | None =>
       set_db (Db.insert_operation (db w)
                 (Operation (file_operations_seq (db w) + 1) (now E) (name p)
                    (to_str p) "" "" "organize" size None false
                    (Some ("File too large ("
                             +:+ PyNum.format_1f (PyNum.div_mb size) +:+ "MB)"))
                    true)) w
   end).
Proof.
  unfold FileOrganizer.reject_too_large, try_except, bind.
  rewrite log_operation_run. destruct (db_fault E LogOperation); reflexivity.
Qed.

End SizeLimit.

(** C4, as amended.  A regular file whose size is exactly the configured
    maximum (a size below [2^63] bytes, as that of every file is, and a
    maximum that is not negative) passes the size check: the pipeline goes
    on to the duplicate check or to classification, and the outcome is not
    [TooLarge].  With a limit below [2^33] megabytes, that is below [2^53]
    bytes, as is every limit that the settings offer, a file over the limit
    is rejected, be it by one byte and whatever its size: the result is the
    [TooLarge] failure with the computed size in the message, the file
    system, the duplicate index and the counters are untouched, and the
    ledger gains the failure entry (when the ledger cannot be written,
    nothing changes at all). *)
Theorem size_limit_boundary (re : PyRe) (self : FileOrganizer.t) (E : env)
    (p : Path) (w : world) (st : stat_result) (data : content) :
  fs w !! p = Some (File st data) →
  os_fault E (Stat p) = None →
  let limit := FileOrganizer.max_file_size_mb (FileOrganizer.config self) * PyNum.MB in
  let run := FileOrganizer.organize_file self E p w in
  (st_size st = limit → st_size st < 2 ^ 63 →
   0 ≤ FileOrganizer.max_file_size_mb (FileOrganizer.config self) →
     run = (if FileOrganizer.enable_duplicates (FileOrganizer.config self)
            then FileOrganizer.check_duplicates self E p (st_size st)
            else try_except (FileOrganizer.file_normally self E p (st_size st) None)
                   (FileOrganizer.on_exception E p (st_size st) None)) w
     ∧ ∃ r, fst run = Ok r
            ∧ (outcome r = Some Organized ∨ outcome r = Some Duplicate
               ∨ outcome r = Some Error))
  ∧ (limit < st_size st → limit < 2 ^ 53 →
     let msg := "File too large ("
                  +:+ PyNum.format_1f (PyNum.div_mb (st_size st)) +:+ "MB)" in
     fst run = Ok (false, msg, "", st_size st)
     ∧ outcome (false, msg, "", st_size st) = Some TooLarge
     ∧ fs (snd run) = fs w
     ∧ duplicate_hashes (db (snd run)) = duplicate_hashes (db w)
     ∧ stats (snd run) = stats w
     ∧ match db_fault E LogOperation with
       | None =>
           file_operations (db (snd run)) =
           file_operations (db w)
             ++ [Operation (file_operations_seq (db w) + 1) (now E) (name p)
                   (to_str p) "" "" "organize" (st_size st) None false (Some msg) true]
       | Some _ => snd run = w
       end).
Proof.
  intros Hfile Hstat limit run. subst run.
  rewrite (organize_file_at_file self E p w st data Hfile Hstat).
  unfold FileOrganizer.organize_sized. rewrite too_large_spec. fold limit. split.
  - intros Hsize Hbound Hmax.
    assert (PyNum.round53 limit = limit) as Hround
      by (apply round53_megabytes; [done | fold limit; lia]).
    destruct (total_organize_file self E p w) as (r & w' & Hrun).
    rewrite (organize_file_at_file self E p w st data Hfile Hstat) in Hrun.
    unfold FileOrganizer.organize_sized in Hrun. rewrite too_large_spec in Hrun.
    fold limit in Hrun. rewrite Hsize, Hround, Z.ltb_irrefl in Hrun.
    rewrite Hsize, Hround, Z.ltb_irrefl. split; [reflexivity|].
    exists r. rewrite Hrun. split; [reflexivity|].
    exact (past_size_check_outcome self E p limit w r w' Hrun).
  - intros Hover Hbound.
    pose proof (round53_over limit (st_size st) Hbound Hover) as Hseen.
    destruct (Z.ltb_spec limit (PyNum.round53 (st_size st))); [|lia].
    rewrite reject_too_large_run. cbn [fst snd].
    split; [reflexivity|]. split; [reflexivity|].
    destruct (db_fault E LogOperation); repeat split.
Qed.

Definition blank (digest : string) : content :=
  Content digest None None None None None None.

Definition plain_config (limit_mb : Z) (dups : bool) : FileOrganizer.AppConfig :=
  FileOrganizer.MkConfig ["home"; "u"; "Inbox"] ["home"; "u"; "Organized"]
    ["home"; "u"; "Duplicates"] true dups false false limit_mb 5.

Definition plain_organizer (limit_mb : Z) (dups : bool) : FileOrganizer.t :=
  FileOrganizer.Make (plain_config limit_mb dups) None None.

Definition one_file (p : Path) (size : Z) (digest : string) : world :=
  MkWorld (<[p := File (StatResult size 0) (blank digest)]> ∅) empty_database
    (Counters 0 0 0).

Lemma size_limit_boundary_witness :
  let p := ["home"; "u"; "Inbox"; "disk.img"] in
  let w := one_file p (2 ^ 53 + 1) "d1" in
  fs w !! p = Some (File (StatResult (2 ^ 53 + 1) 0) (blank "d1"))
  ∧ os_fault quiet (Stat p) = None
  ∧ 10000 * PyNum.MB < 2 ^ 53 + 1
  ∧ 10000 * PyNum.MB < 2 ^ 53
  ∧ fst (@FileOrganizer.organize_file Re.engine (plain_organizer 10000 true) quiet p w)
    = Ok (false, "File too large (8589934592.0MB)", "", 2 ^ 53 + 1).
Proof.
  cbv zeta. split; [reflexivity|]. split; [reflexivity|]. split; [reflexivity|].
  split; [reflexivity|].
  refine (proj1 (proj2 (size_limit_boundary Re.engine (plain_organizer 10000 true) quiet
                          ["home"; "u"; "Inbox"; "disk.img"]
                          (one_file ["home"; "u"; "Inbox"; "disk.img"] (2 ^ 53 + 1) "d1")
                          (StatResult (2 ^ 53 + 1) 0) (blank "d1") _ _) _ _));
    reflexivity.
Defined.

(** C4, as stated, fails: beyond [2^53] bytes the division to megabytes
    rounds.  A file of [2^53 + 1] bytes is one byte over a limit of [2^33]
    megabytes, the least limit that is not below [2^53] bytes; its size in
    megabytes is computed as [2^33] exactly, and the file is organized. *)
Lemma one_byte_over_is_accepted :
  let p := ["home"; "u"; "Inbox"; "disk.img"] in
  let self := plain_organizer (2 ^ 33) false in
  let run := @FileOrganizer.organize_file Re.engine self quiet p
               (one_file p (2 ^ 53 + 1) "d1") in
  FileOrganizer.max_file_size_mb (FileOrganizer.config self) * PyNum.MB < 2 ^ 53 + 1
  ∧ fst run = Ok (true, "Moved to Other", "Other", 2 ^ 53 + 1)
  ∧ outcome (true, "Moved to Other", "Other", 2 ^ 53 + 1) = Some Organized
  ∧ fs (snd run) !! p = None
  ∧ fs (snd run) !! ["home"; "u"; "Organized"; "Other"; "disk.img"]
    = Some (File (StatResult (2 ^ 53 + 1) 0) (blank "d1")).
Proof. vm_compute. repeat split. Qed.

(** ** Classification reads the world and always names a category *)

Section Classification.
Context {re : PyRe}.

(** The metadata the first tier hands to the rules. *)
Definition tier1_metadata (self : FileOrganizer.t) (p : Path) (w : world)
  : option ContentAnalyzer.analysis :=
  match FileOrganizer.content_analyzer self with
  | Some analyzer => Some (ContentAnalyzer.analyze analyzer p (fs w))
  | None => None
  end.

Lemma tier1_run self E p w engine :
  FileOrganizer.rules_engine self = Some engine →
  ∃ o, RulesEngine.apply_rules engine E p (tier1_metadata self p w) w = (Ok o, w)
       ∧ FileOrganizer.tier1 self E p w
         = (Ok (if FileOrganizer.given o then o else None, tier1_metadata self p w), w).
Proof.
  intros Hengine. unfold FileOrganizer.tier1, tier1_metadata. rewrite Hengine.
  destruct (FileOrganizer.content_analyzer self) as [analyzer|];
    unfold ContentAnalyzer.analyze_file; run_monad;
    match goal with
    | |- context [RulesEngine.apply_rules ?e ?E ?p ?md ?w] =>
        destruct (first_match_answers (RulesEngine.rules e) E p md w) as [o Ho];
        exists o; unfold RulesEngine.apply_rules; rewrite Ho;
        split; [reflexivity|]; by destruct (FileOrganizer.given o)
    end.
Qed.

Lemma tier1_without_rules self E p w :
  FileOrganizer.rules_engine self = None →
  FileOrganizer.tier1 self E p w = (Ok (None, None), w).
Proof. intros Hnone. unfold FileOrganizer.tier1. by rewrite Hnone. Qed.

Lemma tier1_answers self E p w :
  ∃ t1, FileOrganizer.tier1 self E p w = (Ok t1, w).
Proof.
  destruct (FileOrganizer.rules_engine self) as [engine|] eqn:Hengine.
  - destruct (tier1_run self E p w engine Hengine) as (o & _ & ->). by eexists.
  - rewrite tier1_without_rules by done. by eexists.
Qed.

(** The second tier keeps a category that the first tier assigned. *)
Lemma tier2_answers self p category md w :
  ∃ o, FileOrganizer.tier2 self p category md w = (Ok o, w)
       ∧ (FileOrganizer.given category = true → o = category).
Proof.
  unfold FileOrganizer.tier2.
  destruct (FileOrganizer.content_analyzer self) as [analyzer|];
    [|eexists; split; [reflexivity | done]].
  destruct (FileOrganizer.given category) eqn:Hgiven; cbn [negb andb];
    [eexists; split; [reflexivity | done]|].
  destruct (FileOrganizer.ai_classification _); cbn [negb andb];
    [|eexists; split; [reflexivity | done]].
  unfold ContentAnalyzer.analyze_file. run_monad.
  destruct md as [a|].
  - destruct (FileOrganizer.given (ContentAnalyzer.suggested_category a));
      eexists; (split; [reflexivity | done]).
  - destruct (FileOrganizer.given (ContentAnalyzer.suggested_category _));
      eexists; (split; [reflexivity | done]).
Qed.

Lemma tier3_of_given self p c :
  PyStr.truthy c = true → FileOrganizer.tier3 self p (Some c) = c.
Proof. intros Hc. unfold FileOrganizer.tier3. by rewrite Hc. Qed.

Lemma classification_answers self E p w :
  ∃ c, FileOrganizer.classification self E p w = (Ok c, w).
Proof.
  unfold FileOrganizer.classification, bind.
  destruct (tier1_answers self E p w) as [t1 ->].
  destruct (tier2_answers self p (fst t1) (snd t1) w) as (o & -> & _).
  by eexists.
Qed.

End Classification.

(** ** Failure entries of the ledger *)

(** A row with [success = 0] has an empty destination and a message. *)
Definition failure_shape (o : operation) : Prop :=
  op_success o = false →
  op_destination_path o = ""
  ∧ ∃ msg, op_error_message o = Some msg ∧ msg ≠ "".

(** The ledger of [w'] is the ledger of [w] followed by rows of that shape. *)
Definition ledger_grows_well (w w' : world) : Prop :=
  ∃ new, file_operations (db w') = file_operations (db w) ++ new
         ∧ Forall failure_shape new.

Lemma ledger_grows_well_refl w w' :
  file_operations (db w') = file_operations (db w) → ledger_grows_well w w'.
Proof. intros Heq. exists []. by rewrite app_nil_r. Qed.

Lemma ledger_grows_well_trans w1 w2 w3 :
  ledger_grows_well w1 w2 → ledger_grows_well w2 w3 → ledger_grows_well w1 w3.
Proof.
  intros (n1 & H1 & F1) (n2 & H2 & F2). exists (n1 ++ n2).
  split; [by rewrite H2, H1, app_assoc | by apply Forall_app].
Qed.

(** The computation adds only such rows, and an exception that leaves it
    has a message. *)
Definition logs_well {A} (m : M A) : Prop :=
  ∀ w, ledger_grows_well w (snd (m w))
       ∧ match fst (m w) with
         | Raise e => str e ≠ ""
         | Ok _ => True
         end.

Lemma logs_well_ret {A} (a : A) : logs_well (ret a).
Proof. intros w. split; [by apply ledger_grows_well_refl | done]. Qed.

Lemma logs_well_bind {A B} (m : M A) (k : A → M B) :
  logs_well m → (∀ a, logs_well (k a)) → logs_well (bind m k).
Proof.
  intros Hm Hk w. unfold bind. specialize (Hm w).
  destruct (m w) as [[a|e] w1]; [|exact Hm].
  destruct Hm as [Hg _]. destruct (Hk a w1) as [Hg' He].
  split; [by eapply ledger_grows_well_trans | done].
Qed.

Lemma logs_well_try_except {A} (m : M A) h :
  logs_well m → (∀ e, str e ≠ "" → logs_well (h e)) → logs_well (try_except m h).
Proof.
  intros Hm Hh w. unfold try_except. specialize (Hm w).
  destruct (m w) as [[a|e] w1]; [exact Hm|].
  destruct Hm as [Hg He]. destruct (Hh e He w1) as [Hg' He'].
  split; [by eapply ledger_grows_well_trans | done].
Qed.

Lemma logs_well_attempt {A B} (m : M A) h (k : A → M B) :
  logs_well m → (∀ e, str e ≠ "" → logs_well (h e)) → (∀ a, logs_well (k a)) →
  logs_well (attempt m h k).
Proof.
  intros Hm Hh Hk w. unfold attempt. specialize (Hm w).
  destruct (m w) as [[a|e] w1]; destruct Hm as [Hg He].
  - destruct (Hk a w1) as [Hg' He'].
    split; [by eapply ledger_grows_well_trans | done].
  - destruct (Hh e He w1) as [Hg' He'].
    split; [by eapply ledger_grows_well_trans | done].
Qed.

(** A computation that answers without touching the world. *)
Lemma logs_well_answers {A} (m : M A) :
  (∀ w, ∃ a, m w = (Ok a, w)) → logs_well m.
Proof.
  intros Hm w. destruct (Hm w) as [a ->].
  split; [by apply ledger_grows_well_refl | done].
Qed.

Lemma logs_well_modify_stats f : logs_well (modify (fun w => set_stats (f w) w)).
Proof. intros w. split; [by apply ledger_grows_well_refl | done]. Qed.

Lemma os_error_has_message err filename : str (OSError err filename) ≠ "".
Proof. discriminate. Qed.

Lemma logs_well_stat E p : logs_well (Os.stat E p).
Proof.
  intros w. unfold Os.stat.
  destruct (os_fault E (Stat p));
    [|destruct (fs w !! p)];
    (split; [by apply ledger_grows_well_refl | try done; apply os_error_has_message]).
Qed.

Lemma logs_well_compute_hash E p : logs_well (DuplicateDetector.compute_hash E p).
Proof.
  unfold DuplicateDetector.compute_hash.
  apply logs_well_bind; [|intros ?; apply logs_well_ret].
  intros w. unfold Os.read_file.
  destruct (os_fault E (OpenRead p));
    [|destruct (fs w !! p) as [[]|]];
    (split; [by apply ledger_grows_well_refl | try done; apply os_error_has_message]).
Qed.

Lemma make_dirs_error E ps f e :
  Os.make_dirs E ps f = Raise e → str e ≠ "".
Proof.
  revert f. induction ps as [|q rest IH]; intros f; simpl; [done|].
  destruct (f !! q) as [[]|]; eauto.
  intros [= <-]. apply os_error_has_message.
Qed.

Lemma logs_well_mkdir E p : logs_well (Os.mkdir E p).
Proof.
  intros w. unfold Os.mkdir.
  destruct (os_fault E (Mkdir p)).
  - split; [by apply ledger_grows_well_refl | apply os_error_has_message].
  - destruct (Os.make_dirs E (Os.chain p) (fs w)) eqn:Hmk;
      (split; [by apply ledger_grows_well_refl | try done]).
    by eapply make_dirs_error.
Qed.

Lemma logs_well_move E src dst : logs_well (Os.move E src dst).
Proof.
  intros w. unfold Os.move.
  destruct (os_fault E (Move src dst));
    [split; [by apply ledger_grows_well_refl | apply os_error_has_message]|].
  destruct (fs w !! src) as [n|];
    [|split; [by apply ledger_grows_well_refl | apply os_error_has_message]].
  destruct (_ && Os.exists_ _ _);
    [split; [by apply ledger_grows_well_refl | discriminate]|].
  destruct n; [split; [by apply ledger_grows_well_refl | done]|].
  destruct (_ && negb _);
    split; (by apply ledger_grows_well_refl) || done || discriminate.
Qed.

Lemma logs_well_log_operation E fn orig dest cat kind size h ok err :
  failure_shape (Operation 0 0 fn orig dest cat kind size h ok err true) →
  logs_well (Db.log_operation E fn orig dest cat kind size h ok err).
Proof.
  intros Hshape w. rewrite log_operation_run.
  destruct (db_fault E LogOperation).
  - split; [by apply ledger_grows_well_refl | done].
  - split; [|done]. eexists. split; [reflexivity|].
    constructor; [|constructor]. exact Hshape.
Qed.

Lemma logs_well_update_statistics E cat a b c d :
  logs_well (Db.update_statistics E cat a b c d).
Proof.
  intros w. destruct (update_statistics_run E cat a b c d w) as [st ->].
  split; [by apply ledger_grows_well_refl | done].
Qed.

Lemma logs_well_add_duplicate_hash E h path size :
  logs_well (Db.add_duplicate_hash E h path size).
Proof.
  intros w. rewrite add_duplicate_hash_run.
  destruct (db_fault E AddDuplicateHash);
    [|destruct (duplicate_hashes (db w) !! h)];
    (split; [by apply ledger_grows_well_refl | done]).
Qed.

Section Ledger.
Context {re : PyRe}.

Lemma logs_well_on_exception E p size h e :
  str e ≠ "" → logs_well (FileOrganizer.on_exception E p size h e).
Proof.
  intros He. unfold FileOrganizer.on_exception.
  apply logs_well_bind; [apply logs_well_modify_stats | intros _].
  apply logs_well_bind; [|intros _].
  { apply logs_well_log_operation. intros _. split; [done|]. by eexists. }
  apply logs_well_bind; [apply logs_well_update_statistics | intros _].
  apply logs_well_ret.
Qed.

Lemma logs_well_file_duplicate self E p size h :
  logs_well (FileOrganizer.file_duplicate self E p size h).
Proof.
  unfold FileOrganizer.file_duplicate.
  apply logs_well_bind; [apply logs_well_mkdir | intros _].
  apply logs_well_bind; [by apply logs_well_answers; eexists | intros w0].
  apply logs_well_bind; [apply logs_well_move | intros _].
  apply logs_well_bind; [apply logs_well_modify_stats | intros _].
  apply logs_well_bind; [by apply logs_well_log_operation | intros _].
  apply logs_well_bind; [apply logs_well_update_statistics | intros _].
  apply logs_well_ret.
Qed.

Lemma logs_well_file_normally self E p size h :
  logs_well (FileOrganizer.file_normally self E p size h).
Proof.
  unfold FileOrganizer.file_normally.
  apply logs_well_bind;
    [apply logs_well_answers, classification_answers | intros category].
  apply logs_well_bind; [apply logs_well_mkdir | intros _].
  apply logs_well_bind; [by apply logs_well_answers; eexists | intros w0].
  apply logs_well_bind; [apply logs_well_move | intros _].
  apply logs_well_bind; [apply logs_well_modify_stats | intros _].
  apply logs_well_bind; [by apply logs_well_log_operation | intros _].
  apply logs_well_bind; [apply logs_well_update_statistics | intros _].
  apply logs_well_ret.
Qed.

Lemma logs_well_organize_file self E p :
  logs_well (FileOrganizer.organize_file self E p).
Proof.
  unfold FileOrganizer.organize_file.
  apply logs_well_bind; [by apply logs_well_answers; eexists | intros w0].
  destruct (_ || _).
  - apply logs_well_try_except; [|intros e; apply logs_well_on_exception].
    apply logs_well_bind; [|intros _; apply logs_well_ret].
    apply logs_well_log_operation. intros _. split; [done|]. by eexists.
  - apply logs_well_attempt;
      [apply logs_well_stat | intros e; apply logs_well_on_exception | intros st].
    unfold FileOrganizer.organize_sized, FileOrganizer.reject_too_large,
      FileOrganizer.check_duplicates.
    destruct (FileOrganizer.too_large _ _).
    + apply logs_well_try_except; [|intros e; apply logs_well_on_exception].
      apply logs_well_bind; [|intros _; apply logs_well_ret].
      apply logs_well_log_operation. intros _. split; [done|]. by eexists.
    + destruct (FileOrganizer.enable_duplicates _).
      * apply logs_well_attempt;
          [apply logs_well_compute_hash
          | intros e; apply logs_well_on_exception | intros h].
        apply logs_well_try_except; [|intros e; apply logs_well_on_exception].
        apply logs_well_bind; [apply logs_well_add_duplicate_hash | intros []].
        -- apply logs_well_file_duplicate.
        -- apply logs_well_file_normally.
      * apply logs_well_try_except;
          [apply logs_well_file_normally | intros e; apply logs_well_on_exception].
Qed.

End Ledger.

(** C7.  The rows that a call of [organize_file] appends to the ledger with
    [success = 0] have an empty destination path and a non-empty error
    message, on every path through the function: file not found, size limit
    exceeded, and the handler of the exceptions. *)
Theorem failure_entries_carry_a_message (re : PyRe) (self : FileOrganizer.t)
    (E : env) (p : Path) (w : world) :
  ∃ new,
    file_operations (db (snd (FileOrganizer.organize_file self E p w)))
    = file_operations (db w) ++ new
    ∧ Forall (fun o =>
                op_success o = false →
                op_destination_path o = ""
                ∧ ∃ msg, op_error_message o = Some msg ∧ msg ≠ "") new.
Proof. exact (proj1 (logs_well_organize_file self E p w)). Qed.

(** ** Collision-free names *)

Lemma string_length_app s t : String.length (s +:+ t) = (String.length s + String.length t)%nat.
Proof. induction s as [|c s IH]; simpl; [done | by rewrite IH]. Qed.

Lemma string_app_inj_r s1 s2 t : s1 +:+ t = s2 +:+ t → s1 = s2.
Proof.
  revert s2. induction s1 as [|c s1 IH]; intros [|d s2] Heq; simpl in Heq.
  - done.
  - apply (f_equal String.length) in Heq. simpl in Heq.
    rewrite !string_length_app in Heq. simpl in Heq. lia.
  - apply (f_equal String.length) in Heq. simpl in Heq.
    rewrite !string_length_app in Heq. simpl in Heq. lia.
  - injection Heq as -> Heq. f_equal. by apply IH.
Qed.

Lemma numbered_inj path : Inj (=) (=) (FileOrganizer.numbered path).
Proof.
  intros k1 k2 Heq. unfold FileOrganizer.numbered, FileOrganizer.child in Heq.
  apply app_inj_tail in Heq as [_ Heq].
  do 2 apply String.app_inj in Heq.
  apply string_app_inj_r in Heq. by apply (inj pretty) in Heq.
Qed.

Lemma exists_false (f : gmap (list string) node) p :
  Os.exists_ f p = false ↔ f !! p = None.
Proof. unfold Os.exists_. by destruct (f !! p). Qed.

(** Among the first [size f + 1] numbered names one is free. *)
Lemma numbered_free_exists (f : gmap (list string) node) path :
  ∃ k, (1 ≤ k ≤ S (size f))%nat ∧ f !! FileOrganizer.numbered path k = None.
Proof.
  destruct (decide (Exists (fun k => f !! FileOrganizer.numbered path k = None)
                      (seq 1 (S (size f))))) as [Hex|Hall].
  - apply Exists_exists in Hex as (k & Hin & Hfree).
    exists k. split; [|done]. apply elem_of_seq in Hin. lia.
  - exfalso. apply not_Exists_Forall in Hall; [|intros k; apply _].
    set (names := FileOrganizer.numbered path <$> seq 1 (S (size f))).
    assert (NoDup names) as Hnd
      by (apply (NoDup_fmap_2 _ (Inj0 := numbered_inj path)), NoDup_seq).
    assert ((list_to_set names : gset (list string)) ⊆ dom f) as Hsub.
    { intros q Hq. apply elem_of_list_to_set, list_elem_of_fmap in Hq
        as (k & -> & Hk).
      rewrite Forall_forall in Hall. specialize (Hall k Hk). simpl in Hall.
      apply elem_of_dom. by destruct (f !! FileOrganizer.numbered path k). }
    apply subseteq_size in Hsub.
    rewrite size_list_to_set, size_dom in Hsub by done.
    unfold names in Hsub. rewrite length_fmap, length_seq in Hsub. lia.
Qed.

Lemma probe_free (f : gmap (list string) node) path fuel counter :
  (∃ k, (counter ≤ k ≤ counter + fuel)%nat
        ∧ f !! FileOrganizer.numbered path k = None) →
  f !! FileOrganizer.probe f path fuel counter = None.
Proof.
  revert counter. induction fuel as [|fuel IH]; intros counter (k & Hk & Hfree).
  - simpl. by replace counter with k by lia.
  - simpl. destruct (Os.exists_ f (FileOrganizer.numbered path counter)) eqn:Hex.
    + simpl. apply IH. exists k. split; [|done].
      destruct (decide (k = counter)) as [->|]; [|lia].
      apply exists_false in Hfree. congruence.
    + simpl. by apply exists_false.
Qed.

(** [_get_unique_path] returns a path at which nothing exists: the loop of
    the source ends. *)
Lemma _get_unique_path_free (f : gmap (list string) node) path :
  f !! FileOrganizer._get_unique_path f path = None.
Proof.
  unfold FileOrganizer._get_unique_path.
  destruct (Os.exists_ f path) eqn:Hex; simpl; [|by apply exists_false].
  apply probe_free. destruct (numbered_free_exists f path) as (k & Hk & Hfree).
  exists k. split; [lia | done].
Qed.

Lemma probe_parent (f : gmap (list string) node) path fuel counter :
  parent (FileOrganizer.probe f path fuel counter) = parent path.
Proof.
  revert counter. induction fuel as [|fuel IH]; intros counter; simpl.
  - unfold FileOrganizer.numbered, FileOrganizer.child, parent.
    by rewrite removelast_last.
  - destruct (negb _); [|apply IH].
    unfold FileOrganizer.numbered, FileOrganizer.child, parent.
    by rewrite removelast_last.
Qed.

(** The path returned lies in the folder of the path asked for. *)
Lemma _get_unique_path_parent (f : gmap (list string) node) folder nm :
  parent (FileOrganizer._get_unique_path f (FileOrganizer.child folder nm)) = folder.
Proof.
  unfold FileOrganizer._get_unique_path.
  destruct (negb _); [|rewrite probe_parent];
    unfold FileOrganizer.child, parent; by rewrite removelast_last.
Qed.

Lemma probe_name (f : gmap (list string) node) path fuel counter :
  ∃ k, (counter ≤ k)%nat
       ∧ FileOrganizer.probe f path fuel counter = FileOrganizer.numbered path k.
Proof.
  revert counter. induction fuel as [|fuel IH]; intros counter; simpl.
  - by exists counter.
  - destruct (negb _); [by exists counter|].
    destruct (IH (S counter)) as (k & Hk & ->). exists k. split; [lia | done].
Qed.

(** It is the path asked for when that is free, and else that name with a
    counter before the suffix. *)
Lemma _get_unique_path_name (f : gmap (list string) node) path :
  FileOrganizer._get_unique_path f path = path
  ∨ ∃ k, (1 ≤ k)%nat
         ∧ FileOrganizer._get_unique_path f path = FileOrganizer.numbered path k.
Proof.
  unfold FileOrganizer._get_unique_path.
  destruct (negb _); [by left | right]. apply probe_name.
Qed.

(** ** Creating folders and moving a file *)

Lemma make_dirs_keeps (E : env) (ps : list Path) (f f' : gmap (list string) node)
    (q : Path) (n : node) :
  Os.make_dirs E ps f = Ok f' → f !! q = Some n → f' !! q = Some n.
Proof.
  revert f. induction ps as [|d rest IH]; intros f; simpl.
  - by intros [= <-].
  - destruct (f !! d) as [[]|] eqn:Hd; [done | apply IH |].
    intros Hmk Hq. apply (IH _ Hmk).
    rewrite lookup_insert_ne; [done|]. intros <-. congruence.
Qed.

(** What [mkdir] adds are directories. *)
Lemma make_dirs_adds_dirs (E : env) (ps : list Path)
    (f f' : gmap (list string) node) (q : Path) :
  Os.make_dirs E ps f = Ok f' → f !! q = None →
  f' !! q = None ∨ f' !! q = Some (Os.new_dir E).
Proof.
  revert f. induction ps as [|d rest IH]; intros f; simpl.
  - intros [= <-]. by left.
  - destruct (f !! d) as [[]|] eqn:Hd; [done | apply IH |].
    intros Hmk Hq. destruct (decide (d = q)) as [->|Hne].
    + right. apply (make_dirs_keeps _ _ _ _ _ _ Hmk). by rewrite lookup_insert_eq.
    + apply (IH _ Hmk). by rewrite lookup_insert_ne.
Qed.

Lemma mkdir_run E folder w f1 :
  os_fault E (Mkdir folder) = None →
  Os.make_dirs E (Os.chain folder) (fs w) = Ok f1 →
  Os.mkdir E folder w = (Ok tt, set_fs f1 w).
Proof. intros Hfault Hmk. unfold Os.mkdir. by rewrite Hfault, Hmk. Qed.

Lemma move_file_run E src dst w st data :
  os_fault E (Move src dst) = None →
  fs w !! src = Some (File st data) →
  fs w !! dst = None →
  Os.move E src dst w
  = (Ok tt, set_fs (<[dst := File st data]> (delete src (fs w))) w).
Proof.
  intros Hfault Hsrc Hdst. unfold Os.move. by rewrite Hfault, Hsrc, Hdst.
Qed.

(** ** What logging and statistics leave alone *)

Lemma after_log_operation E fn orig dest cat kind size h ok err w :
  let w' := snd (Db.log_operation E fn orig dest cat kind size h ok err w) in
  fs w' = fs w ∧ stats w' = stats w
  ∧ duplicate_hashes (db w') = duplicate_hashes (db w)
  ∧ file_operations (db w') =
    match db_fault E LogOperation with
    | Some _ => file_operations (db w)
    | None =>
        file_operations (db w)
          ++ [Operation (file_operations_seq (db w) + 1) (now E) fn orig dest cat
                kind size h ok err true]
    end
  ∧ file_operations_seq (db w') =
    match db_fault E LogOperation with
    | Some _ => file_operations_seq (db w)
    | None => file_operations_seq (db w) + 1
    end.
Proof.
  simpl. rewrite log_operation_run. by destruct (db_fault E LogOperation).
Qed.

Lemma after_update_statistics E cat a b c d w :
  let w' := snd (Db.update_statistics E cat a b c d w) in
  fs w' = fs w ∧ stats w' = stats w
  ∧ duplicate_hashes (db w') = duplicate_hashes (db w)
  ∧ file_operations (db w') = file_operations (db w)
  ∧ file_operations_seq (db w') = file_operations_seq (db w).
Proof.
  simpl. by destruct (update_statistics_run E cat a b c d w) as [st ->].
Qed.

Lemma log_operation_pair E fn orig dest cat kind size h ok err w :
  ∃ id, Db.log_operation E fn orig dest cat kind size h ok err w
        = (Ok id, snd (Db.log_operation E fn orig dest cat kind size h ok err w)).
Proof.
  destruct (total_log_operation E fn orig dest cat kind size h ok err w)
    as (id & w' & Heq).
  exists id. by rewrite Heq.
Qed.

Lemma update_statistics_pair E cat a b c d w :
  Db.update_statistics E cat a b c d w
  = (Ok tt, snd (Db.update_statistics E cat a b c d w)).
Proof. by destruct (update_statistics_run E cat a b c d w) as [st ->]. Qed.

Ltac settle :=
  run_monad;
  match goal with
  | |- context [Db.log_operation ?E ?a ?b ?c ?d ?e ?f ?g ?h ?i ?w] =>
      let id := fresh "id" in
      let Hlog := fresh "Hlog" in
      destruct (log_operation_pair E a b c d e f g h i w) as [id Hlog];
      rewrite Hlog; run_monad
  end;
  match goal with
  | |- context [Db.update_statistics ?E ?a ?b ?c ?d ?e ?w] =>
      rewrite (update_statistics_pair E a b c d e w); run_monad
  end;
  reflexivity.

(** ** The two successful ends of the pipeline *)

Section Ends.
Context {re : PyRe}.

(** The world after a file was moved to [dest], logged and counted. *)
Definition settled (E : env) (p dest : Path) (n : node) (f1 : gmap (list string) node)
    (bump : counters → counters) (cat kind : string) (size : Z)
    (h : option string) (dups : Z) (w : world) : world :=
  snd (Db.update_statistics E cat 1 size dups 0
         (snd (Db.log_operation E (name p) (to_str p) (to_str dest) cat kind size h
                 true None
                 (set_stats (bump (stats w))
                    (set_fs (<[dest := n]> (delete p f1)) w))))).

Lemma settled_spec E p dest n f1 bump cat kind size h dups w :
  let w' := settled E p dest n f1 bump cat kind size h dups w in
  fs w' = <[dest := n]> (delete p f1)
  ∧ stats w' = bump (stats w)
  ∧ duplicate_hashes (db w') = duplicate_hashes (db w)
  ∧ file_operations (db w') =
    match db_fault E LogOperation with
    | Some _ => file_operations (db w)
    | None =>
        file_operations (db w)
          ++ [Operation (file_operations_seq (db w) + 1) (now E) (name p) (to_str p)
                (to_str dest) cat kind size h true None true]
    end
  ∧ file_operations_seq (db w') =
    match db_fault E LogOperation with
    | Some _ => file_operations_seq (db w)
    | None => file_operations_seq (db w) + 1
    end.
Proof.
  unfold settled.
  destruct (after_update_statistics E cat 1 size dups 0
              (snd (Db.log_operation E (name p) (to_str p) (to_str dest) cat kind
                      size h true None
                      (set_stats (bump (stats w))
                         (set_fs (<[dest := n]> (delete p f1)) w)))))
    as (-> & -> & -> & -> & ->).
  destruct (after_log_operation E (name p) (to_str p) (to_str dest) cat kind size h
              true None
              (set_stats (bump (stats w)) (set_fs (<[dest := n]> (delete p f1)) w)))
    as (-> & -> & -> & -> & ->).
  done.
Qed.

(** A file that is classified, whose folder can be made and whose move
    goes through, ends as [Organized]. *)
Lemma file_normally_run self E p size h w st data c f1 :
  fs w !! p = Some (File st data) →
  FileOrganizer.classification self E p w = (Ok c, w) →
  let folder := joinpath (FileOrganizer.organized_folder (FileOrganizer.config self)) c in
  os_fault E (Mkdir folder) = None →
  Os.make_dirs E (Os.chain folder) (fs w) = Ok f1 →
  let dest := FileOrganizer._get_unique_path f1 (FileOrganizer.child folder (name p)) in
  os_fault E (Move p dest) = None →
  FileOrganizer.file_normally self E p size h w
  = (Ok (true, "Moved to " +:+ c, c, size),
     settled E p dest (File st data) f1 FileOrganizer.bump_processed c "organize"
       size h 0 w).
Proof.
  intros Hfile Hclass folder Hmkdir Hdirs dest Hmove.
  unfold FileOrganizer.file_normally, bind. rewrite Hclass. fold folder.
  rewrite (mkdir_run E folder w f1 Hmkdir Hdirs). unfold get_world.
  change (fs (set_fs f1 w)) with f1. fold dest.
  rewrite (move_file_run E p dest (set_fs f1 w) st data Hmove);
    [| by apply (make_dirs_keeps _ _ _ _ _ _ Hdirs)
     | apply _get_unique_path_free].
  unfold settled. settle.
Qed.

(** A duplicate whose folder can be made and whose move goes through ends
    as [Duplicate]. *)
Lemma file_duplicate_run self E p size h w st data f1 :
  fs w !! p = Some (File st data) →
  let folder := FileOrganizer.duplicate_folder (FileOrganizer.config self) in
  os_fault E (Mkdir folder) = None →
  Os.make_dirs E (Os.chain folder) (fs w) = Ok f1 →
  let dest := FileOrganizer._get_unique_path f1 (FileOrganizer.child folder (name p)) in
  os_fault E (Move p dest) = None →
  FileOrganizer.file_duplicate self E p size h w
  = (Ok (true, "Duplicate detected", "Duplicates", size),
     settled E p dest (File st data) f1
       (fun c => FileOrganizer.bump_processed (FileOrganizer.bump_duplicates c))
       "Duplicates" "duplicate" size (Some h) 1 w).
Proof.
  intros Hfile folder Hmkdir Hdirs dest Hmove.
  unfold FileOrganizer.file_duplicate, bind. fold folder.
  rewrite (mkdir_run E folder w f1 Hmkdir Hdirs). unfold get_world.
  change (fs (set_fs f1 w)) with f1. fold dest.
  rewrite (move_file_run E p dest (set_fs f1 w) st data Hmove);
    [| by apply (make_dirs_keeps _ _ _ _ _ _ Hdirs)
     | apply _get_unique_path_free].
  unfold settled. settle.
Qed.

End Ends.

(** ** What a computation preserves *)

(** [R] relates the world before to the world after, however [m] ends. *)
Definition preserves {A} (R : world → world → Prop) (m : M A) : Prop :=
  ∀ w, R w (snd (m w)).

Section Preserves.
Variable R : world → world → Prop.
Hypothesis R_refl : ∀ w, R w w.
Hypothesis R_trans : ∀ w1 w2 w3, R w1 w2 → R w2 w3 → R w1 w3.

Lemma preserves_ret {A} (a : A) : preserves R (ret a).
Proof. intros w. apply R_refl. Qed.

Lemma preserves_bind {A B} (m : M A) (k : A → M B) :
  preserves R m → (∀ a, preserves R (k a)) → preserves R (bind m k).
Proof.
  intros Hm Hk w. unfold bind. specialize (Hm w).
  destruct (m w) as [[a|e] w1]; [|exact Hm].
  eapply R_trans; [exact Hm | apply Hk].
Qed.

Lemma preserves_try_except {A} (m : M A) h :
  preserves R m → (∀ e, preserves R (h e)) → preserves R (try_except m h).
Proof.
  intros Hm Hh w. unfold try_except. specialize (Hm w).
  destruct (m w) as [[a|e] w1]; [exact Hm|].
  eapply R_trans; [exact Hm | apply Hh].
Qed.

Lemma preserves_attempt {A B} (m : M A) h (k : A → M B) :
  preserves R m → (∀ e, preserves R (h e)) → (∀ a, preserves R (k a)) →
  preserves R (attempt m h k).
Proof.
  intros Hm Hh Hk w. unfold attempt. specialize (Hm w).
  destruct (m w) as [[a|e] w1];
    (eapply R_trans; [exact Hm | first [apply Hk | apply Hh]]).
Qed.

Lemma preserves_answers {A} (m : M A) :
  (∀ w, ∃ a, m w = (Ok a, w)) → preserves R m.
Proof. intros Hm w. destruct (Hm w) as [a ->]. apply R_refl. Qed.

End Preserves.

(** The duplicate index is the same. *)
Definition same_index (w w' : world) : Prop :=
  duplicate_hashes (db w') = duplicate_hashes (db w).

Lemma same_index_refl w : same_index w w.
Proof. done. Qed.

Lemma same_index_trans w1 w2 w3 :
  same_index w1 w2 → same_index w2 w3 → same_index w1 w3.
Proof. unfold same_index. congruence. Qed.

Lemma same_index_os {A} (m : M A) :
  (∀ w, db (snd (m w)) = db w) → preserves same_index m.
Proof. intros Hm w. unfold same_index. by rewrite Hm. Qed.

Lemma db_after_stat E p w : db (snd (Os.stat E p w)) = db w.
Proof.
  unfold Os.stat. destruct (os_fault E (Stat p)); [done|]. by destruct (fs w !! p).
Qed.

Lemma db_after_mkdir E p w : db (snd (Os.mkdir E p w)) = db w.
Proof.
  unfold Os.mkdir. destruct (os_fault E (Mkdir p)); [done|].
  by destruct (Os.make_dirs E (Os.chain p) (fs w)).
Qed.

Lemma db_after_move E src dst w : db (snd (Os.move E src dst w)) = db w.
Proof.
  unfold Os.move. destruct (os_fault E (Move src dst)); [done|].
  destruct (fs w !! src) as [[]|]; [| |done].
  - by destruct (_ && Os.exists_ _ _).
  - destruct (_ && Os.exists_ _ _); [done|]. by destruct (_ && negb _).
Qed.

Lemma db_after_compute_hash E p w :
  db (snd (DuplicateDetector.compute_hash E p w)) = db w.
Proof.
  unfold DuplicateDetector.compute_hash, bind, Os.read_file.
  destruct (os_fault E (OpenRead p)); [done|]. by destruct (fs w !! p) as [[]|].
Qed.

Section Index.
Context {re : PyRe}.

Local Abbreviation keeps := (preserves same_index).

Lemma keeps_log_operation E fn orig dest cat kind size h ok err :
  keeps (Db.log_operation E fn orig dest cat kind size h ok err).
Proof. intros w. apply after_log_operation. Qed.

Lemma keeps_update_statistics E cat a b c d :
  keeps (Db.update_statistics E cat a b c d).
Proof. intros w. apply after_update_statistics. Qed.

Ltac keeps_step :=
  first
    [ apply (preserves_answers _ same_index_refl), classification_answers
    | apply (preserves_bind _ same_index_trans); [|intros ?]
    | apply (preserves_ret _ same_index_refl)
    | apply keeps_log_operation
    | apply keeps_update_statistics
    | apply same_index_os; intros ?; apply db_after_mkdir
    | apply same_index_os; intros ?; apply db_after_move
    | apply same_index_os; intros ?; apply db_after_stat
    | apply same_index_os; intros ?; apply db_after_compute_hash
    | apply same_index_os; intros ?; reflexivity ].

Lemma keeps_on_exception E p size h e :
  keeps (FileOrganizer.on_exception E p size h e).
Proof. unfold FileOrganizer.on_exception. repeat keeps_step. Qed.

Lemma keeps_file_normally self E p size h :
  keeps (FileOrganizer.file_normally self E p size h).
Proof. unfold FileOrganizer.file_normally. repeat keeps_step. Qed.

Lemma keeps_file_duplicate self E p size h :
  keeps (FileOrganizer.file_duplicate self E p size h).
Proof. unfold FileOrganizer.file_duplicate. repeat keeps_step. Qed.

Lemma keeps_normal_path self E p size h :
  keeps (try_except (FileOrganizer.file_normally self E p size h)
           (FileOrganizer.on_exception E p size h)).
Proof.
  apply (preserves_try_except _ same_index_trans);
    [apply keeps_file_normally | intros e; apply keeps_on_exception].
Qed.

Lemma keeps_duplicate_path self E p size h :
  keeps (try_except (FileOrganizer.file_duplicate self E p size h)
           (FileOrganizer.on_exception E p size (Some h))).
Proof.
  apply (preserves_try_except _ same_index_trans);
    [apply keeps_file_duplicate | intros e; apply keeps_on_exception].
Qed.

End Index.

(** ** The duplicate check *)

(** The world after a repeat sighting, and after a first sighting. *)
Definition sighted_again (E : env) (h : string) (existing : duplicate_hash)
    (w : world) : world :=
  set_db (Database (file_operations (db w)) (file_operations_seq (db w))
            (<[h := DuplicateHash (dh_original_path existing) (dh_file_size existing)
                      (dh_first_seen existing) (now E)
                      (dh_duplicate_count existing + 1)]> (duplicate_hashes (db w)))
            (statistics (db w))) w.

Definition sighted_first (E : env) (h path : string) (size : Z) (w : world) : world :=
  set_db (Database (file_operations (db w)) (file_operations_seq (db w))
            (<[h := DuplicateHash path size (now E) (now E) 0]> (duplicate_hashes (db w)))
            (statistics (db w))) w.

Lemma compute_hash_run E p w st data :
  os_fault E (OpenRead p) = None →
  fs w !! p = Some (File st data) →
  DuplicateDetector.compute_hash E p w = (Ok (sha256 data), w).
Proof.
  intros Hfault Hfile. unfold DuplicateDetector.compute_hash, bind, Os.read_file.
  by rewrite Hfault, Hfile.
Qed.

Section DuplicateCheck.
Context {re : PyRe}.

Lemma check_duplicates_run self E p size w st data :
  fs w !! p = Some (File st data) →
  os_fault E (OpenRead p) = None →
  let h := sha256 data in
  FileOrganizer.check_duplicates self E p size w =
  match db_fault E AddDuplicateHash with
  | Some _ =>
      try_except (FileOrganizer.file_normally self E p size (Some h))
        (FileOrganizer.on_exception E p size (Some h)) w
  | None =>
      match duplicate_hashes (db w) !! h with
      | Some existing =>
          try_except (FileOrganizer.file_duplicate self E p size h)
            (FileOrganizer.on_exception E p size (Some h))
            (sighted_again E h existing w)
      | None =>
          try_except (FileOrganizer.file_normally self E p size (Some h))
            (FileOrganizer.on_exception E p size (Some h))
            (sighted_first E h (to_str p) size w)
      end
  end.
Proof.
  intros Hfile Hread h.
  unfold FileOrganizer.check_duplicates, attempt.
  rewrite (compute_hash_run E p w st data Hread Hfile). fold h.
  unfold try_except at 1. unfold bind. rewrite add_duplicate_hash_run.
  destruct (db_fault E AddDuplicateHash); [reflexivity|].
  destruct (duplicate_hashes (db w) !! h); reflexivity.
Qed.

End DuplicateCheck.

(** C10.  When the transaction of [add_duplicate_hash] fails, the call
    returns [False] and leaves the index as it was.  [organize_file] then
    treats the file as seen for the first time: it runs the normal path
    (classification, move, log), its outcome is [Organized] (or [Error] when
    a later step fails) and never [Duplicate], and the duplicate index still
    has no more entries than before; with a folder that can be made and a
    move that goes through the file lands in the folder of its category. *)
Theorem upsert_failure_reads_as_first_seen (re : PyRe) (self : FileOrganizer.t)
    (E : env) (p : Path) (w : world) (st : stat_result) (data : content)
    (failure : string) :
  fs w !! p = Some (File st data) →
  os_fault E (Stat p) = None →
  os_fault E (OpenRead p) = None →
  FileOrganizer.too_large self (st_size st) = false →
  FileOrganizer.enable_duplicates (FileOrganizer.config self) = true →
  db_fault E AddDuplicateHash = Some failure →
  let h := sha256 data in
  let run := FileOrganizer.organize_file self E p w in
  Db.add_duplicate_hash E h (to_str p) (st_size st) w = (Ok false, w)
  ∧ run = try_except (FileOrganizer.file_normally self E p (st_size st) (Some h))
            (FileOrganizer.on_exception E p (st_size st) (Some h)) w
  ∧ duplicate_hashes (db (snd run)) = duplicate_hashes (db w)
  ∧ (∃ r, fst run = Ok r ∧ (outcome r = Some Organized ∨ outcome r = Some Error))
  ∧ (∀ c f1,
       FileOrganizer.classification self E p w = (Ok c, w) →
       let folder :=
         joinpath (FileOrganizer.organized_folder (FileOrganizer.config self)) c in
       let dest := FileOrganizer._get_unique_path f1
                     (FileOrganizer.child folder (name p)) in
       os_fault E (Mkdir folder) = None →
       Os.make_dirs E (Os.chain folder) (fs w) = Ok f1 →
       os_fault E (Move p dest) = None →
       fst run = Ok (true, "Moved to " +:+ c, c, st_size st)
       ∧ fs (snd run) = <[dest := File st data]> (delete p f1)).
Proof.
  intros Hfile Hstat Hread Hsize Hdups Hfault h run.
  assert (run = try_except
                  (FileOrganizer.file_normally self E p (st_size st) (Some h))
                  (FileOrganizer.on_exception E p (st_size st) (Some h)) w) as Hrun.
  { unfold run. rewrite (organize_file_at_file self E p w st data Hfile Hstat).
    unfold FileOrganizer.organize_sized. rewrite Hsize, Hdups.
    rewrite (check_duplicates_run self E p (st_size st) w st data Hfile Hread).
    by rewrite Hfault. }
  split; [by rewrite add_duplicate_hash_run, Hfault|].
  split; [exact Hrun|]. split; [|split].
  - rewrite Hrun. apply keeps_normal_path.
  - destruct (total_organize_file self E p w) as (r & w' & Hres).
    fold run in Hres. exists r. rewrite Hres. split; [reflexivity|].
    rewrite Hrun in Hres.
    pose proof (yields_try_except
                  (fun r => outcome r = Some Organized ∨ outcome r = Some Error)
                  (FileOrganizer.file_normally self E p (st_size st) (Some h))
                  (FileOrganizer.on_exception E p (st_size st) (Some h))) as Hy.
    eapply Hy; [| |exact Hres].
    + intros w0 r0 w0' Hr0.
      destruct (file_normally_outcome self E p (st_size st) (Some h) w0 r0 w0' Hr0).
      by left.
    + intros e w0 r0 w0' Hr0.
      destruct (on_exception_outcome E p (st_size st) (Some h) e w0 r0 w0' Hr0).
      by right.
  - intros c f1 Hclass folder dest Hmkdir Hdirs Hmove. rewrite Hrun.
    unfold try_except.
    rewrite (file_normally_run self E p (st_size st) (Some h) w st data c f1
               Hfile Hclass Hmkdir Hdirs Hmove).
    split; [reflexivity|]. apply settled_spec.
Qed.

Lemma upsert_failure_reads_as_first_seen_witness :
  let E := Env 0 (fun _ => None)
             (fun c => match c with
                       | AddDuplicateHash => Some "database is locked"
                       | _ => None
                       end) true in
  let p := ["home"; "u"; "Inbox"; "notes.bin"] in
  let w := one_file p 100 "ab12" in
  let run := @FileOrganizer.organize_file Re.engine (plain_organizer 10 true) E p w in
  db_fault E AddDuplicateHash = Some "database is locked"
  ∧ duplicate_hashes (db (snd run)) = duplicate_hashes (db w).
Proof.
  split; [reflexivity|].
  refine (proj1 (proj2 (proj2
            (upsert_failure_reads_as_first_seen Re.engine (plain_organizer 10 true)
               (Env 0 (fun _ => None)
                  (fun c => match c with
                            | AddDuplicateHash => Some "database is locked"
                            | _ => None
                            end) true)
               ["home"; "u"; "Inbox"; "notes.bin"]
               (one_file ["home"; "u"; "Inbox"; "notes.bin"] 100 "ab12")
               (StatResult 100 0) (blank "ab12") "database is locked"
               _ _ _ _ _ _)))); reflexivity.
Defined.

(** ** Rule precedence *)

Section Precedence.
Context {re : PyRe}.

Lemma classification_by_rule self E p w engine target :
  FileOrganizer.rules_engine self = Some engine →
  RulesEngine.apply_rules engine E p (tier1_metadata self p w) w
  = (Ok (Some target), w) →
  target ≠ "" →
  FileOrganizer.classification self E p w = (Ok target, w).
Proof.
  intros Hengine Hrule Hne.
  assert (PyStr.truthy target = true) as Htruthy by (by destruct target).
  unfold FileOrganizer.classification, bind.
  destruct (tier1_run self E p w engine Hengine) as (o & Ho & ->).
  rewrite Hrule in Ho. injection Ho as <-.
  cbn [FileOrganizer.given fst snd]. rewrite Htruthy.
  destruct (tier2_answers self p (Some target) (tier1_metadata self p w) w)
    as (o2 & -> & Hkeep).
  rewrite Hkeep by done. unfold ret. by rewrite tier3_of_given.
Qed.

Lemma classification_without_rule self E p w engine o :
  FileOrganizer.rules_engine self = Some engine →
  RulesEngine.apply_rules engine E p (tier1_metadata self p w) w = (Ok o, w) →
  FileOrganizer.given o = false →
  ∃ o2, FileOrganizer.tier2 self p None (tier1_metadata self p w) w = (Ok o2, w)
        ∧ FileOrganizer.classification self E p w
          = (Ok (FileOrganizer.tier3 self p o2), w).
Proof.
  intros Hengine Hrule Hnone.
  unfold FileOrganizer.classification, bind.
  destruct (tier1_run self E p w engine Hengine) as (o' & Ho & ->).
  rewrite Hrule in Ho. injection Ho as <-. rewrite Hnone. cbn [fst snd].
  destruct (tier2_answers self p None (tier1_metadata self p w) w)
    as (o2 & Heq & _).
  exists o2. by rewrite Heq.
Qed.

End Precedence.

(** C1, as amended.  With a rules engine configured, a file that reaches
    classification gets the target folder of the first rule of the list that
    matches it, provided that target is not the empty string: neither the
    suggestion of the content analyzer nor the tables of the classifier are
    asked, whatever they would say, and with a folder that can be made and a
    move that goes through the file is organized under that category.  The
    lower tiers decide when no rule matches, and also when the first matching
    rule has an empty target. *)
Theorem rule_precedence (re : PyRe) (self : FileOrganizer.t) (E : env) (p : Path)
    (w : world) (engine : RulesEngine.t) (st : stat_result) (data : content) :
  FileOrganizer.rules_engine self = Some engine →
  fs w !! p = Some (File st data) →
  let md := tier1_metadata self p w in
  (∀ pre r post,
     RulesEngine.rules engine = pre ++ r :: post →
     Forall (fun q => RulesEngine.matches q E p md w = (Ok false, w)) pre →
     RulesEngine.matches r E p md w = (Ok true, w) →
     (RulesEngine.target_folder r ≠ "" →
        FileOrganizer.classification self E p w = (Ok (RulesEngine.target_folder r), w)
        ∧ ∀ size h f1,
            let folder :=
              joinpath (FileOrganizer.organized_folder (FileOrganizer.config self))
                (RulesEngine.target_folder r) in
            let dest := FileOrganizer._get_unique_path f1
                          (FileOrganizer.child folder (name p)) in
            os_fault E (Mkdir folder) = None →
            Os.make_dirs E (Os.chain folder) (fs w) = Ok f1 →
            os_fault E (Move p dest) = None →
            FileOrganizer.file_normally self E p size h w
            = (Ok (true, "Moved to " +:+ RulesEngine.target_folder r,
                   RulesEngine.target_folder r, size),
               settled E p dest (File st data) f1 FileOrganizer.bump_processed
                 (RulesEngine.target_folder r) "organize" size h 0 w))
     ∧ (RulesEngine.target_folder r = "" →
        ∃ o2, FileOrganizer.tier2 self p None md w = (Ok o2, w)
              ∧ FileOrganizer.classification self E p w
                = (Ok (FileOrganizer.tier3 self p o2), w)))
  ∧ (Forall (fun q => RulesEngine.matches q E p md w = (Ok false, w))
       (RulesEngine.rules engine) →
     ∃ o2, FileOrganizer.tier2 self p None md w = (Ok o2, w)
           ∧ FileOrganizer.classification self E p w
             = (Ok (FileOrganizer.tier3 self p o2), w)).
Proof.
  intros Hengine Hfile md. split.
  - intros pre r post Hrules Hpre Hr.
    assert (RulesEngine.apply_rules engine E p md w
            = (Ok (Some (RulesEngine.target_folder r)), w)) as Happly.
    { unfold RulesEngine.apply_rules. rewrite Hrules.
      by apply first_match_found. }
    split.
    + intros Hne.
      pose proof (classification_by_rule self E p w engine _ Hengine Happly Hne)
        as Hclass.
      split; [exact Hclass|].
      intros size h f1 folder dest Hmkdir Hdirs Hmove.
      by apply file_normally_run.
    + intros Hempty.
      apply (classification_without_rule self E p w engine _ Hengine Happly).
      by rewrite Hempty.
  - intros Hnone.
    apply (classification_without_rule self E p w engine None Hengine); [|done].
    by apply first_match_none.
Qed.

Definition invoice_rule : RulesEngine.Rule :=
  RulesEngine.MkRule 3 "Invoices" "*invoice*" "Finance/Invoices"
    (RulesEngine.Conditions None None None None (Some [".pdf"]) None None) 8 true.

Definition ruled_organizer (rs : list RulesEngine.Rule) : FileOrganizer.t :=
  FileOrganizer.Make (plain_config 1000 false)
    (Some (ContentAnalyzer.Make false true)) (Some (RulesEngine.Make rs)).

Definition invoice_world : world :=
  one_file ["home"; "u"; "Inbox"; "March_invoice.pdf"] 4096 "e5".

Lemma rule_precedence_witness :
  FileClassifier.classify ["home"; "u"; "Inbox"; "March_invoice.pdf"] false = "Documents"
  ∧ RulesEngine.target_folder invoice_rule ≠ ""
  ∧ @FileOrganizer.classification Re.engine (ruled_organizer [invoice_rule]) quiet
      ["home"; "u"; "Inbox"; "March_invoice.pdf"] invoice_world
    = (Ok "Finance/Invoices", invoice_world).
Proof.
  split; [reflexivity|]. split; [discriminate|].
  refine (proj1 (proj1 (proj1 (rule_precedence Re.engine (ruled_organizer [invoice_rule])
                                 quiet ["home"; "u"; "Inbox"; "March_invoice.pdf"]
                                 invoice_world (RulesEngine.Make [invoice_rule])
                                 (StatResult 4096 0) (blank "e5") _ _)
                          [] invoice_rule [] _ _ _) _));
    [reflexivity | reflexivity | reflexivity | constructor | reflexivity | discriminate].
Defined.

Definition blank_target_rule : RulesEngine.Rule :=
  RulesEngine.MkRule 9 "Reports" "*.pdf" "" RulesEngine.no_conditions 8 true.

(** C1, as stated, fails: an enabled rule that matches but has the empty
    string as target folder does not decide the category; the extension
    table does. *)
Lemma empty_target_falls_through :
  let p := ["home"; "u"; "Inbox"; "report.pdf"] in
  let w := one_file p 4096 "f6" in
  let self := ruled_organizer [blank_target_rule] in
  @RulesEngine.matches Re.engine blank_target_rule quiet p
    (tier1_metadata self p w) w = (Ok true, w)
  ∧ @RulesEngine.apply_rules Re.engine (RulesEngine.Make [blank_target_rule]) quiet p
      (tier1_metadata self p w) w = (Ok (Some ""), w)
  ∧ @FileOrganizer.classification Re.engine self quiet p w = (Ok "Documents", w)
  ∧ FileClassifier.classify_by_extension p = "Documents"
  ∧ fst (@FileOrganizer.organize_file Re.engine self quiet p w)
    = Ok (true, "Moved to Documents", "Documents", 4096).
Proof. vm_compute. repeat split. Qed.

(** ** Duplicates *)

(** C2, as amended.  With duplicate detection on, for a regular file within
    the size limit whose digest is computed and whose sighting is recorded
    without a failure of the index:
    - when the digest is in the index, and the duplicate folder can be made
      and the move goes through, the outcome is [Duplicate]; the file is
      moved to a path in the duplicate folder at which nothing existed (its
      own name, or that name with a counter); the entry of that digest has
      its counter increased by one, its last-seen time refreshed and its
      recorded first-seen path unchanged, and no other entry changes; every
      other file stays where it is (only the file handed to [organize_file]
      leaves its path, also when that path is the recorded one);
    - when the digest is new, the sighting is inserted with counter zero,
      the call of the index reports no duplicate, and the file goes through
      classification, to end as [Organized] (or [Error]). *)
Theorem duplicate_detection (re : PyRe) (self : FileOrganizer.t) (E : env)
    (p : Path) (w : world) (st : stat_result) (data : content) :
  fs w !! p = Some (File st data) →
  os_fault E (Stat p) = None →
  os_fault E (OpenRead p) = None →
  FileOrganizer.too_large self (st_size st) = false →
  FileOrganizer.enable_duplicates (FileOrganizer.config self) = true →
  db_fault E AddDuplicateHash = None →
  let h := sha256 data in
  let size := st_size st in
  let run := FileOrganizer.organize_file self E p w in
  (∀ existing f1,
     duplicate_hashes (db w) !! h = Some existing →
     let folder := FileOrganizer.duplicate_folder (FileOrganizer.config self) in
     let dest := FileOrganizer._get_unique_path f1
                   (FileOrganizer.child folder (name p)) in
     os_fault E (Mkdir folder) = None →
     Os.make_dirs E (Os.chain folder) (fs w) = Ok f1 →
     os_fault E (Move p dest) = None →
     fst (Db.add_duplicate_hash E h (to_str p) size w) = Ok true
     ∧ fst run = Ok (true, "Duplicate detected", "Duplicates", size)
     ∧ outcome (true, "Duplicate detected", "Duplicates", size) = Some Duplicate
     ∧ fs (snd run) = <[dest := File st data]> (delete p f1)
     ∧ fs (snd run) !! dest = Some (File st data)
     ∧ fs (snd run) !! p = None
     ∧ parent dest = folder
     ∧ fs w !! dest = None
     ∧ (dest = FileOrganizer.child folder (name p)
        ∨ ∃ k, (1 ≤ k)%nat
               ∧ dest = FileOrganizer.numbered (FileOrganizer.child folder (name p)) k)
     ∧ duplicate_hashes (db (snd run))
       = <[h := DuplicateHash (dh_original_path existing) (dh_file_size existing)
                 (dh_first_seen existing) (now E)
                 (dh_duplicate_count existing + 1)]> (duplicate_hashes (db w))
     ∧ (∀ q n, q ≠ p → fs w !! q = Some n → fs (snd run) !! q = Some n))
  ∧ (duplicate_hashes (db w) !! h = None →
     fst (Db.add_duplicate_hash E h (to_str p) size w) = Ok false
     ∧ run = try_except (FileOrganizer.file_normally self E p size (Some h))
               (FileOrganizer.on_exception E p size (Some h))
               (sighted_first E h (to_str p) size w)
     ∧ duplicate_hashes (db (snd run))
       = <[h := DuplicateHash (to_str p) size (now E) (now E) 0]>
           (duplicate_hashes (db w))
     ∧ ∃ r, fst run = Ok r ∧ (outcome r = Some Organized ∨ outcome r = Some Error)).
Proof.
  intros Hfile Hstat Hread Hsize Hdups Hfault h size run.
  assert (run = FileOrganizer.check_duplicates self E p size w) as Hrun.
  { unfold run. rewrite (organize_file_at_file self E p w st data Hfile Hstat).
    unfold FileOrganizer.organize_sized. by rewrite Hsize, Hdups. }
  rewrite (check_duplicates_run self E p size w st data Hfile Hread) in Hrun.
  rewrite Hfault in Hrun. fold h in Hrun. split.
  - intros existing f1 Hseen folder dest Hmkdir Hdirs Hmove.
    rewrite Hseen in Hrun.
    assert (f1 !! dest = None) as Hfree by apply _get_unique_path_free.
    assert (f1 !! p = Some (File st data)) as Hkept
      by (by apply (make_dirs_keeps _ _ _ _ _ _ Hdirs)).
    assert (p ≠ dest) as Hne by (intros Heq; rewrite Heq in Hkept; congruence).
    unfold try_except in Hrun.
    rewrite (file_duplicate_run self E p size h (sighted_again E h existing w)
               st data f1 Hfile Hmkdir Hdirs Hmove) in Hrun.
    destruct (settled_spec E p dest (File st data) f1
                (fun c => FileOrganizer.bump_processed (FileOrganizer.bump_duplicates c))
                "Duplicates" "duplicate" size (Some h) 1 (sighted_again E h existing w))
      as (Hfs & _ & Hidx & _).
    rewrite Hrun. cbn [fst snd]. fold folder. fold dest. rewrite Hfs, Hidx.
    split; [by rewrite add_duplicate_hash_run, Hfault, Hseen|].
    split; [reflexivity|]. split; [reflexivity|]. split; [reflexivity|].
    split; [by rewrite lookup_insert_eq|].
    split; [by rewrite lookup_insert_ne, lookup_delete_eq|].
    split; [apply _get_unique_path_parent|].
    split.
    { destruct (fs w !! dest) eqn:Hold; [|done].
      rewrite (make_dirs_keeps _ _ _ _ _ _ Hdirs Hold) in Hfree. done. }
    split; [apply _get_unique_path_name|].
    split; [reflexivity|].
    intros q n Hq Hqn.
    assert (f1 !! q = Some n) as Hq1 by (by apply (make_dirs_keeps _ _ _ _ _ _ Hdirs)).
    rewrite lookup_insert_ne by (intros <-; congruence).
    by rewrite lookup_delete_ne.
  - intros Hnew. rewrite Hnew in Hrun.
    split; [by rewrite add_duplicate_hash_run, Hfault, Hnew|].
    split; [exact Hrun|]. split.
    + rewrite Hrun.
      pose proof (keeps_normal_path self E p size (Some h)
                    (sighted_first E h (to_str p) size w)) as Hkeep.
      unfold same_index in Hkeep. rewrite Hkeep. reflexivity.
    + destruct (total_organize_file self E p w) as (r & w' & Hres).
      fold run in Hres. exists r. rewrite Hres. split; [reflexivity|].
      rewrite Hrun in Hres.
      pose proof (yields_try_except
                    (fun r => outcome r = Some Organized ∨ outcome r = Some Error)
                    (FileOrganizer.file_normally self E p size (Some h))
                    (FileOrganizer.on_exception E p size (Some h))) as Hy.
      eapply Hy; [| |exact Hres].
      * intros w0 r0 w0' Hr0.
        destruct (file_normally_outcome self E p size (Some h) w0 r0 w0' Hr0).
        by left.
      * intros e w0 r0 w0' Hr0.
        destruct (on_exception_outcome E p size (Some h) e w0 r0 w0' Hr0).
        by right.
Qed.

(** ** Paths and their strings *)

(** A component of a normalized path: not empty, not [.], no separator. *)
Definition wf_name (s : string) : bool :=
  keep_part s && negb (PyStr.has_char "/" s).

Definition wf_path (p : Path) : bool := forallb wf_name p.








Lemma wf_path_app (a b : Path) : wf_path (a ++ b) = wf_path a && wf_path b.
Proof. apply forallb_app. Qed.




Lemma wf_parent (p : Path) : wf_path p = true → wf_path (parent p) = true.
Proof.
  intros Hwf. unfold parent. destruct (decide (p = [])) as [->|Hne]; [done|].
  destruct (exists_last Hne) as (l & x & ->). rewrite removelast_last.
  rewrite wf_path_app in Hwf. by apply andb_true_iff in Hwf as [? _].
Qed.







Lemma name_child (folder : Path) nm : name (FileOrganizer.child folder nm) = nm.
Proof. unfold name, FileOrganizer.child. by rewrite last_last. Qed.



(** ** A successful call of [organize_file], read backwards *)

Section Success.
Context {re : PyRe}.






End Success.

(** ** Undo *)






Lemma set_can_undo_other id o : op_id o ≠ id → Db.set_can_undo id o = o.
Proof.
  intros Hne. unfold Db.set_can_undo.
  destruct (Z.eqb_spec (op_id o) id); [done | reflexivity].
Qed.



(** A watched folder with one file in it. *)
Definition inbox_world (nm : string) (size : Z) (digest : string) : world :=
  MkWorld
    (<[["home"; "u"; "Inbox"; nm] := File (StatResult size 0) (blank digest)]>
       (<[["home"; "u"; "Inbox"] := Dir (StatResult 4096 0)]>
          (<[["home"; "u"] := Dir (StatResult 4096 0)]>
             (<[["home"] := Dir (StatResult 4096 0)]> ∅))))
    empty_database (Counters 0 0 0).

Definition after_organize (self : FileOrganizer.t) (p : Path) (w : world) : world :=
  snd (@FileOrganizer.organize_file Re.engine self quiet p w).




(** A file whose digest the index already holds, recorded from another path. *)
Definition seen_before_world : world :=
  MkWorld
    (<[["home"; "u"; "Inbox"; "copy.bin"] := File (StatResult 100 0) (blank "77")]>
       (<[["home"; "u"; "Inbox"] := Dir (StatResult 4096 0)]> ∅))
    (Database [] 0
       (<["77" := DuplicateHash "/home/u/Inbox/first.bin" 100 5 5 0]> ∅) ∅)
    (Counters 0 0 0).

Lemma duplicate_detection_witness :
  let p := ["home"; "u"; "Inbox"; "copy.bin"] in
  let run := @FileOrganizer.organize_file Re.engine (plain_organizer 10 true) quiet p
               seen_before_world in
  duplicate_hashes (db seen_before_world) !! "77"
  = Some (DuplicateHash "/home/u/Inbox/first.bin" 100 5 5 0)
  ∧ fst run = Ok (true, "Duplicate detected", "Duplicates", 100).
Proof.
  split; [reflexivity|].
  refine (proj1 (proj2 (proj1
            (duplicate_detection Re.engine (plain_organizer 10 true) quiet
               ["home"; "u"; "Inbox"; "copy.bin"] seen_before_world
               (StatResult 100 0) (blank "77") _ _ _ _ _ _)
            (DuplicateHash "/home/u/Inbox/first.bin" 100 5 5 0)
            (<[["home"; "u"; "Duplicates"] := Os.new_dir quiet]>
               (<[["home"; "u"] := Os.new_dir quiet]>
                  (<[["home"] := Os.new_dir quiet]> (fs seen_before_world))))
            _ _ _ _))); reflexivity.
Defined.

(** C2, as stated, fails for the first-seen file itself.  A file is
    organized (its digest is recorded with its path), the operation is
    undone (the file is back at the recorded path), and the file is handed
    to [organize_file] again: its digest is in the index, so it is moved to
    the duplicate folder and the recorded path is left empty. *)
Lemma first_seen_file_becomes_its_own_duplicate :
  let p := ["home"; "u"; "Inbox"; "song.mp3"] in
  let self := plain_organizer 10 true in
  let w0 := inbox_world "song.mp3" 5000 "9f" in
  let w1 := after_organize self p w0 in
  let w2 := snd (HistoryViewer.undo_operation quiet 1 w1) in
  let run := @FileOrganizer.organize_file Re.engine self quiet p w2 in
  dh_original_path <$> duplicate_hashes (db w2) !! "9f" = Some (to_str p)
  ∧ fs w2 !! p = fs w0 !! p
  ∧ fs w2 !! p = Some (File (StatResult 5000 0) (blank "9f"))
  ∧ fst run = Ok (true, "Duplicate detected", "Duplicates", 5000)
  ∧ fs (snd run) !! p = None
  ∧ fs (snd run) !! ["home"; "u"; "Duplicates"; "song.mp3"]
    = Some (File (StatResult 5000 0) (blank "9f"))
  ∧ dh_duplicate_count <$> duplicate_hashes (db (snd run)) !! "9f" = Some 1.
Proof. vm_compute. repeat split. Qed.

(** * The pipeline, end to end *)

(** ** The handler of the exceptions *)


Section Handler.
Context {re : PyRe}.

(** The world the handler leaves. *)
Definition failed (E : env) (p : Path) (size : Z) (h : option string) (e : exn)
    (w : world) : world :=
  snd (Db.update_statistics E "Errors" 0 0 0 1
         (snd (Db.log_operation E (name p) (to_str p) "" "" "organize" size h
                 false (Some (str e))
                 (set_stats (FileOrganizer.bump_errors (stats w)) w)))).

Lemma on_exception_run E p size h e w :
  FileOrganizer.on_exception E p size h e w
  = (Ok (false, "Error: " +:+ str e, "", size), failed E p size h e w).
Proof. unfold FileOrganizer.on_exception, failed. settle. Qed.

Lemma failed_spec E p size h e w :
  let w' := failed E p size h e w in
  fs w' = fs w
  ∧ stats w' = FileOrganizer.bump_errors (stats w)
  ∧ duplicate_hashes (db w') = duplicate_hashes (db w)
  ∧ file_operations (db w') =
    match db_fault E LogOperation with
    | Some _ => file_operations (db w)
    | None =>
        file_operations (db w)
          ++ [Operation (file_operations_seq (db w) + 1) (now E) (name p) (to_str p)
                "" "" "organize" size h false (Some (str e)) true]
    end
  ∧ file_operations_seq (db w') =
    match db_fault E LogOperation with
    | Some _ => file_operations_seq (db w)
    | None => file_operations_seq (db w) + 1
    end.
Proof.
  unfold failed.
  destruct (after_update_statistics E "Errors" 0 0 0 1
              (snd (Db.log_operation E (name p) (to_str p) "" "" "organize" size h
                      false (Some (str e))
                      (set_stats (FileOrganizer.bump_errors (stats w)) w))))
    as (-> & -> & -> & -> & ->).
  destruct (after_log_operation E (name p) (to_str p) "" "" "organize" size h
              false (Some (str e))
              (set_stats (FileOrganizer.bump_errors (stats w)) w))
    as (-> & -> & -> & -> & ->).
  done.
Qed.

End Handler.

Section Placing.
Context {re : PyRe}.

(** Making the folder, choosing the name, moving, counting and logging,
    under the handler: the four ways this can end. *)
Definition place (E : env) (p folder : Path) (n : node) (size : Z)
    (h : option string) (bump : counters → counters) (cat kind : string)
    (dups : Z) (done_ : FileOrganizer.result) (w : world)
  : res FileOrganizer.result * world :=
  match os_fault E (Mkdir folder) with
  | Some err =>
      FileOrganizer.on_exception E p size h (OSError err (to_str folder)) w
  | None =>
      match Os.make_dirs E (Os.chain folder) (fs w) with
      | Raise e => FileOrganizer.on_exception E p size h e w
      | Ok f1 =>
          let dest := FileOrganizer._get_unique_path f1
                        (FileOrganizer.child folder (name p)) in
          match os_fault E (Move p dest) with
          | Some err =>
              FileOrganizer.on_exception E p size h (OSError err (to_str p))
                (set_fs f1 w)
          | None =>
              (Ok done_, settled E p dest n f1 bump cat kind size h dups w)
          end
      end
  end.

Lemma file_normally_place self E p size h w st data c :
  fs w !! p = Some (File st data) →
  FileOrganizer.classification self E p w = (Ok c, w) →
  try_except (FileOrganizer.file_normally self E p size h)
    (FileOrganizer.on_exception E p size h) w
  = place E p (joinpath (FileOrganizer.organized_folder (FileOrganizer.config self)) c)
      (File st data) size h FileOrganizer.bump_processed c "organize" 0
      (true, "Moved to " +:+ c, c, size) w.
Proof.
  intros Hfile Hclass. unfold place.
  set (folder := joinpath _ c).
  destruct (os_fault E (Mkdir folder)) as [err|] eqn:Hmkdir.
  { unfold try_except, FileOrganizer.file_normally, bind. rewrite Hclass.
    fold folder. unfold Os.mkdir. by rewrite Hmkdir. }
  destruct (Os.make_dirs E (Os.chain folder) (fs w)) as [f1|e] eqn:Hdirs.
  2:{ unfold try_except, FileOrganizer.file_normally, bind. rewrite Hclass.
      fold folder. unfold Os.mkdir. by rewrite Hmkdir, Hdirs. }
  cbv zeta.
  set (dest := FileOrganizer._get_unique_path f1 _).
  destruct (os_fault E (Move p dest)) as [err|] eqn:Hmove.
  { unfold try_except, FileOrganizer.file_normally, bind. rewrite Hclass.
    fold folder. rewrite (mkdir_run E folder w f1 Hmkdir Hdirs).
    unfold get_world. change (fs (set_fs f1 w)) with f1. fold dest.
    unfold Os.move. by rewrite Hmove. }
  unfold try_except.
  by rewrite (file_normally_run self E p size h w st data c f1 Hfile Hclass
                Hmkdir Hdirs Hmove).
Qed.

Lemma file_duplicate_place self E p size h w st data :
  fs w !! p = Some (File st data) →
  try_except (FileOrganizer.file_duplicate self E p size h)
    (FileOrganizer.on_exception E p size (Some h)) w
  = place E p (FileOrganizer.duplicate_folder (FileOrganizer.config self))
      (File st data) size (Some h)
      (fun c => FileOrganizer.bump_processed (FileOrganizer.bump_duplicates c))
      "Duplicates" "duplicate" 1 (true, "Duplicate detected", "Duplicates", size) w.
Proof.
  intros Hfile. unfold place.
  set (folder := FileOrganizer.duplicate_folder _).
  destruct (os_fault E (Mkdir folder)) as [err|] eqn:Hmkdir.
  { unfold try_except, FileOrganizer.file_duplicate, bind.
    fold folder. unfold Os.mkdir. by rewrite Hmkdir. }
  destruct (Os.make_dirs E (Os.chain folder) (fs w)) as [f1|e] eqn:Hdirs.
  2:{ unfold try_except, FileOrganizer.file_duplicate, bind.
      fold folder. unfold Os.mkdir. by rewrite Hmkdir, Hdirs. }
  cbv zeta.
  set (dest := FileOrganizer._get_unique_path f1 _).
  destruct (os_fault E (Move p dest)) as [err|] eqn:Hmove.
  { unfold try_except, FileOrganizer.file_duplicate, bind.
    fold folder. rewrite (mkdir_run E folder w f1 Hmkdir Hdirs).
    unfold get_world. change (fs (set_fs f1 w)) with f1. fold dest.
    unfold Os.move. by rewrite Hmove. }
  unfold try_except.
  by rewrite (file_duplicate_run self E p size h w st data f1 Hfile
                Hmkdir Hdirs Hmove).
Qed.

(** The category the three tiers give a file. *)
Definition category (self : FileOrganizer.t) (E : env) (p : Path) (w : world)
  : string :=
  match fst (FileOrganizer.classification self E p w) with
  | Ok c => c
  | Raise _ => ""
  end.

Lemma classification_category self E p w :
  FileOrganizer.classification self E p w = (Ok (category self E p w), w).
Proof.
  unfold category. destruct (classification_answers self E p w) as [c ->].
  reflexivity.
Qed.

(** A file that is no duplicate: classified and placed. *)
Definition place_normally (self : FileOrganizer.t) (E : env) (p : Path)
    (n : node) (size : Z) (h : option string) (w : world)
  : res FileOrganizer.result * world :=
  let c := category self E p w in
  place E p (joinpath (FileOrganizer.organized_folder (FileOrganizer.config self)) c)
    n size h FileOrganizer.bump_processed c "organize" 0
    (true, "Moved to " +:+ c, c, size) w.

Definition place_duplicate (self : FileOrganizer.t) (E : env) (p : Path)
    (n : node) (size : Z) (h : string) (w : world)
  : res FileOrganizer.result * world :=
  place E p (FileOrganizer.duplicate_folder (FileOrganizer.config self))
    n size (Some h)
    (fun c => FileOrganizer.bump_processed (FileOrganizer.bump_duplicates c))
    "Duplicates" "duplicate" 1 (true, "Duplicate detected", "Duplicates", size) w.

(** [organize_file], flattened: one branch for each way through it. *)
Definition organize_cases (self : FileOrganizer.t) (E : env) (p : Path) (w : world)
  : res FileOrganizer.result * world :=
  match fs w !! p with
  | Some (File st data) =>
      match os_fault E (Stat p) with
      | Some err =>
          FileOrganizer.on_exception E p 0 None (OSError err (to_str p)) w
      | None =>
          let size := st_size st in
          if FileOrganizer.too_large self size then
            FileOrganizer.reject_too_large E p size w
          else if FileOrganizer.enable_duplicates (FileOrganizer.config self) then
            match os_fault E (OpenRead p) with
            | Some err =>
                FileOrganizer.on_exception E p size None (OSError err (to_str p)) w
            | None =>
                let h := sha256 data in
                match db_fault E AddDuplicateHash with
                | Some _ => place_normally self E p (File st data) size (Some h) w
                | None =>
                    match duplicate_hashes (db w) !! h with
                    | Some existing =>
                        place_duplicate self E p (File st data) size h
                          (sighted_again E h existing w)
                    | None =>
                        place_normally self E p (File st data) size (Some h)
                          (sighted_first E h (to_str p) size w)
                    end
                end
            end
          else place_normally self E p (File st data) size None w
      end
  | _ =>
      (Ok (false, "File not found", "", 0),
       snd (Db.log_operation E (name p) (to_str p) "" "" "organize" 0 None false
              (Some "File not found") w))
  end.

Lemma organize_file_cases self E p w :
  FileOrganizer.organize_file self E p w = organize_cases self E p w.
Proof.
  unfold organize_cases.
  destruct (fs w !! p) as [[st data|st]|] eqn:Hfile.
  - destruct (os_fault E (Stat p)) as [err|] eqn:Hstat.
    { unfold FileOrganizer.organize_file, bind, get_world, attempt.
      unfold Os.exists_, Os.is_file, Os.stat. rewrite Hfile, Hstat.
      reflexivity. }
    rewrite (organize_file_at_file self E p w st data Hfile Hstat).
    unfold FileOrganizer.organize_sized. cbv zeta.
    destruct (FileOrganizer.too_large self (st_size st)); [reflexivity|].
    destruct (FileOrganizer.enable_duplicates _).
    + destruct (os_fault E (OpenRead p)) as [err|] eqn:Hread.
      { unfold FileOrganizer.check_duplicates, attempt,
          DuplicateDetector.compute_hash, bind, Os.read_file.
        by rewrite Hread. }
      rewrite (check_duplicates_run self E p (st_size st) w st data Hfile Hread).
      cbv zeta.
      destruct (db_fault E AddDuplicateHash).
      * apply file_normally_place; [done | apply classification_category].
      * destruct (duplicate_hashes (db w) !! sha256 data).
        -- by apply file_duplicate_place.
        -- apply file_normally_place; [done | apply classification_category].
    + apply file_normally_place; [done | apply classification_category].
  - unfold FileOrganizer.organize_file, bind, get_world.
    unfold Os.exists_, Os.is_file. rewrite Hfile. cbn [negb orb].
    unfold try_except, bind.
    destruct (log_operation_pair E (name p) (to_str p) "" "" "organize" 0 None
                false (Some "File not found") w) as [id ->].
    reflexivity.
  - unfold FileOrganizer.organize_file, bind, get_world.
    unfold Os.exists_, Os.is_file. rewrite Hfile. cbn [negb orb].
    unfold try_except, bind.
    destruct (log_operation_pair E (name p) (to_str p) "" "" "organize" 0 None
                false (Some "File not found") w) as [id ->].
    reflexivity.
Qed.

End Placing.

(** The row of the day and of the category after counting [a] files of [b]
    bytes, [c] duplicates and [d] errors. *)
Definition counted (E : env) (cat : string) (a b c d : Z)
    (st : gmap (Z * string) statistic) : gmap (Z * string) statistic :=
  <[(today E, cat) :=
      match st !! (today E, cat) with
      | Some s =>
          Statistic (files_processed s + a) (total_size s + b)
            (duplicates_found s + c) (errors_count s + d)
      | None => Statistic a b c d
      end]> st.

Lemma statistics_after_update E cat a b c d w :
  statistics (db (snd (Db.update_statistics E cat a b c d w))) =
  match db_fault E UpdateStatistics with
  | Some _ => statistics (db w)
  | None => counted E cat a b c d (statistics (db w))
  end.
Proof.
  unfold Db.update_statistics, try_except. rewrite get_connection_run.
  destruct (db_fault E UpdateStatistics); reflexivity.
Qed.

Lemma statistics_after_log E fn orig dest cat kind size h ok err w :
  statistics (db (snd (Db.log_operation E fn orig dest cat kind size h ok err w)))
  = statistics (db w).
Proof. rewrite log_operation_run. by destruct (db_fault E LogOperation). Qed.

Section Cases.
Context {re : PyRe}.

Lemma settled_statistics E p dest n f1 bump cat kind size h dups w :
  statistics (db (settled E p dest n f1 bump cat kind size h dups w)) =
  match db_fault E UpdateStatistics with
  | Some _ => statistics (db w)
  | None => counted E cat 1 size dups 0 (statistics (db w))
  end.
Proof.
  unfold settled. rewrite statistics_after_update, statistics_after_log.
  reflexivity.
Qed.

Lemma failed_statistics E p size h e w :
  statistics (db (failed E p size h e w)) =
  match db_fault E UpdateStatistics with
  | Some _ => statistics (db w)
  | None => counted E "Errors" 0 0 0 1 (statistics (db w))
  end.
Proof.
  unfold failed. rewrite statistics_after_update, statistics_after_log.
  reflexivity.
Qed.

End Cases.

(** Open every branch of [organize_cases]. *)
Ltac organize_by_cases :=
  rewrite organize_file_cases;
  unfold organize_cases, place_normally, place_duplicate, place;
  repeat case_match;
  rewrite ?on_exception_run, ?reject_too_large_run.


Section Rows.
Context {re : PyRe}.

Lemma log_operation_rows E fn orig dest cat kind size h ok err w :
  db_fault E LogOperation = None →
  file_operations (db (snd (Db.log_operation E fn orig dest cat kind size h ok err w)))
  = file_operations (db w)
      ++ [Operation (file_operations_seq (db w) + 1) (now E) fn orig dest cat kind
            size h ok err true].
Proof.
  intros Hlog.
  destruct (after_log_operation E fn orig dest cat kind size h ok err w)
    as (_ & _ & _ & -> & _).
  by rewrite Hlog.
Qed.

Lemma failed_rows E p size h e w :
  db_fault E LogOperation = None →
  file_operations (db (failed E p size h e w))
  = file_operations (db w)
      ++ [Operation (file_operations_seq (db w) + 1) (now E) (name p) (to_str p)
            "" "" "organize" size h false (Some (str e)) true].
Proof.
  intros Hlog. destruct (failed_spec E p size h e w) as (_ & _ & _ & -> & _).
  by rewrite Hlog.
Qed.

Lemma settled_rows E p dest n f1 bump cat kind size h dups w :
  db_fault E LogOperation = None →
  file_operations (db (settled E p dest n f1 bump cat kind size h dups w))
  = file_operations (db w)
      ++ [Operation (file_operations_seq (db w) + 1) (now E) (name p) (to_str p)
            (to_str dest) cat kind size h true None true].
Proof.
  intros Hlog.
  destruct (settled_spec E p dest n f1 bump cat kind size h dups w)
    as (_ & _ & _ & -> & _).
  by rewrite Hlog.
Qed.

End Rows.

(** X2.  Every call of [organize_file] returns a result, and while the
    ledger can be written it appends exactly one row: the row has the next
    id and the time of the call, names the file and its path, and carries the
    success flag, the category and the size that the call returns.  When the
    ledger cannot be written no row is added. *)
Theorem organize_file_logs_one_row (re : PyRe) (self : FileOrganizer.t) (E : env)
    (p : Path) (w : world) :
  let run := FileOrganizer.organize_file self E p w in
  ∃ r, fst run = Ok r
       ∧ match db_fault E LogOperation with
         | Some _ => file_operations (db (snd run)) = file_operations (db w)
         | None =>
             ∃ row,
               file_operations (db (snd run)) = file_operations (db w) ++ [row]
               ∧ op_id row = file_operations_seq (db w) + 1
               ∧ op_timestamp row = now E
               ∧ op_filename row = name p
               ∧ op_original_path row = to_str p
               ∧ op_success row = succeeded r
               ∧ op_category row = category_of r
               ∧ op_file_size row = size_of r
               ∧ op_can_undo row = true
         end.
Proof.
  cbv zeta. destruct (db_fault E LogOperation) as [msg|] eqn:Hlog.
  - organize_by_cases; rewrite ?Hlog; cbn [fst snd]; eexists; (split; [reflexivity|]).
    all: try reflexivity.
    all: match goal with
         | |- context [failed ?E0 ?p0 ?size ?h ?e ?w1] =>
             destruct (failed_spec E0 p0 size h e w1) as (_ & _ & _ & -> & _);
             by rewrite Hlog
         | |- context [settled ?E0 ?p0 ?d ?n ?f ?b ?c ?k ?s ?h ?du ?w1] =>
             destruct (settled_spec E0 p0 d n f b c k s h du w1)
               as (_ & _ & _ & -> & _);
             by rewrite Hlog
         | |- context [Db.log_operation ?E0 ?a ?b ?c ?d ?e0 ?f ?g ?h ?i ?w1] =>
             destruct (after_log_operation E0 a b c d e0 f g h i w1)
               as (_ & _ & _ & -> & _);
             by rewrite Hlog
         end.
  - organize_by_cases; rewrite ?Hlog; cbn [fst snd]; eexists; (split; [reflexivity|]).
    all: rewrite ?failed_rows, ?settled_rows, ?log_operation_rows by done.
    all: eexists; split; [reflexivity | by repeat split].
Qed.

Section FileSystemAfter.
Context {re : PyRe}.


End FileSystemAfter.



(** Rewrite the components of the worlds the branches end in. *)
Ltac end_worlds :=
  repeat match goal with
         | |- context [failed ?E0 ?p0 ?size ?h ?e ?w1] =>
             let H := fresh "Hend" in
             pose proof (failed_spec E0 p0 size h e w1) as H;
             pose proof (failed_statistics E0 p0 size h e w1);
             cbv zeta in H;
             generalize dependent (failed E0 p0 size h e w1); intros
         | |- context [settled ?E0 ?p0 ?d ?n ?f ?b ?c ?k ?s ?h ?du ?w1] =>
             let H := fresh "Hend" in
             pose proof (settled_spec E0 p0 d n f b c k s h du w1) as H;
             pose proof (settled_statistics E0 p0 d n f b c k s h du w1);
             cbv zeta in H;
             generalize dependent (settled E0 p0 d n f b c k s h du w1); intros
         | |- context [Db.log_operation ?E0 ?a ?b ?c ?d ?e0 ?f ?g ?h ?i ?w1] =>
             let H := fresh "Hend" in
             pose proof (after_log_operation E0 a b c d e0 f g h i w1) as H;
             pose proof (statistics_after_log E0 a b c d e0 f g h i w1);
             cbv zeta in H;
             generalize dependent
               (snd (Db.log_operation E0 a b c d e0 f g h i w1)); intros
         end.

(** X3.  The counters of the organizer tell the outcome: a file that was moved
    is counted as processed (and as a duplicate when it is one), a failure
    in a step as an error, and a path that is no file or a file over the size
    limit is not counted at all. *)
Theorem organize_file_counts_by_outcome (re : PyRe) (self : FileOrganizer.t)
    (E : env) (p : Path) (w : world) :
  let run := FileOrganizer.organize_file self E p w in
  ∃ r o,
    fst run = Ok r ∧ outcome r = Some o
    ∧ stats (snd run) =
      match o with
      | Organized => FileOrganizer.bump_processed (stats w)
      | Duplicate =>
          FileOrganizer.bump_processed (FileOrganizer.bump_duplicates (stats w))
      | Error => FileOrganizer.bump_errors (stats w)
      | NotFound | TooLarge => stats w
      end
    ∧ succeeded r =
      match o with Organized | Duplicate => true | _ => false end.
Proof.
  cbv zeta. organize_by_cases; cbn [fst snd]; end_worlds.
  all: try (destruct (db_fault E LogOperation)).
  all: eexists _, _; (split; [reflexivity|]); (split; [reflexivity|]).
  all: split; [|reflexivity].
  all: cbn beta iota; intuition congruence.
Qed.

(** X4.  The daily statistics follow the outcome: a moved file adds one file and
    its size to the row of the day and of its category (and one duplicate to
    the row of [Duplicates]), a failure adds one error to the row of
    [Errors], and a path that is no file or a file over the size limit
    leaves the table as it is, as does a failing transaction. *)
Theorem organize_file_statistics (re : PyRe) (self : FileOrganizer.t)
    (E : env) (p : Path) (w : world) :
  let run := FileOrganizer.organize_file self E p w in
  ∃ r o,
    fst run = Ok r ∧ outcome r = Some o
    ∧ statistics (db (snd run)) =
      match db_fault E UpdateStatistics, o with
      | None, Organized =>
          counted E (category_of r) 1 (size_of r) 0 0 (statistics (db w))
      | None, Duplicate =>
          counted E "Duplicates" 1 (size_of r) 1 0 (statistics (db w))
      | None, Error => counted E "Errors" 0 0 0 1 (statistics (db w))
      | _, _ => statistics (db w)
      end.
Proof.
  cbv zeta. destruct (db_fault E UpdateStatistics) eqn:Hstat.
  all: organize_by_cases; cbn [fst snd]; end_worlds.
  all: try (destruct (db_fault E LogOperation)).
  all: eexists _, _; (split; [reflexivity|]); (split; [reflexivity|]).
  all: cbn beta iota; rewrite ?Hstat in *.
  all: first [reflexivity | assumption].
Qed.

(** X5.  A path at which there is nothing, or a directory, is answered with
    [File not found]: nothing moves, nothing is counted, the duplicate index
    and the statistics stay as they are, and the ledger gets the failure row
    with size 0. *)
Theorem organize_file_not_a_file (re : PyRe) (self : FileOrganizer.t)
    (E : env) (p : Path) (w : world) :
  Os.is_file (fs w) p = false →
  let run := FileOrganizer.organize_file self E p w in
  fst run = Ok (false, "File not found", "", 0)
  ∧ fs (snd run) = fs w
  ∧ stats (snd run) = stats w
  ∧ duplicate_hashes (db (snd run)) = duplicate_hashes (db w)
  ∧ statistics (db (snd run)) = statistics (db w)
  ∧ file_operations (db (snd run)) =
    match db_fault E LogOperation with
    | Some _ => file_operations (db w)
    | None =>
        file_operations (db w)
          ++ [Operation (file_operations_seq (db w) + 1) (now E) (name p) (to_str p)
                "" "" "organize" 0 None false (Some "File not found") true]
    end.
Proof.
  intros Hfile. cbv zeta. rewrite organize_file_cases. unfold organize_cases.
  unfold Os.is_file in Hfile.
  destruct (fs w !! p) as [[st data|st]|]; [done| |]; cbn [fst snd].
  all: rewrite statistics_after_log.
  all: destruct (after_log_operation E (name p) (to_str p) "" "" "organize" 0 None
                   false (Some "File not found") w) as (-> & -> & -> & -> & _).
  all: done.
Qed.

Lemma organize_file_not_a_file_witness :
  Os.is_file (fs (MkWorld ∅ empty_database (Counters 0 0 0))) ["in"; "gone.txt"] = false
  ∧ fst (@FileOrganizer.organize_file Re.engine (plain_organizer 10 true) quiet
           ["in"; "gone.txt"] (MkWorld ∅ empty_database (Counters 0 0 0)))
    = Ok (false, "File not found", "", 0).
Proof.
  split; [reflexivity|].
  refine (proj1 (organize_file_not_a_file Re.engine (plain_organizer 10 true) quiet
                   ["in"; "gone.txt"] (MkWorld ∅ empty_database (Counters 0 0 0)) _)).
  reflexivity.
Defined.

(** X6.  [organize_file] changes the duplicate index at no other digest than
    that of the file it is given, and not at all when duplicate detection is
    off or the path is no file. *)
Theorem organize_file_index_frame (re : PyRe) (self : FileOrganizer.t)
    (E : env) (p : Path) (w : world) :
  let index' := duplicate_hashes (db (snd (FileOrganizer.organize_file self E p w))) in
  index' = duplicate_hashes (db w)
  ∨ (FileOrganizer.enable_duplicates (FileOrganizer.config self) = true
     ∧ ∃ st data entry,
         fs w !! p = Some (File st data)
         ∧ index' = <[sha256 data := entry]> (duplicate_hashes (db w))
         ∧ match duplicate_hashes (db w) !! sha256 data with
           | Some existing =>
               entry = DuplicateHash (dh_original_path existing)
                         (dh_file_size existing) (dh_first_seen existing) (now E)
                         (dh_duplicate_count existing + 1)
           | None => entry = DuplicateHash (to_str p) (st_size st) (now E) (now E) 0
           end).
Proof.
  cbv zeta. organize_by_cases; cbn [fst snd]; end_worlds.
  all: try (destruct (db_fault E LogOperation)).
  all: try (left; cbn beta iota; intuition congruence).
  all: right; (split; [done|]); eexists _, _, _; (split; [reflexivity|]).
  all: match goal with
       | H : duplicate_hashes (db _) !! _ = _ |- _ => rewrite H
       end.
  all: split; [|reflexivity].
  all: match goal with
       | H : _ ∧ _ |- _ => destruct H as (_ & _ & H & _); exact H
       end.
Qed.

Lemma probe_first_free (f : gmap (list string) node) path fuel counter :
  ∃ k, (counter ≤ k)%nat
       ∧ FileOrganizer.probe f path fuel counter = FileOrganizer.numbered path k
       ∧ ∀ j, (counter ≤ j < k)%nat →
              is_Some (f !! FileOrganizer.numbered path j).
Proof.
  revert counter. induction fuel as [|fuel IH]; intros counter; simpl.
  - exists counter. split; [lia|]. split; [done|]. intros j Hj. lia.
  - destruct (Os.exists_ f (FileOrganizer.numbered path counter)) eqn:Hex; simpl.
    + destruct (IH (S counter)) as (k & Hk & -> & Hocc).
      exists k. split; [lia|]. split; [done|]. intros j Hj.
      destruct (decide (j = counter)) as [->|]; [|apply Hocc; lia].
      unfold Os.exists_ in Hex.
      by destruct (f !! FileOrganizer.numbered path counter).
    + exists counter. split; [lia|]. split; [done|]. intros j Hj. lia.
Qed.

Lemma parent_numbered path k :
  parent (FileOrganizer.numbered path k) = parent path.
Proof.
  unfold FileOrganizer.numbered, FileOrganizer.child, parent.
  by rewrite removelast_last.
Qed.


Lemma rfind_app_some c s t i :
  PyStr.rfind c t = Some i →
  PyStr.rfind c (s +:+ t) = Some (String.length s + i)%nat.
Proof.
  intros Ht. induction s as [|a s IH]; [done|].
  change (String a s +:+ t) with (String a (s +:+ t)).
  cbn [PyStr.rfind String.length]. by rewrite IH.
Qed.

Lemma rfind_last c s i :
  PyStr.rfind c s = Some i →
  ∃ rest, PyStr.drop i s = String c rest ∧ PyStr.rfind c rest = None
          ∧ String.length s = (i + S (String.length rest))%nat.
Proof.
  revert i. induction s as [|a s IH]; intros i; [done|].
  cbn [PyStr.rfind]. destruct (PyStr.rfind c s) as [j|] eqn:Hs.
  - intros [= <-]. destruct (IH j eq_refl) as (rest & Hd & Hr & Hl).
    exists rest. cbn [PyStr.drop String.length]. rewrite Hl. by repeat split.
  - destruct (Ascii.eqb_spec a c) as [->|]; [|done].
    intros [= <-]. exists s. by repeat split.
Qed.

Lemma rfind_head c rest :
  PyStr.rfind c rest = None → PyStr.rfind c (String c rest) = Some 0%nat.
Proof. intros Hr. cbn [PyStr.rfind]. by rewrite Hr, Ascii.eqb_refl. Qed.

Lemma drop_app_length s t : PyStr.drop (String.length s) (s +:+ t) = t.
Proof.
  induction s as [|a s IH]; [by destruct t|].
  change (String a s +:+ t) with (String a (s +:+ t)). exact IH.
Qed.

Lemma string_app_assoc s t u : (s +:+ t) +:+ u = s +:+ (t +:+ u).
Proof.
  induction s as [|a s IH]; [done|].
  change ((String a s +:+ t) +:+ u) with (String a ((s +:+ t) +:+ u)).
  by rewrite IH.
Qed.

(** A numbered name keeps the suffix of the name. *)
Lemma suffix_numbered_name nm (k : nat) :
  suffix_of nm ≠ "" →
  suffix_of (stem_of nm +:+ "_" +:+ pretty k +:+ suffix_of nm) = suffix_of nm.
Proof.
  unfold suffix_of at 1 3 4, stem_of, suffix_index.
  destruct (PyStr.rfind "." nm) as [i|] eqn:Hi; [|done].
  destruct ((0 <? i)%nat && (i <? String.length nm - 1)%nat) eqn:Hin; [|done].
  intros _. apply andb_true_iff in Hin as [_ Hin]. apply Nat.ltb_lt in Hin.
  destruct (rfind_last _ _ _ Hi) as (rest & Hd & Hr & Hl). rewrite Hd.
  set (front := PyStr.take i nm +:+ "_" +:+ pretty k).
  assert (PyStr.take i nm +:+ "_" +:+ pretty k +:+ String "." rest
          = front +:+ String "." rest) as ->.
  { unfold front. by rewrite !string_app_assoc. }
  unfold suffix_of, suffix_index.
  rewrite (rfind_app_some _ front _ _ (rfind_head _ _ Hr)).
  rewrite Nat.add_0_r.
  assert (0 < String.length front)%nat as Hfront.
  { unfold front. rewrite !string_length_app. cbn. lia. }
  assert (String.length front < String.length (front +:+ String "." rest) - 1)%nat
    as Hlen.
  { rewrite string_length_app. cbn [String.length]. lia. }
  apply Nat.ltb_lt in Hfront, Hlen. rewrite Hfront, Hlen. cbn [andb].
  apply drop_app_length.
Qed.

(** X7.  [_get_unique_path] returns a path at which nothing exists, in the
    folder of the path it is asked for: that path itself when it is free, and
    otherwise the name with the least counter from 1 on that is free, the
    counter standing between the stem and the suffix.  A name that has a
    suffix keeps it. *)
Theorem get_unique_path_first_free (f : gmap (list string) node) (path : Path) :
  let q := FileOrganizer._get_unique_path f path in
  f !! q = None
  ∧ parent q = parent path
  ∧ (f !! path = None → q = path)
  ∧ (is_Some (f !! path) →
     ∃ k, (1 ≤ k)%nat
          ∧ q = FileOrganizer.child (parent path)
                  (stem path +:+ "_" +:+ pretty k +:+ suffix path)
          ∧ ∀ j, (1 ≤ j < k)%nat →
                 is_Some (f !! FileOrganizer.child (parent path)
                                 (stem path +:+ "_" +:+ pretty j +:+ suffix path)))
  ∧ (suffix path ≠ "" → suffix q = suffix path).
Proof.
  cbv zeta. split; [apply _get_unique_path_free|].
  unfold FileOrganizer._get_unique_path, Os.exists_.
  destruct (f !! path) as [n|] eqn:Hpath; cbn [negb].
  - destruct (probe_first_free f path (size f) 1) as (k & Hk & -> & Hocc).
    split; [apply parent_numbered|]. split; [done|]. split.
    + intros _. exists k. split; [done|]. split; [done|]. exact Hocc.
    + intros Hsuffix. unfold suffix at 1, FileOrganizer.numbered.
      rewrite name_child. by apply suffix_numbered_name.
  - split; [done|]. split; [done|]. split; [by intros [? [=]] | done].
Qed.

(** * The ledger, the duplicate index and the statistics *)

(** ** Undo, branch by branch *)

(** The operations the viewer loads. *)
Definition loaded (E : env) (w : world) : list operation :=
  match db_fault E GetOperationHistory with
  | Some _ => []
  | None => take 1000 (merge_sort Db.newer (file_operations (db w)))
  end.

(** The world after the entry was marked and the undo was logged. *)
Definition restored (E : env) (id : Z) (entry : operation) (src dst : Path)
    (w : world) : world :=
  snd (Db.log_operation E (op_filename entry) (to_str src) (to_str dst) "Undo"
         "undo" (op_file_size entry) None true None
         (snd (Db.mark_operation_undone E id w))).

(** [undo_operation], flattened: one branch for each way through it. *)
Definition undo_cases (E : env) (id : Z) (w : world)
  : res HistoryViewer.outcome * world :=
  match HistoryViewer.find_operation (loaded E w) id with
  | None => (Ok HistoryViewer.OperationNotFound, w)
  | Some entry =>
      if negb (confirm E) then (Ok HistoryViewer.Declined, w)
      else
        let src := of_str (op_destination_path entry) in
        let dst := of_str (op_original_path entry) in
        if negb (Os.exists_ (fs w) src) then (Ok HistoryViewer.FileNotFound, w)
        else
          match Os.mkdir E (parent dst) w with
          | (Raise e, w1) => (Ok (HistoryViewer.Failed (str e)), w1)
          | (Ok _, w1) =>
              match Os.move E src dst w1 with
              | (Raise e, w2) => (Ok (HistoryViewer.Failed (str e)), w2)
              | (Ok _, w2) => (Ok HistoryViewer.Restored, restored E id entry src dst w2)
              end
          end
  end.

Lemma mark_operation_undone_pair E id w :
  Db.mark_operation_undone E id w = (Ok tt, snd (Db.mark_operation_undone E id w)).
Proof.
  rewrite mark_operation_undone_run. by destruct (db_fault E MarkOperationUndone).
Qed.

Lemma undo_operation_cases E id w :
  HistoryViewer.undo_operation E id w = undo_cases E id w.
Proof.
  unfold HistoryViewer.undo_operation, undo_cases, loaded, try_except, bind.
  rewrite get_operation_history_run.
  destruct (db_fault E GetOperationHistory); [done|]. rewrite set_db_same.
  destruct (HistoryViewer.find_operation _ id) as [entry|]; [|done].
  destruct (confirm E); cbn [negb]; [|done].
  unfold get_world. cbv zeta.
  destruct (Os.exists_ (fs w) _); cbn [negb]; [|done].
  destruct (Os.mkdir E _ w) as [[[]|e] w1]; [|done].
  destruct (Os.move E _ _ w1) as [[[]|e] w2]; [|done].
  rewrite mark_operation_undone_pair. unfold restored.
  destruct (log_operation_pair E (op_filename entry)
              (to_str (of_str (op_destination_path entry)))
              (to_str (of_str (op_original_path entry))) "Undo" "undo"
              (op_file_size entry) None true None
              (snd (Db.mark_operation_undone E id w2))) as [i ->].
  reflexivity.
Qed.

(** A failing [mkdir] or [move] leaves the world as it was. *)
Lemma mkdir_raises E p w e w' : Os.mkdir E p w = (Raise e, w') → w' = w.
Proof.
  unfold Os.mkdir. destruct (os_fault E (Mkdir p)); [by intros [= _ <-]|].
  destruct (Os.make_dirs E (Os.chain p) (fs w)); [done | by intros [= _ <-]].
Qed.

Lemma move_raises E src dst w e w' : Os.move E src dst w = (Raise e, w') → w' = w.
Proof.
  unfold Os.move. destruct (os_fault E (Move src dst)); [by intros [= _ <-]|].
  destruct (fs w !! src) as [[]|]; [| |by intros [= _ <-]].
  - destruct (_ && Os.exists_ _ _); [by intros [= _ <-] | done].
  - destruct (_ && Os.exists_ _ _); [by intros [= _ <-]|].
    destruct (_ && negb _); [by intros [= _ <-] | done].
Qed.

(** What a successful [mkdir] changes are the directories it adds. *)
Lemma mkdir_ok E p w w' :
  Os.mkdir E p w = (Ok tt, w') →
  db w' = db w ∧ stats w' = stats w
  ∧ ∀ q n, fs w !! q = Some n → fs w' !! q = Some n.
Proof.
  unfold Os.mkdir. destruct (os_fault E (Mkdir p)); [done|].
  destruct (Os.make_dirs E (Os.chain p) (fs w)) as [f1|] eqn:Hdirs; [|done].
  intros [= <-]. repeat split. intros q n. apply (make_dirs_keeps _ _ _ _ _ _ Hdirs).
Qed.





(** ** The other queries of the ledger *)

Lemma transaction_run {A} fault (body : database → A * database) w :
  DbQueries.transaction fault body w =
  match fault with
  | Some msg => (Raise (SqliteError msg), w)
  | None => (Ok (fst (body (db w))), set_db (snd (body (db w))) w)
  end.
Proof. reflexivity. Qed.

Global Instance newer_total : Total Db.newer.
Proof. intros a b. unfold Db.newer. lia. Qed.

Lemma undoable_after_mark id o :
  DbQueries.undoable (Db.set_can_undo id o) = true →
  op_id o ≠ id ∧ Db.set_can_undo id o = o ∧ DbQueries.undoable o = true.
Proof.
  unfold Db.set_can_undo. destruct (Z.eqb_spec (op_id o) id) as [Heq|Hne].
  - by unfold DbQueries.undoable.
  - done.
Qed.

Lemma Sorted_take {A} (R : A → A → Prop) (l : list A) n :
  Sorted R l → Sorted R (take n l).
Proof.
  intros Hs. revert n. induction Hs as [|a l Hs IH Hd]; intros [|n]; simpl;
    try constructor.
  - apply IH.
  - destruct Hd as [|b l Hab]; [by destruct n|]. destruct n; by constructor.
Qed.

(** X10.  Once an operation is marked as undone, [get_undoable_operations]
    never lists it again.  What it lists are rows of the ledger, as they were
    before the marking, that succeeded and are still eligible, the newest
    first and at most [limit] of them; and when the limit covers the ledger,
    every such row other than the marked one is listed. *)
Theorem undone_operation_is_not_offered (E : env) (id : Z) (limit : nat) (w : world) :
  db_fault E MarkOperationUndone = None →
  let w1 := snd (Db.mark_operation_undone E id w) in
  ∃ ops,
    DbQueries.get_undoable_operations None limit w1 = (Ok ops, w1)
    ∧ Forall (fun o => op_id o ≠ id ∧ op_can_undo o = true ∧ op_success o = true
                       ∧ o ∈ file_operations (db w)) ops
    ∧ Sorted Db.newer ops
    ∧ (length ops ≤ limit)%nat
    ∧ ((length (file_operations (db w)) ≤ limit)%nat →
       ∀ o, o ∈ file_operations (db w) → op_id o ≠ id →
            op_can_undo o = true → op_success o = true → o ∈ ops).
Proof.
  intros Hmark. cbv zeta. rewrite mark_operation_undone_run, Hmark. cbn [snd].
  set (marked := map (Db.set_can_undo id) (file_operations (db w))).
  set (sorted := merge_sort Db.newer (List.filter DbQueries.undoable marked)).
  exists (take limit sorted). split; [|split; [|split; [|split]]].
  - unfold DbQueries.get_undoable_operations, try_except.
    rewrite transaction_run. cbn [fst snd]. by destruct w as [f [] c].
  - apply Forall_forall. intros o Hin.
    apply (subseteq_take limit) in Hin. unfold sorted in Hin.
    rewrite merge_sort_Permutation in Hin.
    apply list_elem_of_In, filter_In in Hin as [Hin Hun].
    apply list_elem_of_In in Hin. unfold marked in Hin.
    apply list_elem_of_fmap in Hin as (o0 & -> & Hin0).
    apply undoable_after_mark in Hun as (Hne & -> & Hun).
    unfold DbQueries.undoable in Hun. apply andb_true_iff in Hun as [Hc Hs].
    done.
  - apply Sorted_take. apply (Sorted_merge_sort Db.newer).
  - rewrite length_take. lia.
  - intros Hlimit o Hin Hne Hc Hs.
    rewrite take_ge.
    2:{ unfold sorted. rewrite merge_sort_Permutation.
        pose proof (List.filter_length DbQueries.undoable marked) as Hlen.
        unfold marked in Hlen at 3. rewrite length_map in Hlen. lia. }
    unfold sorted. rewrite merge_sort_Permutation.
    apply list_elem_of_In, filter_In. split.
    + apply list_elem_of_In. unfold marked. apply list_elem_of_fmap.
      exists o. by rewrite set_can_undo_other.
    + unfold DbQueries.undoable. by rewrite Hc, Hs.
Qed.

Lemma undone_operation_is_not_offered_witness :
  let w := after_organize (plain_organizer 10 true) ["home"; "u"; "Inbox"; "song.mp3"]
             (inbox_world "song.mp3" 5000 "9f") in
  let w1 := snd (Db.mark_operation_undone quiet 1 w) in
  db_fault quiet MarkOperationUndone = None
  ∧ ∃ ops, DbQueries.get_undoable_operations None 10 w1 = (Ok ops, w1)
           ∧ Forall (fun o => op_id o ≠ 1) ops.
Proof.
  cbv zeta. split; [reflexivity|].
  destruct (undone_operation_is_not_offered quiet 1 10
              (after_organize (plain_organizer 10 true)
                 ["home"; "u"; "Inbox"; "song.mp3"] (inbox_world "song.mp3" 5000 "9f"))
              eq_refl) as (ops & Hrun & Hall & _).
  exists ops. split; [exact Hrun|].
  eapply Forall_impl; [exact Hall|]. by intros o [Hid _].
Defined.

(** ** Sightings of digests, one after the other *)

(** One call of [add_duplicate_hash]: its clock and faults, the digest, the
    path and the size. *)
Record sighting : Type := Sighting
  { at_ : env; digest : string; seen_path : string; seen_size : Z }.

(** The calls in their order; the answers come back in the same order. *)
Fixpoint sightings (calls : list sighting) : M (list bool) :=
  match calls with
  | [] => ret []
  | c :: rest =>
      let* b := Db.add_duplicate_hash (at_ c) (digest c) (seen_path c) (seen_size c) in
      let* bs := sightings rest in
      ret (b :: bs)
  end.

Definition index_of (w : world) : gmap string duplicate_hash :=
  duplicate_hashes (db w).

Lemma add_duplicate_hash_new E h path size w :
  db_fault E AddDuplicateHash = None →
  index_of w !! h = None →
  Db.add_duplicate_hash E h path size w
  = (Ok false, sighted_first E h path size w).
Proof.
  intros Hf Hnew. rewrite add_duplicate_hash_run, Hf.
  unfold index_of in Hnew. by rewrite Hnew.
Qed.

Lemma add_duplicate_hash_again E h path size w row :
  db_fault E AddDuplicateHash = None →
  index_of w !! h = Some row →
  Db.add_duplicate_hash E h path size w
  = (Ok true, sighted_again E h row w).
Proof.
  intros Hf Hrow. rewrite add_duplicate_hash_run, Hf.
  unfold index_of in Hrow. by rewrite Hrow.
Qed.

Lemma last_cons_default {A} (l : list A) (x d : A) :
  List.last (x :: l) d = List.last l x.
Proof.
  revert x d. induction l as [|y l IH]; intros x d; [done|].
  change (List.last (x :: y :: l) d) with (List.last (y :: l) d).
  by rewrite !IH.
Qed.

(** Repeat sightings of a digest that is in the index. *)
Lemma sightings_again h (calls : list sighting) w row :
  Forall (fun c => db_fault (at_ c) AddDuplicateHash = None ∧ digest c = h) calls →
  index_of w !! h = Some row →
  ∃ w',
    sightings calls w = (Ok (replicate (length calls) true), w')
    ∧ index_of w' =
      <[h := DuplicateHash (dh_original_path row) (dh_file_size row)
               (dh_first_seen row)
               (List.last (now ∘ at_ <$> calls) (dh_last_seen row))
               (dh_duplicate_count row + Z.of_nat (length calls))]> (index_of w)
    ∧ fs w' = fs w ∧ stats w' = stats w
    ∧ file_operations (db w') = file_operations (db w).
Proof.
  intros Hcalls. revert w row.
  induction Hcalls as [|c calls [Hf Hh] _ IH]; intros w row Hrow.
  - exists w. cbn. split; [done|]. split; [|done].
    rewrite Z.add_0_r. destruct row. by rewrite insert_id.
  - cbn [sightings]. unfold bind. rewrite Hh.
    rewrite (add_duplicate_hash_again _ _ _ _ _ row Hf Hrow).
    edestruct (IH (sighted_again (at_ c) h row w)) as (w' & -> & Hidx & Hfs & Hst & Hops).
    { unfold index_of, sighted_again. cbn. apply lookup_insert_eq. }
    exists w'. split; [done|]. split; [|done].
    rewrite Hidx. unfold index_of at 1, sighted_again. cbn [db set_db duplicate_hashes
      dh_original_path dh_file_size dh_first_seen dh_last_seen dh_duplicate_count].
    rewrite insert_insert_eq. f_equal. f_equal.
    + rewrite fmap_cons. symmetry. apply last_cons_default.
    + cbn [length]. lia.
Qed.

(** X9.  [add_duplicate_hash] is an upsert that keeps the first sighting:
    called for a digest that is not in the index and then again any number of
    times, with whatever paths and sizes, it answers [False] the first time
    and [True] every time after; the entry then holds the path, the size and
    the time of the first call, the time of the last call and the number of
    repeats, [is_duplicate_hash] answers with the first path, and no other
    entry of the index has changed. *)
Theorem repeated_sightings_keep_the_first (h : string) (first : sighting)
    (again : list sighting) (w : world) :
  Forall (fun c => db_fault (at_ c) AddDuplicateHash = None ∧ digest c = h)
    (first :: again) →
  index_of w !! h = None →
  ∃ w',
    sightings (first :: again) w = (Ok (false :: replicate (length again) true), w')
    ∧ index_of w' !! h =
      Some (DuplicateHash (seen_path first) (seen_size first) (now (at_ first))
              (List.last (now ∘ at_ <$> again) (now (at_ first)))
              (Z.of_nat (length again)))
    ∧ DbQueries.is_duplicate_hash None h w' = (Ok (true, Some (seen_path first)), w')
    ∧ ∀ h', h' ≠ h → index_of w' !! h' = index_of w !! h'.
Proof.
  intros Hcalls Hnew. apply Forall_cons in Hcalls as [[Hf Hh] Hagain].
  cbn [sightings]. unfold bind. rewrite Hh.
  rewrite (add_duplicate_hash_new _ _ _ _ _ Hf Hnew).
  edestruct (sightings_again h again
               (sighted_first (at_ first) h (seen_path first) (seen_size first) w))
    as (w' & -> & Hidx & _); [done | |].
  { unfold index_of, sighted_first. cbn. apply lookup_insert_eq. }
  exists w'. split; [done|].
  assert (index_of w' !! h =
          Some (DuplicateHash (seen_path first) (seen_size first) (now (at_ first))
                  (List.last (now ∘ at_ <$> again) (now (at_ first)))
                  (Z.of_nat (length again)))) as Hentry.
  { rewrite Hidx, lookup_insert_eq. cbn. done. }
  split; [exact Hentry|]. split.
  - unfold DbQueries.is_duplicate_hash, try_except. rewrite transaction_run.
    cbn [fst snd]. unfold index_of in Hentry. rewrite Hentry. cbn.
    by rewrite set_db_same.
  - intros h' Hne. rewrite Hidx, lookup_insert_ne by done.
    unfold index_of, sighted_first. cbn. by rewrite lookup_insert_ne.
Qed.

Lemma repeated_sightings_keep_the_first_witness :
  let first := Sighting quiet "ab12" "/in/a.txt" 10 in
  let again := [Sighting quiet "ab12" "/in/copy of a.txt" 10;
                Sighting quiet "ab12" "/in/b/a.txt" 10] in
  let w := MkWorld ∅ empty_database (Counters 0 0 0) in
  Forall (fun c => db_fault (at_ c) AddDuplicateHash = None ∧ digest c = "ab12")
    (first :: again)
  ∧ index_of w !! "ab12" = None
  ∧ ∃ w', sightings (first :: again) w = (Ok [false; true; true], w')
          ∧ index_of w' !! "ab12" = Some (DuplicateHash "/in/a.txt" 10 0 0 2).
Proof.
  cbv zeta.
  assert (Forall (fun c => db_fault (at_ c) AddDuplicateHash = None ∧ digest c = "ab12")
            [Sighting quiet "ab12" "/in/a.txt" 10;
             Sighting quiet "ab12" "/in/copy of a.txt" 10;
             Sighting quiet "ab12" "/in/b/a.txt" 10]) as Hall.
  { repeat constructor. }
  split; [exact Hall|]. split; [reflexivity|].
  destruct (repeated_sightings_keep_the_first "ab12" _ _
              (MkWorld ∅ empty_database (Counters 0 0 0)) Hall eq_refl)
    as (w' & Hrun & Hrow & _).
  exists w'. split; [exact Hrun | exact Hrow].
Defined.

(** [SUM(duplicate_count)] over an index that has rows. *)
Definition repeats (index : gmap string duplicate_hash) : Z :=
  map_fold (fun _ row acc => dh_duplicate_count row + acc) 0 index.

Lemma repeats_insert_new index h row :
  index !! h = None →
  repeats (<[h := row]> index) = dh_duplicate_count row + repeats index.
Proof.
  intros Hnew. unfold repeats.
  rewrite map_fold_insert_L; [done| |done]. intros. lia.
Qed.

Lemma repeats_insert_old index h row row' :
  index !! h = Some row →
  repeats (<[h := row']> index)
  = repeats index + (dh_duplicate_count row' - dh_duplicate_count row).
Proof.
  intros Hold.
  rewrite <- (insert_delete_eq index h row') .
  rewrite <- (insert_delete_id index h row Hold) at 2.
  rewrite !repeats_insert_new by apply lookup_delete_eq. lia.
Qed.

Lemma sightings_counted (calls : list sighting) w :
  Forall (fun c => db_fault (at_ c) AddDuplicateHash = None) calls →
  ∃ answers w',
    sightings calls w = (Ok answers, w')
    ∧ dom (index_of w') = dom (index_of w) ∪ list_to_set (digest <$> calls)
    ∧ Z.of_nat (size (index_of w')) + repeats (index_of w')
      = Z.of_nat (size (index_of w)) + repeats (index_of w)
        + Z.of_nat (length calls).
Proof.
  intros Hcalls. revert w.
  induction Hcalls as [|c calls Hf _ IH]; intros w.
  - exists [], w. cbn. split; [done|]. split; [by rewrite (right_id_L ∅ (∪)) | lia].
  - cbn [sightings]. unfold bind.
    destruct (index_of w !! digest c) as [row|] eqn:Hrow.
    + rewrite (add_duplicate_hash_again _ _ _ _ _ row Hf Hrow).
      destruct (IH (sighted_again (at_ c) (digest c) row w))
        as (answers & w' & -> & Hdom & Hsum).
      exists (true :: answers), w'. split; [done|].
      assert (index_of (sighted_again (at_ c) (digest c) row w)
              = <[digest c :=
                    DuplicateHash (dh_original_path row) (dh_file_size row)
                      (dh_first_seen row) (now (at_ c))
                      (dh_duplicate_count row + 1)]> (index_of w)) as Hidx by done.
      rewrite Hidx in Hdom, Hsum. split.
      * rewrite Hdom, dom_insert_L, fmap_cons, list_to_set_cons.
        by rewrite (comm_L (∪) {[digest c]}), <- (assoc_L (∪)).
      * rewrite Hsum, (repeats_insert_old _ _ row) by done.
        assert (size (<[digest c :=
                    DuplicateHash (dh_original_path row) (dh_file_size row)
                      (dh_first_seen row) (now (at_ c))
                      (dh_duplicate_count row + 1)]> (index_of w))
                = size (index_of w)) as ->.
        { rewrite <- !size_dom, dom_insert_L.
          apply elem_of_dom_2 in Hrow. f_equal.
          by apply subseteq_union_1_L, singleton_subseteq_l. }
        cbn [dh_duplicate_count length]. lia.
    + rewrite (add_duplicate_hash_new _ _ _ _ _ Hf Hrow).
      destruct (IH (sighted_first (at_ c) (digest c) (seen_path c) (seen_size c) w))
        as (answers & w' & -> & Hdom & Hsum).
      exists (false :: answers), w'. split; [done|].
      assert (index_of (sighted_first (at_ c) (digest c) (seen_path c) (seen_size c) w)
              = <[digest c :=
                    DuplicateHash (seen_path c) (seen_size c) (now (at_ c))
                      (now (at_ c)) 0]> (index_of w)) as Hidx by done.
      rewrite Hidx in Hdom, Hsum. split.
      * rewrite Hdom, dom_insert_L, fmap_cons, list_to_set_cons.
        by rewrite (comm_L (∪) {[digest c]}), <- (assoc_L (∪)).
      * rewrite Hsum, repeats_insert_new by done.
        rewrite map_size_insert_None by done.
        cbn [dh_duplicate_count length]. lia.
Qed.

(** X13.  After [clear_duplicate_cache] every digest is new again, and from
    there every sighting is counted exactly once: after any number of calls of
    [add_duplicate_hash] that go through, [get_duplicate_statistics] reports
    as [total_unique] the number of distinct digests seen and as
    [total_duplicates] the number of the remaining calls ([NULL] while there
    is no row). *)
Theorem every_sighting_is_counted_once (calls : list sighting) (w : world) :
  Forall (fun c => db_fault (at_ c) AddDuplicateHash = None) calls →
  let w0 := snd (DbQueries.clear_duplicate_cache None w) in
  let unique := Z.of_nat (size (list_to_set (digest <$> calls) : gset string)) in
  (∀ h, DbQueries.is_duplicate_hash None h w0 = (Ok (false, None), w0))
  ∧ ∃ answers w' wasted,
      sightings calls w0 = (Ok answers, w')
      ∧ DbQueries.get_duplicate_statistics None w'
        = (Ok (Some (DbQueries.DuplicateStatistics unique
                       (match calls with
                        | [] => None
                        | _ => Some (Z.of_nat (length calls) - unique)
                        end)
                       wasted)), w').
Proof.
  intros Hcalls. cbv zeta.
  unfold DbQueries.clear_duplicate_cache, try_except. rewrite transaction_run.
  cbn [fst snd].
  set (w0 := set_db _ w).
  assert (index_of w0 = ∅) as Hempty by done.
  split.
  - intros h. unfold DbQueries.is_duplicate_hash, try_except.
    rewrite transaction_run. cbn [fst snd]. unfold index_of in Hempty.
    rewrite Hempty, lookup_empty. by rewrite set_db_same.
  - destruct (sightings_counted calls w0 Hcalls) as (answers & w' & Hrun & Hdom & Hsum).
    rewrite Hempty, dom_empty_L, map_size_empty in *.
    assert (repeats (∅ : gmap string duplicate_hash) = 0) as Hzero by done.
    rewrite Hzero in Hsum. rewrite (left_id_L ∅ (∪)) in Hdom.
    assert (size (index_of w') = size (list_to_set (digest <$> calls) : gset string))
      as Hsize by by rewrite <- size_dom, Hdom.
    exists answers, w'. eexists. split; [exact Hrun|].
    unfold DbQueries.get_duplicate_statistics, try_except.
    rewrite transaction_run. cbn [fst snd]. rewrite set_db_same.
    f_equal. f_equal. f_equal. fold (index_of w'). f_equal.
    + by rewrite Hsize.
    + unfold DbQueries.sum_over. fold (repeats (index_of w')).
      destruct calls as [|c calls].
      * rewrite bool_decide_eq_true_2; [done|].
        apply map_size_empty_inv. rewrite Hsize. done.
      * rewrite bool_decide_eq_false_2.
        2:{ intros Hnil.
            assert (digest c ∈ dom (index_of w')) as Hin.
            { rewrite Hdom, fmap_cons, list_to_set_cons.
              apply elem_of_union_l, elem_of_singleton. reflexivity. }
            rewrite Hnil, dom_empty_L in Hin. by apply elem_of_empty in Hin. }
        f_equal. rewrite <- Hsize. lia.
Qed.

Lemma every_sighting_is_counted_once_witness :
  let calls := [Sighting quiet "ab12" "/in/a.txt" 10;
                Sighting quiet "cd34" "/in/b.txt" 20;
                Sighting quiet "ab12" "/in/c.txt" 10] in
  let w0 := snd (DbQueries.clear_duplicate_cache None
                   (MkWorld ∅ empty_database (Counters 0 0 0))) in
  Forall (fun c => db_fault (at_ c) AddDuplicateHash = None) calls
  ∧ ∃ answers w' wasted,
      sightings calls w0 = (Ok answers, w')
      ∧ DbQueries.get_duplicate_statistics None w'
        = (Ok (Some (DbQueries.DuplicateStatistics 2 (Some 1) wasted)), w').
Proof.
  cbv zeta.
  assert (Forall (fun c => db_fault (at_ c) AddDuplicateHash = None)
            [Sighting quiet "ab12" "/in/a.txt" 10;
             Sighting quiet "cd34" "/in/b.txt" 20;
             Sighting quiet "ab12" "/in/c.txt" 10]) as Hall.
  { repeat constructor. }
  split; [exact Hall|].
  destruct (every_sighting_is_counted_once _
              (MkWorld ∅ empty_database (Counters 0 0 0)) Hall)
    as (_ & answers & w' & wasted & Hrun & Hstat).
  exists answers, w', wasted. split; [exact Hrun | exact Hstat].
Defined.

(** ** The ids of the ledger *)

(** The ids grow along the ledger and none is above the counter. *)
Definition ledger_ids_ok (d : database) : Prop :=
  StronglySorted Z.lt (op_id <$> file_operations d)
  ∧ Forall (fun o => op_id o ≤ file_operations_seq d) (file_operations d).

(** The ledger grew by at most one row, which got the next id, and the rows
    it had kept their ids. *)
Definition ledger_step (d d' : database) : Prop :=
  ∃ new,
    op_id <$> file_operations d' = (op_id <$> file_operations d) ++ new
    ∧ ((new = [] ∧ file_operations_seq d' = file_operations_seq d)
       ∨ (new = [file_operations_seq d + 1]
          ∧ file_operations_seq d' = file_operations_seq d + 1)).

Lemma ledger_step_ok d d' : ledger_step d d' → ledger_ids_ok d → ledger_ids_ok d'.
Proof.
  intros (new & Hids & Hnew) [Hsorted Hbound].
  assert (Forall (fun i => i ≤ file_operations_seq d) (op_id <$> file_operations d))
    as Hb by by apply Forall_fmap.
  split; [|apply (Forall_fmap op_id (fun i => i ≤ file_operations_seq d'))];
    rewrite Hids; destruct Hnew as [[-> Hseq] | [-> Hseq]];
    rewrite ?Hseq, ?app_nil_r; try done.
  - apply StronglySorted_app_2; [|done | repeat constructor].
    intros i j Hi Hj. apply list_elem_of_singleton in Hj as ->.
    rewrite Forall_forall in Hb. specialize (Hb i Hi). lia.
  - apply Forall_app. split; [|repeat constructor; lia].
    eapply Forall_impl; [exact Hb|]. intros i Hi. cbn in Hi. lia.
Qed.

Lemma op_id_set_can_undo id o : op_id (Db.set_can_undo id o) = op_id o.
Proof. unfold Db.set_can_undo. by destruct (op_id o =? id). Qed.

Lemma ledger_step_log E fn orig dest cat kind size h ok err w :
  ledger_step (db w)
    (db (snd (Db.log_operation E fn orig dest cat kind size h ok err w))).
Proof.
  rewrite log_operation_run. destruct (db_fault E LogOperation); cbn [snd].
  - exists []. rewrite app_nil_r. auto.
  - exists [file_operations_seq (db w) + 1]. cbn. rewrite fmap_app. auto.
Qed.

Section Ids.
Context {re : PyRe}.

Ltac ledger_rows :=
  try match goal with
      | H : _ ∧ _ |- _ => destruct H as (_ & _ & _ & -> & ->)
      end;
  cbn [db set_db Db.insert_operation file_operations file_operations_seq];
  rewrite ?fmap_app;
  (split; [reflexivity|]);
  first [ left; split; reflexivity | right; split; reflexivity ].

Lemma ledger_step_organize_file self E p w :
  ledger_step (db w) (db (snd (FileOrganizer.organize_file self E p w))).
Proof.
  destruct (db_fault E LogOperation) as [msg|] eqn:Hlog.
  - exists []. rewrite app_nil_r.
    organize_by_cases; cbn [fst snd]; rewrite ?Hlog; end_worlds;
      rewrite ?Hlog in *; ledger_rows.
  - exists [file_operations_seq (db w) + 1].
    organize_by_cases; cbn [fst snd]; rewrite ?Hlog; end_worlds;
      rewrite ?Hlog in *; ledger_rows.
Qed.

Lemma ledger_step_undo_operation E id w :
  ledger_step (db w) (db (snd (HistoryViewer.undo_operation E id w))).
Proof.
  assert (ledger_step (db w) (db w)) as Hrefl
    by (exists []; rewrite app_nil_r; auto).
  rewrite undo_operation_cases. unfold undo_cases.
  destruct (HistoryViewer.find_operation _ id) as [entry|]; [|done].
  destruct (confirm E); cbn [negb]; [|done].
  cbv zeta. destruct (Os.exists_ (fs w) _); cbn [negb]; [|done].
  destruct (Os.mkdir E _ w) as [[[]|e] w1] eqn:Hmkdir.
  2:{ by apply mkdir_raises in Hmkdir as ->. }
  destruct (mkdir_ok _ _ _ _ Hmkdir) as (Hdb & _ & _).
  destruct (Os.move E _ _ w1) as [[[]|e] w2] eqn:Hmove; cbn [snd].
  2:{ apply move_raises in Hmove as ->. by rewrite Hdb. }
  assert (db w2 = db w) as Hdb2.
  { rewrite <- Hdb.
    pose proof (db_after_move E (of_str (op_destination_path entry))
                  (of_str (op_original_path entry)) w1) as Hm.
    by rewrite Hmove in Hm. }
  unfold restored.
  set (w3 := snd (Db.mark_operation_undone E id w2)).
  assert (op_id <$> file_operations (db w3) = op_id <$> file_operations (db w)
          ∧ file_operations_seq (db w3) = file_operations_seq (db w))
    as [Hids3 Hseq3].
  { unfold w3. rewrite mark_operation_undone_run.
    destruct (db_fault E MarkOperationUndone); cbn [snd]; rewrite <- ?Hdb2; [done|].
    cbn [db set_db file_operations file_operations_seq]. split; [|done].
    rewrite <- list_fmap_compose. apply list_fmap_ext.
    intros ? o _. apply op_id_set_can_undo. }
  destruct (ledger_step_log E (op_filename entry)
              (to_str (of_str (op_destination_path entry)))
              (to_str (of_str (op_original_path entry))) "Undo" "undo"
              (op_file_size entry) None true None w3) as (new & Hids & Hnew).
  exists new. by rewrite Hids, Hids3, <- Hseq3.
Qed.

End Ids.

Lemma increasing_NoDup (l : list Z) : StronglySorted Z.lt l → NoDup l.
Proof.
  induction 1 as [|i l _ IH Hlt]; constructor; [|done].
  intros Hin. rewrite Forall_forall in Hlt. specialize (Hlt i Hin). lia.
Qed.

Lemma find_by_id (ops : list operation) o :
  NoDup (op_id <$> ops) → o ∈ ops →
  HistoryViewer.find_operation ops (op_id o) = Some o.
Proof.
  unfold HistoryViewer.find_operation.
  induction ops as [|o' ops IH]; intros Hnd Hin; [by apply elem_of_nil in Hin|].
  rewrite fmap_cons in Hnd. apply NoDup_cons in Hnd as [Hfresh Hnd].
  cbn [find]. destruct (Z.eqb_spec (op_id o') (op_id o)) as [Heq|Hne].
  - apply elem_of_cons in Hin as [->|Hin]; [done|].
    exfalso. apply Hfresh. rewrite Heq. apply list_elem_of_fmap. by exists o.
  - apply elem_of_cons in Hin as [->|Hin]; [done|]. by apply IH.
Qed.

(** X11.  Every row of the ledger has an id of its own.  In a ledger whose
    ids grow along the rows and stay below the counter, which is how an empty
    ledger starts, they still do after [organize_file] and after
    [undo_operation], whatever the outcome; so the entry that the viewer
    looks up by its id is the one row with that id. *)
Theorem ledger_ids_stay_distinct (re : PyRe) (self : FileOrganizer.t) (E : env)
    (p : Path) (id : Z) (w : world) :
  ledger_ids_ok (db w) →
  ledger_ids_ok (db (snd (FileOrganizer.organize_file self E p w)))
  ∧ ledger_ids_ok (db (snd (HistoryViewer.undo_operation E id w)))
  ∧ NoDup (op_id <$> file_operations (db w))
  ∧ ∀ o, o ∈ file_operations (db w) →
         HistoryViewer.find_operation (file_operations (db w)) (op_id o) = Some o.
Proof.
  intros Hok. split; [|split; [|split]].
  - by apply (ledger_step_ok _ _ (ledger_step_organize_file self E p w)).
  - by apply (ledger_step_ok _ _ (ledger_step_undo_operation E id w)).
  - destruct Hok as [Hsorted _]. by apply increasing_NoDup.
  - intros o Hin. apply find_by_id; [|done].
    destruct Hok as [Hsorted _]. by apply increasing_NoDup.
Qed.

Lemma ledger_ids_stay_distinct_witness :
  let p := ["home"; "u"; "Inbox"; "song.mp3"] in
  let w := inbox_world "song.mp3" 5000 "9f" in
  ledger_ids_ok (db w)
  ∧ ledger_ids_ok
      (db (snd (@FileOrganizer.organize_file Re.engine (plain_organizer 10 true)
                  quiet p w))).
Proof.
  cbv zeta.
  assert (ledger_ids_ok (db (inbox_world "song.mp3" 5000 "9f"))) as Hok.
  { split; constructor. }
  split; [exact Hok|].
  exact (proj1 (ledger_ids_stay_distinct Re.engine (plain_organizer 10 true) quiet
                  ["home"; "u"; "Inbox"; "song.mp3"] 1 _ Hok)).
Defined.

(** ** Statistics of a day *)

(** One call of [update_statistics]. *)
Record tally_update : Type := TallyUpdate
  { u_category : string; u_files : Z; u_size : Z; u_duplicates : Z; u_errors : Z }.

(** The calls in their order, on one day. *)
Fixpoint update_all (E : env) (us : list tally_update) : M unit :=
  match us with
  | [] => ret tt
  | u :: rest =>
      Db.update_statistics E (u_category u) (u_files u) (u_size u)
        (u_duplicates u) (u_errors u) >>
      update_all E rest
  end.

Definition add_statistic (s t : statistic) : statistic :=
  Statistic (files_processed s + files_processed t) (total_size s + total_size t)
    (duplicates_found s + duplicates_found t) (errors_count s + errors_count t).

Definition no_statistic : statistic := Statistic 0 0 0 0.

(** What the calls for one category add up to. *)
Fixpoint tally (cat : string) (us : list tally_update) : statistic :=
  match us with
  | [] => no_statistic
  | u :: rest =>
      if String.eqb (u_category u) cat then
        add_statistic
          (Statistic (u_files u) (u_size u) (u_duplicates u) (u_errors u))
          (tally cat rest)
      else tally cat rest
  end.

Definition mentions (cat : string) (us : list tally_update) : bool :=
  existsb (fun u => String.eqb (u_category u) cat) us.

Lemma counted_lookup E c a b d e st cat :
  counted E c a b d e st !! (today E, cat) =
  if String.eqb c cat then
    Some (add_statistic (default no_statistic (st !! (today E, cat)))
            (Statistic a b d e))
  else st !! (today E, cat).
Proof.
  unfold counted. destruct (String.eqb_spec c cat) as [->|Hne].
  - rewrite lookup_insert_eq. destruct (st !! (today E, cat)) as [s|]; cbn.
    + done.
    + unfold add_statistic. cbn. f_equal.
  - rewrite lookup_insert_ne; [done|]. congruence.
Qed.

Lemma counted_other_day E c a b d e st day cat :
  day ≠ today E → counted E c a b d e st !! (day, cat) = st !! (day, cat).
Proof. intros Hne. unfold counted. rewrite lookup_insert_ne; [done|]. congruence. Qed.

Lemma add_statistic_assoc s t u :
  add_statistic (add_statistic s t) u = add_statistic s (add_statistic t u).
Proof. unfold add_statistic. cbn. f_equal; lia. Qed.

Lemma add_no_statistic s : add_statistic s no_statistic = s.
Proof. destruct s. unfold add_statistic. cbn. f_equal; lia. Qed.

Lemma tally_unmentioned cat us : mentions cat us = false → tally cat us = no_statistic.
Proof.
  induction us as [|u us IH]; [done|]. cbn [mentions existsb tally].
  intros Hm. apply orb_false_iff in Hm as [-> Hm]. by apply IH.
Qed.

(** X12.  The statistics of a day accumulate.  After any sequence of calls of
    [update_statistics] on one day, the row of the day and of a category
    holds what it held before plus the sums of the counts of the calls for
    that category, in whatever order and however interleaved with other
    categories they came; a category that no call names keeps its row, or
    none, and the rows of other days are untouched.  Nothing else changes. *)
Theorem statistics_accumulate (E : env) (us : list tally_update) (w : world) :
  db_fault E UpdateStatistics = None →
  ∃ w',
    update_all E us w = (Ok tt, w')
    ∧ (∀ cat,
         statistics (db w') !! (today E, cat) =
         if mentions cat us then
           Some (add_statistic
                   (default no_statistic (statistics (db w) !! (today E, cat)))
                   (tally cat us))
         else statistics (db w) !! (today E, cat))
    ∧ (∀ day cat, day ≠ today E →
         statistics (db w') !! (day, cat) = statistics (db w) !! (day, cat))
    ∧ fs w' = fs w ∧ stats w' = stats w
    ∧ file_operations (db w') = file_operations (db w)
    ∧ duplicate_hashes (db w') = duplicate_hashes (db w).
Proof.
  intros Hfault. revert w. induction us as [|u us IH]; intros w.
  - exists w. by repeat split.
  - cbn [update_all]. unfold bind.
    rewrite (update_statistics_pair E (u_category u) (u_files u) (u_size u)
               (u_duplicates u) (u_errors u) w).
    set (w1 := snd (Db.update_statistics E _ _ _ _ _ w)).
    pose proof (statistics_after_update E (u_category u) (u_files u) (u_size u)
                  (u_duplicates u) (u_errors u) w) as Hst.
    rewrite Hfault in Hst. fold w1 in Hst.
    destruct (after_update_statistics E (u_category u) (u_files u) (u_size u)
                (u_duplicates u) (u_errors u) w) as (Hfs & Hc & Hidx & Hops & _).
    fold w1 in Hfs, Hc, Hidx, Hops.
    destruct (IH w1) as (w' & -> & Hrows & Hdays & Hfs' & Hc' & Hops' & Hidx').
    exists w'. split; [done|]. split; [|split].
    + intros cat. rewrite Hrows, Hst, counted_lookup. cbn [mentions existsb tally].
      fold (mentions cat us).
      destruct (String.eqb (u_category u) cat); cbn [orb].
      * destruct (mentions cat us) eqn:Hm; cbn [default id].
        -- by rewrite add_statistic_assoc.
        -- by rewrite (tally_unmentioned _ _ Hm), add_no_statistic.
      * done.
    + intros day cat Hne. by rewrite Hdays, Hst, counted_other_day.
    + repeat split; congruence.
Qed.

Lemma statistics_accumulate_witness :
  let us := [TallyUpdate "Documents" 1 100 0 0; TallyUpdate "Images" 1 50 0 0;
             TallyUpdate "Documents" 1 7 0 0] in
  let w := MkWorld ∅ empty_database (Counters 0 0 0) in
  db_fault quiet UpdateStatistics = None
  ∧ ∃ w', update_all quiet us w = (Ok tt, w')
          ∧ statistics (db w') !! (today quiet, "Documents")
            = Some (Statistic 2 107 0 0).
Proof.
  cbv zeta. split; [reflexivity|].
  destruct (statistics_accumulate quiet
              [TallyUpdate "Documents" 1 100 0 0; TallyUpdate "Images" 1 50 0 0;
               TallyUpdate "Documents" 1 7 0 0]
              (MkWorld ∅ empty_database (Counters 0 0 0)) eq_refl)
    as (w' & Hrun & Hrows & _).
  exists w'. split; [exact Hrun|]. rewrite Hrows. reflexivity.
Defined.

(** * Classification, content analysis and rules *)

(** ** The classifier *)









Lemma first_category_in hit table c :
  FileClassifier.first_category hit table = Some c → In c (map fst table).
Proof.
  induction table as [|[category items] table IH]; [done|]. cbn.
  destruct (hit items); [intros [= ->]; by left | right; by apply IH].
Qed.

Definition extension_categories : list string :=
  "Other" :: map fst FileClassifier.EXTENSION_RULES.

Definition keyword_categories : list string :=
  map fst FileClassifier.KEYWORD_RULES.

Lemma classify_by_extension_known p :
  In (FileClassifier.classify_by_extension p) extension_categories.
Proof.
  unfold FileClassifier.classify_by_extension, extension_categories.
  destruct (FileClassifier.first_category _ _) as [c|] eqn:Hc; cbn [default].
  - right. by apply first_category_in in Hc.
  - by left.
Qed.

Lemma classify_known p use_ai :
  In (FileClassifier.classify p use_ai)
    (extension_categories ++ if use_ai then keyword_categories else []).
Proof.
  unfold FileClassifier.classify. apply in_or_app.
  destruct use_ai.
  - destruct (FileClassifier.classify_by_name p) as [c|] eqn:Hc;
      [|left; apply classify_by_extension_known].
    destruct (PyStr.truthy c); [|left; apply classify_by_extension_known].
    right. by apply first_category_in in Hc.
  - left. apply classify_by_extension_known.
Qed.

Lemma classify_truthy p use_ai : PyStr.truthy (FileClassifier.classify p use_ai) = true.
Proof.
  pose proof (classify_known p use_ai) as Hin.
  assert (Forall (fun c => PyStr.truthy c = true)
            (extension_categories ++ keyword_categories)) as Hall
    by (repeat constructor).
  rewrite Forall_forall in Hall. apply Hall, list_elem_of_In.
  apply in_app_or in Hin as [Hin | Hin]; apply in_or_app; [by left|].
  destruct use_ai; [by right | done].
Qed.

Section Categories.
Context {re : PyRe}.

Lemma tier3_truthy self p o : PyStr.truthy (FileOrganizer.tier3 self p o) = true.
Proof.
  unfold FileOrganizer.tier3. destruct o as [c|]; [|apply classify_truthy].
  destruct (PyStr.truthy c) eqn:Hc; [done | apply classify_truthy].
Qed.

Lemma category_truthy self E p w : PyStr.truthy (category self E p w) = true.
Proof.
  unfold category, FileOrganizer.classification, bind.
  destruct (tier1_answers self E p w) as [t1 ->].
  destruct (tier2_answers self p (fst t1) (snd t1) w) as (o & -> & _).
  apply tier3_truthy.
Qed.

Lemma category_plain self E p w :
  FileOrganizer.rules_engine self = None →
  FileOrganizer.content_analyzer self = None →
  category self E p w
  = FileClassifier.classify p (FileOrganizer.ai_classification (FileOrganizer.config self)).
Proof.
  intros Hrules Hanalyzer.
  unfold category, FileOrganizer.classification, bind.
  rewrite (tier1_without_rules self E p w Hrules). cbn [fst snd].
  unfold FileOrganizer.tier2. rewrite Hanalyzer. reflexivity.
Qed.

End Categories.

(** X15.  The category that [organize_file] returns is empty exactly when
    the call failed: a file that was moved always has a category, since the
    three tiers never end without one.  Without custom rules and without a
    content analyzer that category is [Duplicates] or one of the categories
    of the extension table, [Other] included, or, with the classification by
    keywords switched on, of the keyword table. *)
Theorem organize_file_names_a_category (re : PyRe) (self : FileOrganizer.t)
    (E : env) (p : Path) (w : world) :
  ∃ r,
    fst (FileOrganizer.organize_file self E p w) = Ok r
    ∧ succeeded r = PyStr.truthy (category_of r)
    ∧ (FileOrganizer.rules_engine self = None →
       FileOrganizer.content_analyzer self = None →
       succeeded r = true →
       In (category_of r)
         ("Duplicates" :: extension_categories
            ++ if FileOrganizer.ai_classification (FileOrganizer.config self)
               then keyword_categories else [])).
Proof.
  destruct (FileOrganizer.ai_classification (FileOrganizer.config self)) eqn:Hai.
  all: organize_by_cases; cbn [fst snd]; eexists; (split; [reflexivity|]).
  all: unfold succeeded, category_of; cbn [fst snd].
  all: rewrite ?category_truthy.
  all: split; [reflexivity|]; intros Hrules Hanalyzer Hok; try discriminate Hok.
  all: try (by left).
  all: right; rewrite (category_plain _ _ _ _ Hrules Hanalyzer), Hai.
  all: apply classify_known.
Qed.

(** ** The content analyzer *)

Lemma length_take n s : (String.length (PyStr.take n s) ≤ n)%nat.
Proof.
  revert s. induction n as [|n IH]; intros [|c s]; cbn; try lia.
  specialize (IH s). lia.
Qed.

Lemma analyze_image_without_ocr self data :
  ContentAnalyzer.ocr_enabled self = false →
  snd (ContentAnalyzer._analyze_image self data) = "".
Proof.
  intros Hocr. unfold ContentAnalyzer._analyze_image. rewrite Hocr.
  destruct data as [c|]; [|done]. destruct (pil_open c) as [img|]; [|done].
  by destruct (getexif img).
Qed.

Lemma analyze_pdf_bound data :
  (String.length (snd (ContentAnalyzer._analyze_pdf data)) ≤ 2000)%nat.
Proof.
  unfold ContentAnalyzer._analyze_pdf. destruct data as [c|]; [|cbn; lia].
  destruct (pypdf2 c); [apply length_take | cbn; lia].
Qed.

Lemma analyze_document_bound p data :
  (String.length (snd (ContentAnalyzer._analyze_document p data)) ≤ 2000)%nat.
Proof.
  unfold ContentAnalyzer._analyze_document. destruct data as [c|]; [|cbn; lia].
  destruct (String.eqb _ ".txt").
  - destruct (read_text c); [apply length_take | cbn; lia].
  - destruct (PyStr.mem _ _); [|cbn; lia].
    destruct (docx c); [apply length_take | cbn; lia].
Qed.

(** What [analyze_file] returns is built from the metadata and the text of
    the extractor of the file type. *)
Lemma analyze_shape self p f :
  ∃ md text,
    ContentAnalyzer.analyze self p f =
    (if PyStr.truthy text then
       ContentAnalyzer.Analysis text md (ContentAnalyzer._extract_keywords text)
         (ContentAnalyzer._suggest_category
            (ContentAnalyzer.Analysis text md
               (ContentAnalyzer._extract_keywords text) None (of_int 0)))
         (of_int 0)
     else ContentAnalyzer.Analysis text md [] None (of_int 0))
    ∧ (In (ContentAnalyzer._get_file_type p) ["audio"; "video"; "unknown"] → text = "")
    ∧ (ContentAnalyzer._get_file_type p = "image" →
       ContentAnalyzer.ocr_enabled self = false → text = "")
    ∧ (ContentAnalyzer._get_file_type p = "image"
       ∨ (String.length text ≤ 2000)%nat).
Proof.
  unfold ContentAnalyzer.analyze. cbv zeta.
  generalize (ContentAnalyzer._get_file_type p) as ft. intros ft.
  set (data := ContentAnalyzer.file_data (f !! p)).
  destruct (String.eqb_spec ft "image") as [->|Himage].
  { eexists _, _. split; [reflexivity|]. cbn [ContentAnalyzer.content_text snd].
    split; [|split; [|by left]].
    - intros [H|[H|[H|[]]]]; discriminate H.
    - intros _. apply analyze_image_without_ocr. }
  destruct (String.eqb_spec ft "pdf") as [->|Hpdf].
  { eexists _, _. split; [reflexivity|]. cbn [ContentAnalyzer.content_text snd].
    split; [|split; [done|right; apply analyze_pdf_bound]].
    intros [H|[H|[H|[]]]]; discriminate H. }
  destruct (String.eqb_spec ft "document") as [->|Hdoc].
  { eexists _, _. split; [reflexivity|]. cbn [ContentAnalyzer.content_text snd].
    split; [|split; [done|right; apply analyze_document_bound]].
    intros [H|[H|[H|[]]]]; discriminate H. }
  destruct (String.eqb ft "audio"); [|destruct (String.eqb ft "video")].
  all: eexists _, ""; (split; [reflexivity|]); cbn; repeat split; try done.
  all: right; lia.
Qed.

Definition vocabulary : list string :=
  ContentAnalyzer.financial_terms ++ ContentAnalyzer.work_terms
    ++ ContentAnalyzer.personal_terms.

(** X16.  A file without extracted text gets no suggestion and no keywords,
    whatever its metadata say; so audio, video and unknown files, and images
    while OCR is off (photos with camera data among them), are never given a
    category by the content analyzer.  The confidence is always 0. *)
Theorem no_text_no_suggestion (self : ContentAnalyzer.t) (p : Path)
    (f : gmap (list string) node) :
  let a := ContentAnalyzer.analyze self p f in
  ContentAnalyzer.confidence a = of_int 0
  ∧ (ContentAnalyzer.content_text a = "" →
     ContentAnalyzer.suggested_category a = None ∧ ContentAnalyzer.keywords a = [])
  ∧ (In (ContentAnalyzer._get_file_type p) ["audio"; "video"; "unknown"] →
     ContentAnalyzer.content_text a = "")
  ∧ (ContentAnalyzer._get_file_type p = "image" →
     ContentAnalyzer.ocr_enabled self = false →
     ContentAnalyzer.content_text a = "").
Proof.
  cbv zeta. destruct (analyze_shape self p f) as (md & text & -> & Hnone & Himage & _).
  assert (∀ b : bool, ContentAnalyzer.content_text
            (if b then
               ContentAnalyzer.Analysis text md (ContentAnalyzer._extract_keywords text)
                 (ContentAnalyzer._suggest_category
                    (ContentAnalyzer.Analysis text md
                       (ContentAnalyzer._extract_keywords text) None (of_int 0)))
                 (of_int 0)
             else ContentAnalyzer.Analysis text md [] None (of_int 0)) = text) as Htext
    by by intros [].
  rewrite Htext. split; [by destruct (PyStr.truthy text)|].
  split; [|by split]. by intros ->.
Qed.

(** X17.  The text that the analyzer keeps of a PDF or a document is at most
    2000 characters long (only the OCR text of an image is kept whole), and
    its keywords are distinct terms of the fixed vocabulary, each of which
    occurs in the text, letter case apart. *)
Theorem analysis_is_bounded (self : ContentAnalyzer.t) (p : Path)
    (f : gmap (list string) node) :
  let a := ContentAnalyzer.analyze self p f in
  (ContentAnalyzer._get_file_type p = "image"
   ∨ (String.length (ContentAnalyzer.content_text a) ≤ 2000)%nat)
  ∧ NoDup (ContentAnalyzer.keywords a)
  ∧ Forall (fun k => In k vocabulary
                     ∧ PyStr.contains k (PyStr.lower (ContentAnalyzer.content_text a))
                       = true)
      (ContentAnalyzer.keywords a).
Proof.
  cbv zeta. destruct (analyze_shape self p f) as (md & text & -> & _ & _ & Hbound).
  destruct (PyStr.truthy text) eqn:Htext;
    cbn [ContentAnalyzer.content_text ContentAnalyzer.keywords].
  2:{ split; [done|]. split; constructor. }
  split; [done|]. unfold ContentAnalyzer._extract_keywords. rewrite Htext.
  cbn [negb]. split.
  - apply NoDup_ListNoDup, List.NoDup_filter, NoDup_ListNoDup.
    apply (bool_decide_unpack _). by vm_compute.
  - apply Forall_forall. intros k Hk.
    apply list_elem_of_In, filter_In in Hk as [Hin Hk]. by split.
Qed.

Definition finance_terms : list string :=
  ["invoice"; "receipt"; "payment"; "bill"; "tax"].

Lemma mem_true x xs : In x xs → PyStr.mem x xs = true.
Proof.
  intros Hin. unfold PyStr.mem. apply existsb_exists. exists x.
  split; [done | apply String.eqb_refl].
Qed.

Lemma contains_nonempty needle hay :
  needle ≠ "" → PyStr.contains needle hay = true → PyStr.truthy hay = true.
Proof. intros Hne. destruct hay; [|done]. by destruct needle. Qed.

Lemma lower_truthy s : PyStr.truthy (PyStr.lower s) = PyStr.truthy s.
Proof. by destruct s. Qed.

(** X18.  A file in whose extracted text one of the words invoice, receipt,
    payment, bill or tax occurs, in whatever letter case, is suggested the
    category [Finance], whatever else the text and the metadata hold. *)
Theorem financial_text_is_finance (self : ContentAnalyzer.t) (p : Path)
    (f : gmap (list string) node) (kw : string) :
  In kw finance_terms →
  PyStr.contains kw
    (PyStr.lower (ContentAnalyzer.content_text (ContentAnalyzer.analyze self p f)))
  = true →
  ContentAnalyzer.suggested_category (ContentAnalyzer.analyze self p f)
  = Some "Finance".
Proof.
  intros Hkw. destruct (analyze_shape self p f) as (md & text & -> & _).
  assert (kw ≠ "") as Hne.
  { intros ->. repeat destruct Hkw as [Hkw|Hkw]; done. }
  destruct (PyStr.truthy text) eqn:Htext;
    cbn [ContentAnalyzer.content_text ContentAnalyzer.suggested_category];
    intros Hin.
  2:{ apply (contains_nonempty _ _ Hne) in Hin. rewrite lower_truthy in Hin.
      congruence. }
  unfold ContentAnalyzer._suggest_category. cbn [ContentAnalyzer.keywords].
  assert (ContentAnalyzer.any_in finance_terms
            (ContentAnalyzer._extract_keywords text) = true) as Hany.
  2:{ unfold finance_terms in Hany. by rewrite Hany. }
  unfold ContentAnalyzer.any_in. apply existsb_exists. exists kw.
  split; [done|]. apply mem_true.
  unfold ContentAnalyzer._extract_keywords. rewrite Htext. cbn [negb].
  apply filter_In. split; [|done].
  apply in_or_app. left. unfold ContentAnalyzer.financial_terms.
  repeat destruct Hkw as [<-|Hkw]; cbn; auto 10.
Qed.

Definition invoice_note : gmap (list string) node :=
  <[["in"; "note.txt"] :=
      File (StatResult 18 0)
        (Content "77" None None None (Some "Invoice 42 for May") None None)]> ∅.

Lemma financial_text_is_finance_witness :
  In "invoice" finance_terms
  ∧ PyStr.contains "invoice"
      (PyStr.lower
         (ContentAnalyzer.content_text
            (ContentAnalyzer.analyze (ContentAnalyzer.Make false true)
               ["in"; "note.txt"] invoice_note))) = true
  ∧ ContentAnalyzer.suggested_category
      (ContentAnalyzer.analyze (ContentAnalyzer.Make false true)
         ["in"; "note.txt"] invoice_note) = Some "Finance".
Proof.
  assert (In "invoice" finance_terms) as Hin by (left; reflexivity).
  split; [exact Hin|]. split; [reflexivity|].
  exact (financial_text_is_finance (ContentAnalyzer.Make false true)
           ["in"; "note.txt"] invoice_note "invoice" Hin eq_refl).
Defined.

(** ** Rules: the first match, thresholds and extensions *)

Section FirstMatch.
Context {re : PyRe}.

Lemma matches_disabled r E p md w :
  RulesEngine.enabled r = false → RulesEngine.matches r E p md w = (Ok false, w).
Proof. intros Hoff. unfold RulesEngine.matches. by rewrite Hoff. Qed.

Lemma matches_enabled r E p md w :
  RulesEngine.matches r E p md w = (Ok true, w) → RulesEngine.enabled r = true.
Proof.
  destruct (RulesEngine.enabled r) eqn:Hon; [done|].
  by rewrite matches_disabled.
Qed.

Lemma matches_bad_regex r E p md w :
  RulesEngine.is_regex_pattern (RulesEngine.pattern r) = true →
  re_match_ignorecase (RulesEngine.pattern r) (name p) = None →
  RulesEngine.matches r E p md w = (Ok false, w).
Proof.
  intros Hregex Hbad. unfold RulesEngine.matches.
  destruct (negb _); [done|].
  unfold try_except, bind, RulesEngine._match_pattern. by rewrite Hregex, Hbad.
Qed.

Lemma first_match_split rs E p md w :
  ∃ o, RulesEngine.first_match rs E p md w = (Ok o, w)
       ∧ match o with
         | Some target =>
             ∃ pre r post,
               rs = pre ++ r :: post
               ∧ Forall (fun q => RulesEngine.matches q E p md w = (Ok false, w)) pre
               ∧ RulesEngine.matches r E p md w = (Ok true, w)
               ∧ target = RulesEngine.target_folder r
         | None =>
             Forall (fun q => RulesEngine.matches q E p md w = (Ok false, w)) rs
         end.
Proof.
  induction rs as [|r rs (o & IH & Ho)]; cbn [RulesEngine.first_match].
  - exists None. by split.
  - unfold bind. destruct (matches_answers r E p md w) as [[] Hr]; rewrite Hr.
    + exists (Some (RulesEngine.target_folder r)). split; [done|].
      exists [], r, rs. by repeat split.
    + exists o. split; [done|]. destruct o as [target|].
      * destruct Ho as (pre & r' & post & -> & Hpre & Hr' & ->).
        exists (r :: pre), r', post. repeat split; try done. by constructor.
      * by constructor.
Qed.

End FirstMatch.

(** X19.  [apply_rules] never raises and leaves the world as it is.  It
    returns the target folder of the first rule of the list that matches,
    and [None] when none does; a disabled rule does not match, and neither
    does a rule whose regular expression cannot be compiled: such a rule is
    passed over, and the rules after it are still tried. *)
Theorem apply_rules_returns_the_first_match (re : PyRe) (engine : RulesEngine.t)
    (E : env) (p : Path) (md : option ContentAnalyzer.analysis) (w : world) :
  (∃ o, RulesEngine.apply_rules engine E p md w = (Ok o, w)
        ∧ match o with
          | Some target =>
              ∃ pre r post,
                RulesEngine.rules engine = pre ++ r :: post
                ∧ Forall (fun q => RulesEngine.matches q E p md w = (Ok false, w)) pre
                ∧ RulesEngine.matches r E p md w = (Ok true, w)
                ∧ RulesEngine.enabled r = true
                ∧ target = RulesEngine.target_folder r
          | None =>
              Forall (fun q => RulesEngine.matches q E p md w = (Ok false, w))
                (RulesEngine.rules engine)
          end)
  ∧ (∀ q, RulesEngine.enabled q = false →
          RulesEngine.matches q E p md w = (Ok false, w))
  ∧ (∀ q, RulesEngine.is_regex_pattern (RulesEngine.pattern q) = true →
          re_match_ignorecase (RulesEngine.pattern q) (name p) = None →
          RulesEngine.matches q E p md w = (Ok false, w)).
Proof.
  split; [|split].
  - unfold RulesEngine.apply_rules.
    destruct (first_match_split (RulesEngine.rules engine) E p md w)
      as (o & Hrun & Ho).
    exists o. split; [done|]. destruct o as [target|]; [|done].
    destruct Ho as (pre & r & post & Hrules & Hpre & Hr & Htarget).
    exists pre, r, post. repeat split; try done. by apply matches_enabled in Hr.
  - intros q. apply matches_disabled.
  - intros q. apply matches_bad_regex.
Qed.

(** A rule with thresholds only. *)
Definition threshold_rule (pattern : string) (lo hi older newer : Z)
  : RulesEngine.Rule :=
  RulesEngine.MkRule 1 "thresholds" pattern "Target"
    (RulesEngine.Conditions (Some (of_int lo)) (Some (of_int hi))
       (Some (of_int older)) (Some (of_int newer)) None None None)
    0 true.

Lemma dy_lt_size_int size limit :
  size < 2 ^ 53 →
  dy_lt (size_mb size) (of_int limit) = (size <? limit * PyNum.MB).
Proof.
  intros Hsmall. unfold dy_lt, size_mb, of_int, PyNum.div_mb. cbn [num shift].
  rewrite (round53_small _ Hsmall).
  change (2 ^ Z.max 0 0) with 1. change (2 ^ Z.max 0 20) with PyNum.MB.
  by rewrite Z.mul_1_r.
Qed.

Lemma dy_lt_int_size size limit :
  size < 2 ^ 53 →
  dy_lt (of_int limit) (size_mb size) = (limit * PyNum.MB <? size).
Proof.
  intros Hsmall. unfold dy_lt, size_mb, of_int, PyNum.div_mb. cbn [num shift].
  rewrite (round53_small _ Hsmall).
  change (2 ^ Z.max 0 0) with 1. change (2 ^ Z.max 0 20) with PyNum.MB.
  by rewrite Z.mul_1_r.
Qed.

Lemma dy_lt_ints a b : dy_lt (of_int a) (of_int b) = (a <? b).
Proof.
  unfold dy_lt, of_int. cbn [num shift]. change (2 ^ Z.max 0 0) with 1.
  by rewrite !Z.mul_1_r.
Qed.

Lemma condition_on_stat {A} (E : env) (p : Path) (w : world) (n : node) (v : A)
    (test : stat_result → A → bool) (rest : M bool) :
  fs w !! p = Some n →
  os_fault E (Stat p) = None →
  RulesEngine.condition (Some v)
    (fun limit => let* st := Os.stat E p in ret (test st limit)) rest w
  = if test (node_stat n) v then rest w else (Ok false, w).
Proof.
  intros Hfile Hstat. unfold RulesEngine.condition, bind, Os.stat, ret.
  rewrite Hstat, Hfile. by destruct (test (node_stat n) v).
Qed.

(** X20.  The thresholds of a rule are inclusive.  For a file of less than
    [2^53] bytes whose [stat] goes through, a rule with a smallest and a
    largest size in MB and a smallest and a largest age in days holds of the
    file exactly when its size is between the two sizes and its age, in
    whole days elapsed since the modification time, between the two ages,
    the bounds themselves allowed. *)
Theorem thresholds_are_inclusive (pattern : string)
    (lo hi older newer : Z) (E : env) (p : Path)
    (md : option ContentAnalyzer.analysis) (w : world) (n : node) :
  fs w !! p = Some n →
  os_fault E (Stat p) = None →
  st_size (node_stat n) < 2 ^ 53 →
  let size := st_size (node_stat n) in
  let age := (now E - st_mtime (node_stat n)) / day in
  RulesEngine._check_conditions (threshold_rule pattern lo hi older newer) E p md w
  = (Ok (bool_decide (lo * PyNum.MB ≤ size ≤ hi * PyNum.MB ∧ older ≤ age ≤ newer)), w).
Proof.
  intros Hfile Hstat Hsmall. cbv zeta.
  unfold RulesEngine._check_conditions, threshold_rule.
  cbn [RulesEngine.rule_conditions RulesEngine.min_size_mb RulesEngine.max_size_mb
       RulesEngine.older_than_days RulesEngine.newer_than_days
       RulesEngine.extensions RulesEngine.contains_text RulesEngine.has_gps].
  rewrite (condition_on_stat E p w n _
             (fun st limit => negb (dy_lt (size_mb (st_size st)) limit)) _ Hfile Hstat).
  rewrite (dy_lt_size_int _ _ Hsmall).
  destruct (Z.ltb_spec (st_size (node_stat n)) (lo * PyNum.MB)); cbn [negb].
  { rewrite bool_decide_eq_false_2; [done | lia]. }
  rewrite (condition_on_stat E p w n _
             (fun st limit => negb (dy_lt limit (size_mb (st_size st)))) _ Hfile Hstat).
  rewrite (dy_lt_int_size _ _ Hsmall).
  destruct (Z.ltb_spec (hi * PyNum.MB) (st_size (node_stat n))); cbn [negb].
  { rewrite bool_decide_eq_false_2; [done | lia]. }
  rewrite (condition_on_stat E p w n _
             (fun st limit =>
                negb (dy_lt (of_int (days_between (now E) (st_mtime st))) limit))
             _ Hfile Hstat).
  rewrite dy_lt_ints. unfold days_between.
  destruct (Z.ltb_spec ((now E - st_mtime (node_stat n)) / day) older); cbn [negb].
  { rewrite bool_decide_eq_false_2; [done | lia]. }
  rewrite (condition_on_stat E p w n _
             (fun st limit =>
                negb (dy_lt limit (of_int (days_between (now E) (st_mtime st)))))
             _ Hfile Hstat).
  rewrite dy_lt_ints. unfold days_between.
  destruct (Z.ltb_spec newer ((now E - st_mtime (node_stat n)) / day)); cbn [negb].
  { rewrite bool_decide_eq_false_2; [done | lia]. }
  cbn [RulesEngine.condition]. unfold ret.
  rewrite bool_decide_eq_true_2; [done | lia].
Qed.

Lemma lower_ascii_idemp c : PyStr.lower_ascii (PyStr.lower_ascii c) = PyStr.lower_ascii c.
Proof. by destruct c as [[] [] [] [] [] [] [] []]. Qed.

Lemma lower_idemp s : PyStr.lower (PyStr.lower s) = PyStr.lower s.
Proof.
  induction s as [|c s IH]; [done|]. cbn [PyStr.lower].
  by rewrite IH, lower_ascii_idemp.
Qed.

Lemma mem_In x xs : PyStr.mem x xs = true → In x xs.
Proof.
  unfold PyStr.mem. intros Hm. apply existsb_exists in Hm as (y & Hin & Heq).
  by apply String.eqb_eq in Heq as ->.
Qed.

(** A rule with a list of extensions only. *)
Definition extension_rule (pattern : string) (exts : list string) : RulesEngine.Rule :=
  RulesEngine.MkRule 1 "extensions" pattern "Target"
    (RulesEngine.Conditions None None None None (Some exts) None None)
    0 true.

(** X22.  The extension of the file is put in lower case before it is looked
    up in the list of a rule, and the list is taken as it is written: the
    condition holds exactly when the lower-case suffix of the file is an
    entry of the list, so an entry with a capital letter in it is met by no
    file at all. *)
Theorem extensions_are_matched_in_lower_case (pattern : string)
    (exts : list string) (E : env) (p : Path)
    (md : option ContentAnalyzer.analysis) (w : world) :
  RulesEngine._check_conditions (extension_rule pattern exts) E p md w
  = (Ok (PyStr.mem (PyStr.lower (suffix p)) exts), w)
  ∧ (PyStr.mem (PyStr.lower (suffix p)) exts = true → In (PyStr.lower (suffix p)) exts)
  ∧ (Forall (fun e => PyStr.lower e ≠ e) exts →
     PyStr.mem (PyStr.lower (suffix p)) exts = false).
Proof.
  split; [|split].
  - unfold RulesEngine._check_conditions, extension_rule, RulesEngine.condition.
    cbn. unfold bind, ret. by destruct (PyStr.mem _ exts).
  - apply mem_In.
  - intros Hupper. destruct (PyStr.mem _ exts) eqn:Hm; [|done].
    apply mem_In in Hm. rewrite Forall_forall in Hupper.
    apply list_elem_of_In in Hm. specialize (Hupper _ Hm).
    by rewrite lower_idemp in Hupper.
Qed.

Lemma thresholds_are_inclusive_witness :
  let p := ["in"; "film.mp4"] in
  let n := File (StatResult (2 * PyNum.MB) 0) (blank "5e") in
  let w := MkWorld (<[p := n]> ∅) empty_database (Counters 0 0 0) in
  let E := Env (3 * day) (fun _ => None) (fun _ => None) true in
  fs w !! p = Some n
  ∧ os_fault E (Stat p) = None
  ∧ st_size (node_stat n) < 2 ^ 53
  ∧ RulesEngine._check_conditions (threshold_rule "*.mp4" 1 2 3 3) E p None w
    = (Ok true, w).
Proof.
  cbv zeta. split; [reflexivity|]. split; [reflexivity|]. split; [reflexivity|].
  exact (thresholds_are_inclusive "*.mp4" 1 2 3 3
           (Env (3 * day) (fun _ => None) (fun _ => None) true) ["in"; "film.mp4"] None
           (MkWorld (<[["in"; "film.mp4"] := File (StatResult (2 * PyNum.MB) 0) (blank "5e")]> ∅)
              empty_database (Counters 0 0 0))
           (File (StatResult (2 * PyNum.MB) 0) (blank "5e"))
           eq_refl eq_refl eq_refl).
Defined.

(** ** The rules of the engine and their order *)

(** Highest priority first. *)
Definition by_priority (rs : list RulesEngine.Rule) : Prop :=
  StronglySorted (fun a b => RulesEngine.priority b ≤ RulesEngine.priority a) rs.

(** The rules of one priority, in their order. *)
Definition of_priority (k : Z) (rs : list RulesEngine.Rule) : list RulesEngine.Rule :=
  List.filter (fun r => RulesEngine.priority r =? k) rs.

Lemma insert_by_priority_perm r rs : RuleSet.insert_by_priority r rs ≡ₚ r :: rs.
Proof.
  induction rs as [|x rs IH]; [done|]. cbn [RuleSet.insert_by_priority].
  destruct (RulesEngine.priority r <? RulesEngine.priority x); [|done].
  rewrite IH. apply Permutation_swap.
Qed.

Lemma sort_by_priority_perm rs : RuleSet.sort_by_priority rs ≡ₚ rs.
Proof.
  induction rs as [|r rs IH]; [done|]. unfold RuleSet.sort_by_priority in *.
  cbn [foldr]. by rewrite insert_by_priority_perm, IH.
Qed.

Lemma insert_by_priority_sorted r rs :
  by_priority rs → by_priority (RuleSet.insert_by_priority r rs).
Proof.
  unfold by_priority. induction 1 as [|x rs Hs IH Hall]; cbn [RuleSet.insert_by_priority].
  - repeat constructor.
  - destruct (Z.ltb_spec (RulesEngine.priority r) (RulesEngine.priority x)) as [Hlt|Hge].
    + constructor; [exact IH|]. rewrite insert_by_priority_perm.
      constructor; [lia | exact Hall].
    + constructor; [by constructor|]. constructor; [lia|].
      eapply Forall_impl; [exact Hall|]. cbn. intros; lia.
Qed.

Lemma sort_by_priority_sorted rs : by_priority (RuleSet.sort_by_priority rs).
Proof.
  induction rs as [|r rs IH]; [constructor|].
  by apply insert_by_priority_sorted.
Qed.

Lemma insert_by_priority_head r rs :
  by_priority (r :: rs) → RuleSet.insert_by_priority r rs = r :: rs.
Proof.
  intros Hs. destruct rs as [|x rs]; [done|]. cbn [RuleSet.insert_by_priority].
  apply StronglySorted_inv in Hs as [_ Hall]. apply Forall_cons in Hall as [Hx _].
  destruct (Z.ltb_spec (RulesEngine.priority r) (RulesEngine.priority x)); [lia|done].
Qed.

Lemma sort_by_priority_fixed rs : by_priority rs → RuleSet.sort_by_priority rs = rs.
Proof.
  induction rs as [|r rs IH]; [done|]. intros Hs.
  unfold RuleSet.sort_by_priority in *. cbn [foldr].
  rewrite IH; [by apply insert_by_priority_head|].
  by apply StronglySorted_inv in Hs as [? _].
Qed.

(** The sort is stable: the rules of one priority keep their order. *)
Lemma insert_by_priority_stable k r rs :
  of_priority k (RuleSet.insert_by_priority r rs) = of_priority k (r :: rs).
Proof.
  unfold of_priority.
  induction rs as [|x rs IH]; [done|]. cbn [RuleSet.insert_by_priority].
  destruct (Z.ltb_spec (RulesEngine.priority r) (RulesEngine.priority x)) as [Hlt|Hge];
    [|done].
  cbn [List.filter] in *. rewrite IH.
  destruct (Z.eqb_spec (RulesEngine.priority x) k) as [Hx|Hx];
    destruct (Z.eqb_spec (RulesEngine.priority r) k) as [Hr|Hr]; try done; lia.
Qed.

Lemma sort_by_priority_stable k rs :
  of_priority k (RuleSet.sort_by_priority rs) = of_priority k rs.
Proof.
  induction rs as [|r rs IH]; [done|]. unfold RuleSet.sort_by_priority in *.
  cbn [foldr]. rewrite insert_by_priority_stable. unfold of_priority in *.
  cbn [List.filter]. by rewrite IH.
Qed.

Lemma filter_by_priority (f : RulesEngine.Rule → bool) rs :
  by_priority rs → by_priority (List.filter f rs).
Proof.
  unfold by_priority. induction 1 as [|x rs Hs IH Hall]; cbn [List.filter]; [constructor|].
  destruct (f x); [|exact IH]. constructor; [exact IH|].
  apply Forall_forall. intros y Hy. apply list_elem_of_In, List.filter_In in Hy as [Hy _].
  rewrite Forall_forall in Hall. by apply Hall, list_elem_of_In.
Qed.

Lemma toggle_first_priorities rule_id rs :
  RulesEngine.priority <$> RuleSet.toggle_first rule_id rs = RulesEngine.priority <$> rs.
Proof.
  induction rs as [|r rs IH]; [done|]. cbn [RuleSet.toggle_first].
  destruct (RulesEngine.id r =? rule_id); cbn [fmap list_fmap]; [done|].
  f_equal. exact IH.
Qed.

Lemma by_priority_fmap rs :
  by_priority rs ↔ StronglySorted (fun a b => b ≤ a) (RulesEngine.priority <$> rs).
Proof.
  unfold by_priority. induction rs as [|r rs IH]; cbn [fmap list_fmap].
  - split; constructor.
  - split; intros Hs; apply StronglySorted_inv in Hs as [Hs Hall]; constructor.
    + by apply IH.
    + rewrite Forall_fmap. exact Hall.
    + by apply IH.
    + rewrite Forall_fmap in Hall. exact Hall.
Qed.

Lemma toggle_first_by_priority rule_id rs :
  by_priority rs → by_priority (RuleSet.toggle_first rule_id rs).
Proof. rewrite !by_priority_fmap. by rewrite toggle_first_priorities. Qed.

Lemma rules_save_rules fault self :
  RuleSet.rules (RuleSet.save_rules fault self) = RuleSet.rules self.
Proof. unfold RuleSet.save_rules. by destruct fault. Qed.

Lemma default_rules_by_priority : by_priority RuleSet.default_rules.
Proof.
  unfold by_priority, RuleSet.default_rules.
  repeat (constructor; [|repeat (constructor; [cbn; lia|]); constructor]).
  constructor.
Qed.

Lemma load_rules_by_priority fault self :
  by_priority (RuleSet.rules (RuleSet.load_rules fault self)).
Proof.
  unfold RuleSet.load_rules, RuleSet._create_default_rules.
  destruct (RuleSet.file self) as [| |data].
  - rewrite rules_save_rules. apply default_rules_by_priority.
  - constructor.
  - destruct (RuleSet.from_dicts data); [apply sort_by_priority_sorted | constructor].
Qed.

(** X21.  The engine keeps its rules in the order of their priorities, the
    highest first.  That is how [load_rules] leaves them, whatever the file
    holds, and how [add_rule] and [update_rule] leave them; [remove_rule] and
    [toggle_rule] do not disturb the order.  The sort is stable: rules of one
    priority stay in the order of the file, and a rule that is added goes
    behind the rules of its priority that are there. *)
Theorem rules_are_kept_by_priority (fault : option RuleSet.rules_file)
    (rule : RulesEngine.Rule) (rule_id : Z) (self : RuleSet.t) :
  by_priority (RuleSet.rules self) →
  by_priority (RuleSet.rules (RuleSet.load_rules fault self))
  ∧ by_priority (RuleSet.rules (RuleSet.add_rule fault rule self))
  ∧ by_priority (RuleSet.rules (RuleSet.update_rule fault rule self))
  ∧ by_priority (RuleSet.rules (RuleSet.remove_rule fault rule_id self))
  ∧ by_priority (RuleSet.rules (RuleSet.toggle_rule fault rule_id self))
  ∧ (∀ data rs k,
       RuleSet.file self = RuleSet.Json data → RuleSet.from_dicts data = Some rs →
       of_priority k (RuleSet.rules (RuleSet.load_rules fault self)) = of_priority k rs)
  ∧ of_priority (RulesEngine.priority rule)
      (RuleSet.rules (RuleSet.add_rule fault rule self))
    = of_priority (RulesEngine.priority rule) (RuleSet.rules self) ++ [rule].
Proof.
  intros Hs. split; [apply load_rules_by_priority|].
  unfold RuleSet.add_rule, RuleSet.update_rule, RuleSet.remove_rule, RuleSet.toggle_rule.
  rewrite !rules_save_rules. cbn [RuleSet.rules].
  split; [apply sort_by_priority_sorted|]. split; [apply sort_by_priority_sorted|].
  split; [by apply filter_by_priority|]. split; [by apply toggle_first_by_priority|].
  split.
  - intros data rs k Hfile Hdata. unfold RuleSet.load_rules.
    rewrite Hfile, Hdata. cbn [RuleSet.rules]. apply sort_by_priority_stable.
  - rewrite sort_by_priority_stable. unfold of_priority.
    rewrite List.filter_app. cbn [List.filter]. by rewrite Z.eqb_refl.
Qed.

Lemma rules_are_kept_by_priority_witness :
  let self := RuleSet.Make RuleSet.default_rules RuleSet.NoFile in
  let rule := RulesEngine.MkRule 7 "Notes" "*.txt" "Notes" RulesEngine.no_conditions 9 true in
  by_priority (RuleSet.rules self)
  ∧ RulesEngine.id <$> RuleSet.rules (RuleSet.add_rule None rule self)
    = [1; 2; 7; 3; 4; 5; 6]
  ∧ by_priority (RuleSet.rules (RuleSet.add_rule None rule self)).
Proof.
  cbv zeta. split; [apply default_rules_by_priority|]. split; [reflexivity|].
  exact (proj1 (proj2 (rules_are_kept_by_priority None
                         (RulesEngine.MkRule 7 "Notes" "*.txt" "Notes"
                            RulesEngine.no_conditions 9 true)
                         0 (RuleSet.Make RuleSet.default_rules RuleSet.NoFile)
                         default_rules_by_priority))).
Defined.

(** X23.  Higher priority is checked first.  On rules kept in the order of
    their priorities, [apply_rules] returns the target of a matching rule
    that no matching rule outranks: every rule of a strictly higher priority
    does not match the file, and among the matching rules of the same
    priority the one that comes first in the list is taken. *)
Theorem apply_rules_prefers_priority (re : PyRe) (self : RuleSet.t) (E : env)
    (p : Path) (md : option ContentAnalyzer.analysis) (w : world) :
  by_priority (RuleSet.rules self) →
  ∃ o, RulesEngine.apply_rules (RuleSet.engine self) E p md w = (Ok o, w)
       ∧ match o with
         | Some target =>
             ∃ r, r ∈ RuleSet.rules self
                  ∧ RulesEngine.matches r E p md w = (Ok true, w)
                  ∧ target = RulesEngine.target_folder r
                  ∧ (∀ q, q ∈ RuleSet.rules self →
                          RulesEngine.priority r < RulesEngine.priority q →
                          RulesEngine.matches q E p md w = (Ok false, w))
                  ∧ ∃ earlier later,
                      of_priority (RulesEngine.priority r) (RuleSet.rules self)
                      = earlier ++ r :: later
                      ∧ Forall (fun q => RulesEngine.matches q E p md w = (Ok false, w))
                          earlier
         | None =>
             ∀ q, q ∈ RuleSet.rules self →
                  RulesEngine.matches q E p md w = (Ok false, w)
         end.
Proof.
  intros Hs. unfold RulesEngine.apply_rules, RuleSet.engine. cbn [RulesEngine.rules].
  destruct (first_match_split (RuleSet.rules self) E p md w) as (o & Hrun & Ho).
  exists o. split; [exact Hrun|]. destruct o as [target|].
  - destruct Ho as (pre & r & post & Hrules & Hpre & Hr & Htarget).
    exists r. rewrite Hrules in *. split; [set_solver|]. split; [exact Hr|].
    split; [exact Htarget|]. split.
    + intros q Hq Hlt. apply elem_of_app in Hq as [Hq|Hq].
      * rewrite Forall_forall in Hpre. by apply Hpre.
      * exfalso. unfold by_priority in Hs. apply StronglySorted_app_1_r in Hs.
        apply StronglySorted_inv in Hs as [_ Hall].
        apply elem_of_cons in Hq as [->|Hq]; [lia|].
        rewrite Forall_forall in Hall. specialize (Hall q Hq). cbn in Hall. lia.
    + exists (of_priority (RulesEngine.priority r) pre),
        (of_priority (RulesEngine.priority r) post).
      split.
      * unfold of_priority. rewrite List.filter_app. cbn [List.filter].
        by rewrite Z.eqb_refl.
      * apply Forall_forall. intros q Hq. unfold of_priority in Hq.
        apply list_elem_of_In, List.filter_In in Hq as [Hq _].
        rewrite Forall_forall in Hpre. by apply Hpre, list_elem_of_In.
  - intros q Hq. rewrite Forall_forall in Ho. by apply Ho.
Qed.

Lemma apply_rules_prefers_priority_witness :
  let self := RuleSet.Make RuleSet.default_rules RuleSet.NoFile in
  let p := ["in"; "screenshot of a download.png"] in
  let w := MkWorld ∅ empty_database (Counters 0 0 0) in
  by_priority (RuleSet.rules self)
  ∧ ∃ o, @RulesEngine.apply_rules Re.engine (RuleSet.engine self) quiet p None w
         = (Ok o, w)
         ∧ o = Some "Screenshots".
Proof.
  cbv zeta. split; [apply default_rules_by_priority|].
  destruct (apply_rules_prefers_priority Re.engine
              (RuleSet.Make RuleSet.default_rules RuleSet.NoFile) quiet
              ["in"; "screenshot of a download.png"] None
              (MkWorld ∅ empty_database (Counters 0 0 0)) default_rules_by_priority)
    as (o & Hrun & _).
  exists o. split; [exact Hrun|].
  enough (Ok o = Ok (Some "Screenshots") :> res (option string)) by congruence.
  change (Ok o) with (fst (Ok o, MkWorld ∅ empty_database (Counters 0 0 0))).
  rewrite <- Hrun. reflexivity.
Defined.

(** ** The ids of the rules *)

Lemma get_next_id_above self :
  Forall (fun q => RulesEngine.id q < RuleSet.get_next_id self) (RuleSet.rules self).
Proof.
  unfold RuleSet.get_next_id. destruct (RuleSet.rules self) as [|r rest]; [constructor|].
  assert (RulesEngine.id r ≤ foldr Z.max (RulesEngine.id r) (RulesEngine.id <$> rest)
          ∧ Forall (fun q => RulesEngine.id q
                             ≤ foldr Z.max (RulesEngine.id r) (RulesEngine.id <$> rest))
              rest) as [Hr Hrest].
  { induction rest as [|x rest [IH1 IH2]]; cbn [fmap list_fmap foldr].
    - split; [lia | constructor].
    - split; [lia|]. constructor; [lia|].
      eapply Forall_impl; [exact IH2|]. cbn. intros; lia. }
  constructor; [lia|]. eapply Forall_impl; [exact Hrest|]. cbn. intros; lia.
Qed.

Lemma replace_first_ids rule rs :
  RulesEngine.id <$> RuleSet.replace_first rule rs = RulesEngine.id <$> rs.
Proof.
  induction rs as [|r rs IH]; [done|]. cbn [RuleSet.replace_first].
  destruct (Z.eqb_spec (RulesEngine.id r) (RulesEngine.id rule)) as [Heq|Hne];
    cbn [fmap list_fmap]; [by rewrite Heq|].
  f_equal. exact IH.
Qed.

Lemma toggle_first_ids rule_id rs :
  RulesEngine.id <$> RuleSet.toggle_first rule_id rs = RulesEngine.id <$> rs.
Proof.
  induction rs as [|r rs IH]; [done|]. cbn [RuleSet.toggle_first].
  destruct (RulesEngine.id r =? rule_id); cbn [fmap list_fmap]; [done|].
  f_equal. exact IH.
Qed.

Lemma filter_ids_NoDup (f : RulesEngine.Rule → bool) rs :
  NoDup (RulesEngine.id <$> rs) → NoDup (RulesEngine.id <$> List.filter f rs).
Proof.
  induction rs as [|r rs IH]; cbn [List.filter fmap list_fmap]; [done|].
  intros Hnd. apply NoDup_cons in Hnd as [Hr Hnd].
  destruct (f r); cbn [fmap list_fmap]; [|by apply IH].
  apply NoDup_cons. split; [|by apply IH].
  intros Hin. apply Hr. apply list_elem_of_fmap in Hin as (q & Hid & Hq).
  apply list_elem_of_fmap. exists q. split; [done|].
  by apply list_elem_of_In, List.filter_In in Hq as [Hq%list_elem_of_In _].
Qed.

(** X24.  The rules keep ids of their own.  [get_next_id] is above the id of
    every rule of the engine, so in an engine whose rules have distinct ids a
    rule made with it can be added and the ids are still distinct; and they
    are after [update_rule], [remove_rule] and [toggle_rule], the first of
    which replaces a rule and adds none, and the second of which leaves no
    rule with the id it was given. *)
Theorem rule_ids_stay_distinct (fault : option RuleSet.rules_file)
    (rule : RulesEngine.Rule) (rule_id : Z) (self : RuleSet.t) :
  NoDup (RulesEngine.id <$> RuleSet.rules self) →
  Forall (fun q => RulesEngine.id q < RuleSet.get_next_id self) (RuleSet.rules self)
  ∧ (RulesEngine.id rule = RuleSet.get_next_id self →
     NoDup (RulesEngine.id <$> RuleSet.rules (RuleSet.add_rule fault rule self)))
  ∧ NoDup (RulesEngine.id <$> RuleSet.rules (RuleSet.update_rule fault rule self))
  ∧ length (RuleSet.rules (RuleSet.update_rule fault rule self))
    = length (RuleSet.rules self)
  ∧ NoDup (RulesEngine.id <$> RuleSet.rules (RuleSet.remove_rule fault rule_id self))
  ∧ Forall (fun q => RulesEngine.id q ≠ rule_id)
      (RuleSet.rules (RuleSet.remove_rule fault rule_id self))
  ∧ NoDup (RulesEngine.id <$> RuleSet.rules (RuleSet.toggle_rule fault rule_id self)).
Proof.
  intros Hnd. split; [apply get_next_id_above|].
  unfold RuleSet.add_rule, RuleSet.update_rule, RuleSet.remove_rule, RuleSet.toggle_rule.
  rewrite !rules_save_rules. cbn [RuleSet.rules].
  split; [|split; [|split; [|split; [|split]]]].
  - intros Hid. rewrite sort_by_priority_perm, fmap_app. cbn [fmap list_fmap].
    apply NoDup_app. split; [exact Hnd|]. split; [|apply NoDup_singleton].
    intros i Hi Hi'. apply list_elem_of_singleton in Hi'. subst i.
    apply list_elem_of_fmap in Hi as (q & Hq & Hin).
    pose proof (get_next_id_above self) as Hall. rewrite Forall_forall in Hall.
    specialize (Hall q Hin). cbn in Hall. lia.
  - by rewrite sort_by_priority_perm, replace_first_ids.
  - rewrite (Permutation_length (sort_by_priority_perm _)).
    pose proof (f_equal length (replace_first_ids rule (RuleSet.rules self))) as Hlen.
    by rewrite !length_fmap in Hlen.
  - by apply filter_ids_NoDup.
  - apply Forall_forall. intros q Hq.
    apply list_elem_of_In, List.filter_In in Hq as [_ Hq].
    apply negb_true_iff, Z.eqb_neq in Hq. exact Hq.
  - by rewrite toggle_first_ids.
Qed.

Lemma rule_ids_stay_distinct_witness :
  let self := RuleSet.Make RuleSet.default_rules RuleSet.NoFile in
  let rule := RulesEngine.MkRule 7 "Notes" "*.txt" "Notes" RulesEngine.no_conditions 9 true in
  NoDup (RulesEngine.id <$> RuleSet.rules self)
  ∧ RulesEngine.id rule = RuleSet.get_next_id self
  ∧ NoDup (RulesEngine.id <$> RuleSet.rules (RuleSet.add_rule None rule self)).
Proof.
  cbv zeta.
  assert (NoDup (RulesEngine.id <$>
                 RuleSet.rules (RuleSet.Make RuleSet.default_rules RuleSet.NoFile)))
    as Hnd.
  { apply (bool_decide_unpack _). by vm_compute. }
  split; [exact Hnd|]. split; [reflexivity|].
  exact (proj1 (proj2 (rule_ids_stay_distinct None
                         (RulesEngine.MkRule 7 "Notes" "*.txt" "Notes"
                            RulesEngine.no_conditions 9 true)
                         0 (RuleSet.Make RuleSet.default_rules RuleSet.NoFile) Hnd))
           eq_refl).
Defined.

(** ** Switching a rule off and on *)

Lemma flip_flip r : RuleSet.flip (RuleSet.flip r) = r.
Proof. destruct r. unfold RuleSet.flip. cbn. by rewrite negb_involutive. Qed.

Lemma toggle_first_twice rule_id rs :
  RuleSet.toggle_first rule_id (RuleSet.toggle_first rule_id rs) = rs.
Proof.
  induction rs as [|r rs IH]; [done|]. cbn [RuleSet.toggle_first].
  destruct (RulesEngine.id r =? rule_id) eqn:Hid; cbn [RuleSet.toggle_first].
  - change (RulesEngine.id (RuleSet.flip r)) with (RulesEngine.id r).
    by rewrite Hid, flip_flip.
  - by rewrite Hid, IH.
Qed.

Lemma toggle_first_at rule_id pre r post :
  Forall (fun q => RulesEngine.id q ≠ rule_id) pre → RulesEngine.id r = rule_id →
  RuleSet.toggle_first rule_id (pre ++ r :: post) = pre ++ RuleSet.flip r :: post.
Proof.
  intros Hpre Hr. induction Hpre as [|q pre Hq _ IH]; cbn [app RuleSet.toggle_first].
  - by rewrite (proj2 (Z.eqb_eq _ _) Hr).
  - by rewrite (proj2 (Z.eqb_neq _ _) Hq), IH.
Qed.

Lemma toggle_first_absent rule_id rs :
  Forall (fun q => RulesEngine.id q ≠ rule_id) rs → RuleSet.toggle_first rule_id rs = rs.
Proof.
  induction 1 as [|q rs Hq _ IH]; [done|]. cbn [RuleSet.toggle_first].
  by rewrite (proj2 (Z.eqb_neq _ _) Hq), IH.
Qed.

(** X25.  [toggle_rule] switches the first rule that has the id, and
    nothing else: the rules before and after it, their order and the other
    fields of the rule stay; with an id that no rule has it changes nothing.
    Toggling the same id twice gives the rules back as they were, and the
    file then holds them again when the second write goes through.  A rule
    that has been switched off no longer matches any file. *)
Theorem toggle_rule_switches_one_rule (re : PyRe)
    (fault fault' : option RuleSet.rules_file) (rule_id : Z) (self : RuleSet.t) :
  (∀ pre r post,
     RuleSet.rules self = pre ++ r :: post →
     Forall (fun q => RulesEngine.id q ≠ rule_id) pre → RulesEngine.id r = rule_id →
     RuleSet.rules (RuleSet.toggle_rule fault rule_id self)
     = pre ++ RulesEngine.MkRule (RulesEngine.id r) (RulesEngine.name r)
                (RulesEngine.pattern r) (RulesEngine.target_folder r)
                (RulesEngine.rule_conditions r) (RulesEngine.priority r)
                (negb (RulesEngine.enabled r)) :: post
     ∧ (RulesEngine.enabled r = true →
        ∀ E p md w,
          RulesEngine.matches (RuleSet.flip r) E p md w = (Ok false, w)))
  ∧ (Forall (fun q => RulesEngine.id q ≠ rule_id) (RuleSet.rules self) →
     RuleSet.rules (RuleSet.toggle_rule fault rule_id self) = RuleSet.rules self)
  ∧ RuleSet.rules (RuleSet.toggle_rule fault' rule_id
                     (RuleSet.toggle_rule fault rule_id self))
    = RuleSet.rules self
  ∧ (fault' = None →
     RuleSet.file (RuleSet.toggle_rule fault' rule_id
                     (RuleSet.toggle_rule fault rule_id self))
     = RuleSet.Json (RuleSet.to_dict <$> RuleSet.rules self)).
Proof.
  unfold RuleSet.toggle_rule. rewrite !rules_save_rules. cbn [RuleSet.rules].
  split; [|split; [|split]].
  - intros pre r post Hrules Hpre Hr. rewrite Hrules. split.
    + by apply toggle_first_at.
    + intros Hon E p md w. apply matches_disabled. cbn. by rewrite Hon.
  - apply toggle_first_absent.
  - apply toggle_first_twice.
  - intros ->. unfold RuleSet.save_rules.
    destruct fault; cbn [RuleSet.file RuleSet.rules]; by rewrite toggle_first_twice.
Qed.

(** ** The rules file *)

Lemma from_dict_to_dict r : RuleSet.from_dict (RuleSet.to_dict r) = Some r.
Proof. by destruct r. Qed.

Lemma from_dicts_to_dict rs : RuleSet.from_dicts (RuleSet.to_dict <$> rs) = Some rs.
Proof.
  induction rs as [|r rs IH]; [done|]. cbn [fmap list_fmap RuleSet.from_dicts].
  fold (RuleSet.to_dict <$> rs). by rewrite from_dict_to_dict, IH.
Qed.

Lemma from_dicts_malformed d data :
  d ∈ data → RuleSet.from_dict d = None → RuleSet.from_dicts data = None.
Proof.
  intros Hin Hd. induction Hin as [d data|d x data _ IH]; cbn [RuleSet.from_dicts].
  - by rewrite Hd.
  - rewrite (IH Hd). by destruct (RuleSet.from_dict x).
Qed.

Lemma load_saved fault self :
  RuleSet.load_rules fault (RuleSet.save_rules None self)
  = RuleSet.Make (RuleSet.sort_by_priority (RuleSet.rules self))
      (RuleSet.Json (RuleSet.to_dict <$> RuleSet.rules self)).
Proof.
  unfold RuleSet.load_rules, RuleSet.save_rules. cbn [RuleSet.file RuleSet.rules].
  by rewrite from_dicts_to_dict.
Qed.

(** X26.  What is saved is what is loaded.  While the writes go through,
    the file holds the rules of the engine after [save_rules], [add_rule],
    [update_rule], [remove_rule] and [toggle_rule], and [load_rules] reads
    them back: the same rules with the same fields, in the same order, for
    an engine that keeps its rules by priority.  On the first start, without
    a file, the six default rules are made and saved, and they load back. *)
Theorem saved_rules_load_back (fault : option RuleSet.rules_file)
    (rule : RulesEngine.Rule) (rule_id : Z) (self : RuleSet.t) :
  by_priority (RuleSet.rules self) →
  RuleSet.rules (RuleSet.load_rules fault (RuleSet.save_rules None self))
  = RuleSet.rules self
  ∧ RuleSet.rules (RuleSet.load_rules fault (RuleSet.add_rule None rule self))
    = RuleSet.rules (RuleSet.add_rule None rule self)
  ∧ RuleSet.rules (RuleSet.load_rules fault (RuleSet.update_rule None rule self))
    = RuleSet.rules (RuleSet.update_rule None rule self)
  ∧ RuleSet.rules (RuleSet.load_rules fault (RuleSet.remove_rule None rule_id self))
    = RuleSet.rules (RuleSet.remove_rule None rule_id self)
  ∧ RuleSet.rules (RuleSet.load_rules fault (RuleSet.toggle_rule None rule_id self))
    = RuleSet.rules (RuleSet.toggle_rule None rule_id self)
  ∧ (RuleSet.file self = RuleSet.NoFile →
     RuleSet.rules (RuleSet.load_rules None self) = RuleSet.default_rules
     ∧ RuleSet.rules (RuleSet.load_rules fault (RuleSet.load_rules None self))
       = RuleSet.default_rules).
Proof.
  intros Hs.
  unfold RuleSet.add_rule, RuleSet.update_rule, RuleSet.remove_rule, RuleSet.toggle_rule.
  rewrite !load_saved, !rules_save_rules. cbn [RuleSet.rules].
  split; [by apply sort_by_priority_fixed|].
  split; [apply sort_by_priority_fixed, sort_by_priority_sorted|].
  split; [apply sort_by_priority_fixed, sort_by_priority_sorted|].
  split; [by apply sort_by_priority_fixed, filter_by_priority|].
  split; [by apply sort_by_priority_fixed, toggle_first_by_priority|].
  intros Hfile. unfold RuleSet.load_rules at 1 3. rewrite Hfile.
  unfold RuleSet._create_default_rules. rewrite load_saved, rules_save_rules.
  cbn [RuleSet.rules]. split; [done|].
  apply sort_by_priority_fixed, default_rules_by_priority.
Qed.

Lemma saved_rules_load_back_witness :
  let self := RuleSet.Make RuleSet.default_rules RuleSet.NoFile in
  by_priority (RuleSet.rules self)
  ∧ RuleSet.rules (RuleSet.load_rules None (RuleSet.toggle_rule None 3 self))
    = RuleSet.rules (RuleSet.toggle_rule None 3 self).
Proof.
  cbv zeta. split; [apply default_rules_by_priority|].
  exact (proj1 (proj2 (proj2 (proj2 (proj2
           (saved_rules_load_back None
              (RulesEngine.MkRule 7 "Notes" "*.txt" "Notes" RulesEngine.no_conditions 9 true)
              3 (RuleSet.Make RuleSet.default_rules RuleSet.NoFile)
              default_rules_by_priority)))))).
Defined.

(** X27.  One bad entry loses all rules.  When the rules file cannot be
    read, or one of its entries lacks its id, name, pattern or target
    folder, [load_rules] raises nothing and leaves the engine with no rule
    at all, the well-formed entries included, so [apply_rules] finds no
    target for any file; the file itself is left as it is, until the next
    change of the rules that is saved, which overwrites it with the rules of
    the engine alone. *)
Theorem malformed_rules_file_drops_all_rules (re : PyRe)
    (fault : option RuleSet.rules_file) (self : RuleSet.t) :
  RuleSet.file self = RuleSet.Unreadable
  ∨ (∃ data d, RuleSet.file self = RuleSet.Json data ∧ d ∈ data
               ∧ (RuleSet.d_id d = None ∨ RuleSet.d_name d = None ∨ RuleSet.d_pattern d = None
                  ∨ RuleSet.d_target_folder d = None)) →
  let loaded := RuleSet.load_rules fault self in
  RuleSet.rules loaded = []
  ∧ RuleSet.file loaded = RuleSet.file self
  ∧ (∀ E p md w,
       RulesEngine.apply_rules (RuleSet.engine loaded) E p md w = (Ok None, w))
  ∧ (∀ rule,
       RuleSet.file (RuleSet.add_rule None rule loaded)
       = RuleSet.Json [RuleSet.to_dict rule]).
Proof.
  intros Hfile. cbv zeta.
  assert (RuleSet.load_rules fault self = RuleSet.Make [] (RuleSet.file self)) as ->.
  { unfold RuleSet.load_rules.
    destruct Hfile as [->|(data & d & -> & Hin & Hd)]; [done|].
    rewrite (from_dicts_malformed d data Hin); [done|].
    unfold RuleSet.from_dict.
    destruct Hd as [Hd|[Hd|[Hd|Hd]]]; rewrite Hd; by repeat case_match. }
  by repeat split.
Qed.

Lemma malformed_rules_file_drops_all_rules_witness :
  let entry := RuleSet.RuleDict None (Some "Notes") (Some "*.txt") (Some "Notes")
                 None None None in
  let self := RuleSet.Make []
                (RuleSet.Json ((RuleSet.to_dict <$> RuleSet.default_rules) ++ [entry])) in
  (RuleSet.file self = RuleSet.Unreadable
   ∨ (∃ data d, RuleSet.file self = RuleSet.Json data ∧ d ∈ data
                ∧ (RuleSet.d_id d = None ∨ RuleSet.d_name d = None
                   ∨ RuleSet.d_pattern d = None ∨ RuleSet.d_target_folder d = None)))
  ∧ RuleSet.rules (RuleSet.load_rules None self) = [].
Proof.
  cbv zeta.
  assert (RuleSet.file
            (RuleSet.Make []
               (RuleSet.Json
                  ((RuleSet.to_dict <$> RuleSet.default_rules) ++
                   [RuleSet.RuleDict None (Some "Notes") (Some "*.txt") (Some "Notes")
                      None None None])))
          = RuleSet.Unreadable
          ∨ (∃ data d,
               RuleSet.file
                 (RuleSet.Make []
                    (RuleSet.Json
                       ((RuleSet.to_dict <$> RuleSet.default_rules) ++
                        [RuleSet.RuleDict None (Some "Notes") (Some "*.txt")
                           (Some "Notes") None None None])))
               = RuleSet.Json data ∧ d ∈ data
               ∧ (RuleSet.d_id d = None ∨ RuleSet.d_name d = None
                  ∨ RuleSet.d_pattern d = None ∨ RuleSet.d_target_folder d = None)))
    as Hbad.
  { right. eexists _, _. split; [reflexivity|]. split.
    - apply elem_of_app. right. apply list_elem_of_singleton. reflexivity.
    - left. reflexivity. }
  split; [exact Hbad|].
  exact (proj1 (malformed_rules_file_drops_all_rules Re.engine None _ Hbad)).
Defined.

(** ** The detector's own cache *)

(** The files in their order, each checked with the detector that the check
    before it has left. *)
Fixpoint check_all (self : HashCache.t) (E : env) (files : list Path)
  : M (list (bool * option Path) * HashCache.t) :=
  match files with
  | [] => ret ([], self)
  | p :: rest =>
      let* r := HashCache.is_duplicate self E p in
      let* rs := check_all (snd r) E rest in
      ret (fst r :: fst rs, snd rs)
  end.

(** The digest of a file that can be hashed. *)
Definition digest_of (E : env) (w : world) (p : Path) : option string :=
  match fst (DuplicateDetector.compute_hash E p w) with
  | Ok h => Some h
  | Raise _ => None
  end.

(** The first of the files that has the digest. *)
Definition first_with (E : env) (w : world) (h : string) (files : list Path)
  : option Path :=
  List.find (fun q => bool_decide (digest_of E w q = Some h)) files.

Lemma find_snoc {A} (f : A → bool) l x :
  List.find f (l ++ [x])
  = match List.find f l with
    | Some y => Some y
    | None => if f x then Some x else None
    end.
Proof.
  induction l as [|y l IH]; cbn [app List.find]; [done|].
  by destruct (f y).
Qed.

Lemma compute_hash_reads E p w :
  snd (DuplicateDetector.compute_hash E p w) = w.
Proof.
  unfold DuplicateDetector.compute_hash, bind, Os.read_file.
  destruct (os_fault E (OpenRead p)); [done|]. by destruct (fs w !! p) as [[]|].
Qed.

(** The cache holds the first file of every digest seen. *)
Definition remembers (E : env) (w : world) (seen : list Path) (d : HashCache.t) : Prop :=
  ∀ h, (h ∈ HashCache._hashes d ↔ is_Some (first_with E w h seen))
       ∧ HashCache._file_map d !! h = first_with E w h seen.

Lemma is_duplicate_step E w seen d p :
  remembers E w seen d →
  ∃ d',
    HashCache.is_duplicate d E p w
    = (Ok (match digest_of E w p with
           | Some h =>
               match first_with E w h seen with
               | Some q => (true, Some q)
               | None => (false, None)
               end
           | None => (false, None)
           end, d'), w)
    ∧ remembers E w (seen ++ [p]) d'.
Proof.
  intros Hd. unfold HashCache.is_duplicate, try_except, bind, digest_of.
  pose proof (compute_hash_reads E p w) as Hw.
  assert (∀ h, first_with E w h (seen ++ [p])
               = match first_with E w h seen with
                 | Some y => Some y
                 | None => if bool_decide (digest_of E w p = Some h) then Some p else None
                 end) as Hsnoc.
  { intros h. unfold first_with. by rewrite find_snoc. }
  destruct (DuplicateDetector.compute_hash E p w) as [[h|e] w'] eqn:Hrun;
    cbn [fst snd] in *; subst w'.
  - assert (digest_of E w p = Some h) as Hp by (unfold digest_of; by rewrite Hrun).
    destruct (Hd h) as [Hin Hmap]. case_bool_decide as Hseen.
    + exists d. cbn. apply Hin in Hseen as [q Hq]. rewrite Hmap, Hq. split; [done|].
      intros h'. rewrite Hsnoc. destruct (Hd h') as [Hin' Hmap'].
      destruct (first_with E w h' seen) as [y|] eqn:Hy; [done|].
      case_bool_decide as Hh'; [|done].
      assert (h' = h) as -> by congruence. congruence.
    + eexists. cbn.
      destruct (first_with E w h seen) as [q|] eqn:Hq.
      { exfalso. apply Hseen, Hin. by eexists. }
      split; [done|]. intros h'. rewrite Hsnoc. cbn [HashCache._hashes HashCache._file_map].
      destruct (Hd h') as [Hin' Hmap']. destruct (decide (h' = h)) as [->|Hne].
      * rewrite Hq, bool_decide_true by done. rewrite lookup_insert_eq.
        split; [|done]. split; [by eexists|]. intros _. apply elem_of_union_l.
        by apply elem_of_singleton.
      * rewrite lookup_insert_ne by done.
        rewrite (bool_decide_false (digest_of E w p = Some h')) by congruence.
        split.
        -- rewrite elem_of_union, elem_of_singleton, Hin'.
           destruct (first_with E w h' seen); [|split; [intros [?|[? ?]]; done|intros [? ?]; done]].
           split; [by eexists | by right; eexists].
        -- rewrite Hmap'. by destruct (first_with E w h' seen).
  - exists d. cbn. split; [done|]. intros h'. rewrite Hsnoc.
    destruct (Hd h') as [Hin' Hmap'].
    assert (digest_of E w p = None) as Hp by (unfold digest_of; by rewrite Hrun).
    rewrite (bool_decide_false (digest_of E w p = Some h')) by congruence.
    by destruct (first_with E w h' seen).
Qed.

Lemma check_all_from E w files : ∀ seen d,
  remembers E w seen d →
  ∃ answers d',
    check_all d E files w = (Ok (answers, d'), w)
    ∧ remembers E w (seen ++ files) d'
    ∧ length answers = length files
    ∧ ∀ i p, files !! i = Some p →
        answers !! i
        = Some (match digest_of E w p with
                | Some h =>
                    match first_with E w h (seen ++ take i files) with
                    | Some q => (true, Some q)
                    | None => (false, None)
                    end
                | None => (false, None)
                end).
Proof.
  induction files as [|p files IH]; intros seen d Hd.
  - exists [], d. rewrite app_nil_r. split; [done|]. split; [exact Hd|].
    split; [done|]. intros i p Hp. by rewrite lookup_nil in Hp.
  - cbn [check_all]. unfold bind.
    destruct (is_duplicate_step E w seen d p Hd) as (d1 & -> & Hd1). cbn [fst snd].
    destruct (IH (seen ++ [p]) d1 Hd1) as (answers & d' & -> & Hd' & Hlen & Hanswers).
    eexists _, d'. split; [reflexivity|]. cbn [fst snd].
    rewrite <- app_assoc in Hd'. split; [exact Hd'|]. split; [cbn; by rewrite Hlen|].
    intros [|i] q Hq; cbn in Hq.
    + injection Hq as <-. cbn [take]. by rewrite app_nil_r.
    + cbn [take].
      replace (seen ++ p :: take i files) with ((seen ++ [p]) ++ take i files)
        by (by rewrite <- app_assoc).
      exact (Hanswers i q Hq).
Qed.

(** X28.  The detector's own cache remembers the first file of every digest.
    Starting from a new or a cleared detector, [is_duplicate] called on any
    files one after the other never raises and changes no file; it answers
    [(True, q)] for a file exactly when a file checked before it has the same
    SHA-256, and [q] is then the first of those; a file that cannot be hashed
    is answered with [(False, None)] and is not remembered. *)
Theorem is_duplicate_remembers_the_first (self : HashCache.t) (E : env)
    (files : list Path) (w : world) :
  ∃ answers d,
    check_all (HashCache.clear self) E files w = (Ok (answers, d), w)
    ∧ check_all HashCache.init E files w = (Ok (answers, d), w)
    ∧ length answers = length files
    ∧ ∀ i p, files !! i = Some p →
        answers !! i
        = Some (match digest_of E w p with
                | Some h =>
                    match first_with E w h (take i files) with
                    | Some q => (true, Some q)
                    | None => (false, None)
                    end
                | None => (false, None)
                end).
Proof.
  destruct (check_all_from E w files [] HashCache.init) as (answers & d & Hrun & _ & Hlen & Hanswers).
  { intros h. cbn. split; [|done]. split; [set_solver|]. by intros [? ?]. }
  exists answers, d. by repeat split.
Qed.
